(** * Cluster cleaving: a shallow embedding of [OTU_cleaver.py]

    The script post-processes the output of the swarm clustering tool.  It
    selects candidate local seeds from per-sample statistics, removes the
    ones that are global seeds, indexes the clusters that contain a
    candidate, replays the merge log of those clusters to carve sub-clusters,
    and finally sorts each sub-cluster and writes updated statistics and
    membership files.

    Conventions of the embedding:
    - a text file is the list of its lines, a line is a [string] whose
      characters are code points below 256;
    - Python integers are [Z];
    - a Python exception is a value [Raise e] of the type [result];
    - a dictionary whose iteration order is never observed is a [gmap], a
      dictionary that is iterated is an association list in insertion order,
      a set is a [gset];
    - the order in which Python iterates over a set is not specified: the
      one place where the script does it takes the order as a parameter. *)

From Stdlib Require Import ZArith Lia Ascii String.
From Stdlib Require Floats.SpecFloat.
From stdpp Require Import gmap strings list sorting pretty.

Local Open Scope string_scope.
Local Open Scope list_scope.
Local Open Scope Z_scope.

(** ** Exceptions *)

Inductive exn : Type :=
  | ValueError
  | KeyError
  | IndexError
  | UnboundLocalError
  | OverflowError
  | TypeError
  | SystemExit (status : Z).

Inductive result (A : Type) : Type :=
  | Ok (a : A)
  | Raise (e : exn).
Arguments Ok {A} a.
Arguments Raise {A} e.

#[global] Instance result_ret : MRet result := @Ok.
#[global] Instance result_bind : MBind result :=
  λ A B f m, match m with Ok a => f a | Raise e => Raise e end.

Definition is_ok {A} (r : result A) : Prop := ∃ a, r = Ok a.
Definition is_raise {A} (r : result A) : Prop := ∃ e, r = Raise e.

(** Exit status of the interpreter: the last statement of the script is
    [sys.exit(0)]; an uncaught exception ends the process with status 1,
    [sys.exit(n)] with [n] modulo 256. *)
Definition exit_status {A} (r : result A) : Z :=
  match r with
  | Ok _ => 0
  | Raise (SystemExit n) => n mod 256
  | Raise _ => 1
  end.

(** ** Python strings *)

Module Py.

Definition code (c : ascii) : Z := Z.of_N (N_of_ascii c).

Definition between (lo hi n : Z) : bool := (lo <=? n) && (n <=? hi).

(** [str.isspace] on code points below 256. *)
Definition isspace (c : ascii) : bool :=
  let n := code c in
  between 9 13 n || between 28 32 n || (n =? 133) || (n =? 160).

Fixpoint lstrip (s : string) : string :=
  match s with
  | String c s' => if isspace c then lstrip s' else s
  | EmptyString => EmptyString
  end.

Fixpoint rstrip (s : string) : string :=
  match s with
  | EmptyString => EmptyString
  | String c s' =>
      match rstrip s' with
      | EmptyString => if isspace c then EmptyString else String c EmptyString
      | r => String c r
      end
  end.

(** [s.strip()] *)
Definition strip (s : string) : string := rstrip (lstrip s).

(** [s.split(sep)] for a separator of one character. *)
Fixpoint split (sep : ascii) (s : string) : list string :=
  match s with
  | EmptyString => [EmptyString]
  | String c s' =>
      if Ascii.eqb c sep then EmptyString :: split sep s'
      else match split sep s' with
           | f :: fs => String c f :: fs
           | [] => [String c EmptyString]
           end
  end.

Definition tab : ascii := ascii_of_nat 9.

(** [s[0:2]] *)
Definition prefix2 (s : string) : string :=
  match s with
  | String a (String b _) => String a (String b EmptyString)
  | _ => s
  end.

(** *** [int(s, base)]

    Whitespace around the number, one sign, for base 16 an optional [0x]
    prefix, then digits with single underscores between them. *)

Definition int_isspace (c : ascii) : bool :=
  let n := code c in
  between 9 13 n || (n =? 32) || (n =? 133) || (n =? 160).

Definition digit_value (base : Z) (c : ascii) : option Z :=
  let n := code c in
  let v := if between 48 57 n then Some (n - 48)
           else if between 97 122 n then Some (n - 87)
           else if between 65 90 n then Some (n - 55)
           else None in
  match v with
  | Some d => if d <? base then Some d else None
  | None => None
  end.

Definition underscore : ascii := "_"%char.

(** Scans the longest run of digits and underscores.  [prev_us] tells that
    the previous character was an underscore, [n] counts the digits.  The
    result is [None] on a doubled or a trailing underscore. *)
Fixpoint scan_digits (base acc : Z) (n : nat) (prev_us : bool) (s : string)
  : option (Z * nat * string) :=
  match s with
  | EmptyString => if prev_us then None else Some (acc, n, s)
  | String c s' =>
      if Ascii.eqb c underscore then
        if prev_us then None else scan_digits base acc n true s'
      else match digit_value base c with
           | Some d => scan_digits base (acc * base + d) (S n) false s'
           | None => if prev_us then None else Some (acc, n, s)
           end
  end.

Fixpoint skip_int_space (s : string) : string :=
  match s with
  | String c s' => if int_isspace c then skip_int_space s' else s
  | EmptyString => EmptyString
  end.

Definition take_sign (s : string) : bool * string :=
  match s with
  | String "+" s' => (false, s')
  | String "-" s' => (true, s')
  | _ => (false, s)
  end.

Definition skip_base_prefix (base : Z) (s : string) : string :=
  match s with
  | String "0" (String x s') =>
      if (base =? 16) && (Ascii.eqb x "x" || Ascii.eqb x "X") then
        match s' with
        | String "_" s'' => s''
        | _ => s'
        end
      else s
  | _ => s
  end.

Definition starts_with_underscore (s : string) : bool :=
  match s with
  | String c _ => Ascii.eqb c underscore
  | EmptyString => false
  end.

Definition int (base : Z) (s : string) : result Z :=
  let '(neg, s1) := take_sign (skip_int_space s) in
  let s2 := skip_base_prefix base s1 in
  if starts_with_underscore s2 then Raise ValueError
  else match scan_digits base 0 0 false s2 with
       | Some (v, S _, rest) =>
           match skip_int_space rest with
           | EmptyString => Ok (if neg then - v else v)
           | _ => Raise ValueError
           end
       | _ => Raise ValueError
       end.

(** [l[i]] on a list, negative indices count from the end. *)
Definition index {A} (l : list A) (i : Z) : result A :=
  let n := Z.of_nat (length l) in
  let j := if i <? 0 then i + n else i in
  if (0 <=? j) && (j <? n) then
    match l !! Z.to_nat j with
    | Some x => Ok x
    | None => Raise IndexError
    end
  else Raise IndexError.

(** [l[i] = x] *)
Definition set_index {A} (l : list A) (i : Z) (x : A) : result (list A) :=
  let n := Z.of_nat (length l) in
  let j := if i <? 0 then i + n else i in
  if (0 <=? j) && (j <? n) then Ok (<[Z.to_nat j := x]> l)
  else Raise IndexError.

(** [a, b, c, d, e = l] *)
Definition unpack5 {A} (l : list A) : result (A * A * A * A * A) :=
  match l with
  | [a; b; c; d; e] => Ok (a, b, c, d, e)
  | _ => Raise ValueError
  end.

(** [str(n)] for an integer. *)
Definition str (n : Z) : string := pretty n.

End Py.

(** ** Python floats

    A float is a binary64 number.  A finite one is written [Fin m e] for
    [m * 2^e]; every operation rounds its exact result to 53 significant
    bits, to nearest with ties to even.  The script multiplies and adds
    floats whose exact results are multiples of the smallest float it was
    given, so no result is rounded in the subnormal range. *)

Module F64.

Inductive t : Type :=
  | Fin (m e : Z)
  | Inf (negative : bool)
  | NaN.

Definition digits (m : Z) : Z :=
  if m =? 0 then 0 else Z.log2 (Z.abs m) + 1.

Definition round (m e : Z) : t :=
  let a := Z.abs m in
  let s := digits a - 53 in
  let '(q, e') :=
    if s <=? 0 then (a, e)
    else
      let q := a / 2 ^ s in
      let r := a mod 2 ^ s in
      let half := 2 ^ (s - 1) in
      (if (half <? r) || ((r =? half) && Z.odd q) then q + 1 else q, e + s) in
  if 1024 <? digits q + e' then Inf (m <? 0)
  else Fin (if m <? 0 then - q else q) e'.

(** [float(n)] for an integer [n]. *)
Definition of_int (n : Z) : result t :=
  match round n 0 with
  | Fin m e => Ok (Fin m e)
  | _ => Raise OverflowError
  end.

Definition is_zero (x : t) : bool :=
  match x with Fin m _ => m =? 0 | _ => false end.

Definition is_negative (x : t) : bool :=
  match x with Fin m _ => m <? 0 | Inf n => n | NaN => false end.

Definition mul (x y : t) : t :=
  match x, y with
  | Fin m1 e1, Fin m2 e2 => round (m1 * m2) (e1 + e2)
  | NaN, _ | _, NaN => NaN
  | Inf n, z | z, Inf n =>
      if is_zero z then NaN else Inf (xorb n (is_negative z))
  end.

Definition add (x y : t) : t :=
  match x, y with
  | Fin m1 e1, Fin m2 e2 =>
      let e := Z.min e1 e2 in
      round (m1 * 2 ^ (e1 - e) + m2 * 2 ^ (e2 - e)) e
  | NaN, _ | _, NaN => NaN
  | Inf n1, Inf n2 => if Bool.eqb n1 n2 then Inf n1 else NaN
  | Inf n, _ | _, Inf n => Inf n
  end.

(** [n < x] and [n >= x] for an integer [n] and a float [x]; Python
    compares the exact values. *)
Definition int_lt (n : Z) (x : t) : bool :=
  match x with
  | Fin m e => if 0 <=? e then n <? m * 2 ^ e else n * 2 ^ (- e) <? m
  | Inf negative => negb negative
  | NaN => false
  end.

Definition int_ge (n : Z) (x : t) : bool :=
  match x with
  | Fin m e => if 0 <=? e then m * 2 ^ e <=? n else m <=? n * 2 ^ (- e)
  | Inf negative => negative
  | NaN => false
  end.

(** [n * x] and [x + n] with an integer operand: the integer is converted
    first. *)
Definition mul_int (x : t) (n : Z) : result t :=
  y ← of_int n; Ok (mul x y).

Definition add_int (x : t) (n : Z) : result t :=
  y ← of_int n; Ok (add x y).

(** The literal [0.05], that is [0x1.999999999999ap-5]. *)
Definition five_percent : t := Fin 3602879701896397 (-56).

(** The same number in the Standard Library's specification of binary64. *)
Definition to_spec (x : t) : SpecFloat.spec_float :=
  match x with
  | Fin m e => SpecFloat.binary_normalize 53 1024 m e false
  | Inf negative => SpecFloat.S754_infinity negative
  | NaN => SpecFloat.S754_nan
  end.

End F64.

(** ** Loops *)

Inductive flow (S : Type) : Type :=
  | Next (s : S)    (* the body ended, or reached [continue] *)
  | Break (s : S).  (* the body reached [break] *)
Arguments Next {S} s.
Arguments Break {S} s.

(** [for x in l: body], the state [st] holds the variables the loop
    assigns. *)
Fixpoint for_each {S A} (body : S → A → result (flow S)) (st : S) (l : list A)
  : result S :=
  match l with
  | [] => Ok st
  | x :: l' =>
      match body st x with
      | Ok (Next st') => for_each body st' l'
      | Ok (Break st') => Ok st'
      | Raise e => Raise e
      end
  end.

(** ** Dictionaries *)

(** The 256 dictionaries [[dict() for i in range(0, 256)]], indexed by the
    first two characters of a key read as a hexadecimal number. *)
Abbreviation shards V := (list (gmap string V)) (only parsing).

Definition new_shards {V} : shards V := replicate 256 ∅.

(** [int(key[0:2], 16)] *)
Definition shard_of (key : string) : result Z := Py.int 16 (Py.prefix2 key).

(** A dictionary that the script iterates over: the entries in insertion
    order. *)
Abbreviation dict V := (list (string * V)) (only parsing).

Fixpoint dict_get {V} (d : dict V) (k : string) : option V :=
  match d with
  | [] => None
  | (k', v) :: d' => if decide (k = k') then Some v else dict_get d' k
  end.

(** [d[k] = v]: an existing key keeps its place, a new key goes last. *)
Fixpoint dict_set {V} (d : dict V) (k : string) (v : V) : dict V :=
  match d with
  | [] => [(k, v)]
  | (k', v') :: d' =>
      if decide (k = k') then (k, v) :: d' else (k', v') :: dict_set d' k v
  end.

(** [del d[k]] *)
Fixpoint dict_del {V} (d : dict V) (k : string) : result (dict V) :=
  match d with
  | [] => Raise KeyError
  | (k', v') :: d' =>
      if decide (k = k') then Ok d'
      else d'' ← dict_del d' k; Ok ((k', v') :: d'')
  end.

(** ** [per_sample_stats_parse] *)

Record sample_state : Type := {
  per_sample_stats : shards Z;
  number_of_samples : Z;
  previous_sample : option string
}.

Definition sample_line (st : sample_state) (line : string)
  : result (flow sample_state) :=
  let line := Py.split Py.tab (Py.strip line) in
  '(sample, cloud, mass, seed, seed_abundance) ← Py.unpack5 (take 5 line);
  index ← shard_of seed;
  d ← Py.index (per_sample_stats st) index;
  let d' := match d !! seed with
            | Some n => <[seed := n + 1]> d
            | None => <[seed := 1]> d
            end in
  stats ← Py.set_index (per_sample_stats st) index d';
  if decide (Some sample ≠ previous_sample st) then
    Ok (Next {| per_sample_stats := stats;
                number_of_samples := number_of_samples st + 1;
                previous_sample := Some sample |})
  else
    Ok (Next {| per_sample_stats := stats;
                number_of_samples := number_of_samples st;
                previous_sample := previous_sample st |}).

Definition sample_init : sample_state :=
  {| per_sample_stats := new_shards;
     number_of_samples := 0;
     previous_sample := None |}.

(** The dictionary comprehension [{k: v for k, v in d.items() if v >=
    threshold}]. *)
Definition keep_frequent (threshold : F64.t) (d : gmap string Z) : gmap string Z :=
  filter (λ kv, F64.int_ge kv.2 threshold = true) d.

Definition per_sample_stats_parse (per_sample_stats_file : list string)
    (percentage : F64.t) : result (F64.t * shards Z) :=
  st ← for_each sample_line sample_init per_sample_stats_file;
  threshold ← F64.mul_int percentage (number_of_samples st);
  Ok (threshold, keep_frequent threshold <$> per_sample_stats st).

(** ** [stats_parse] *)

(** [int(cloud) > 1 and int(mass) >= 2 * threshold + int(singletons)] *)
Definition may_host_secondary_seed (threshold : F64.t)
    (cloud mass singletons : string) : result bool :=
  c ← Py.int 10 cloud;
  if 1 <? c then
    m ← Py.int 10 mass;
    s ← Py.int 10 singletons;
    bound ← F64.add_int (F64.mul (F64.Fin 2 0) threshold) s;
    Ok (F64.int_ge m bound)
  else Ok false.

(** [if seed in seeds[index]: del seeds[index][seed]] *)
Definition eliminate (seeds : shards Z) (seed : string) : result (shards Z) :=
  index ← shard_of seed;
  d ← Py.index seeds index;
  match d !! seed with
  | Some _ => Py.set_index seeds index (delete seed d)
  | None => Ok seeds
  end.

Definition stats_line (threshold : F64.t) (seeds : shards Z) (line : string)
  : result (flow (shards Z)) :=
  let line := Py.split Py.tab (Py.strip line) in
  '(cloud, mass, seed, seed_abundance, singletons) ← Py.unpack5 (take 5 line);
  abundance ← Py.int 10 seed_abundance;
  if F64.int_lt abundance threshold then Ok (Break seeds)
  else
    check ← may_host_secondary_seed threshold cloud mass singletons;
    if check : bool then seeds' ← eliminate seeds seed; Ok (Next seeds')
    else Ok (Next seeds).

(** The function updates [seeds] in place and returns [None]; the embedding
    returns the updated [seeds]. *)
Definition stats_parse (global_stats_file : list string) (threshold : F64.t)
    (seeds : shards Z) : result (shards Z) :=
  for_each (stats_line threshold) seeds global_stats_file.

(** ** [swarms_parse] *)

Module Re.

(** Length of the match of [_|;size=|;? ] at the start of [s], [0] when
    there is none. *)
Definition separator_length (s : string) : nat :=
  if String.prefix "_" s then 1%nat
  else if String.prefix ";size=" s then 6%nat
  else if String.prefix "; " s then 2%nat
  else if String.prefix " " s then 1%nat
  else 0%nat.

(** [skip] is the number of characters of the current match that are still
    to be dropped. *)
Fixpoint split_go (skip : nat) (s : string) : list string :=
  match s with
  | EmptyString => [EmptyString]
  | String c s' =>
      match skip with
      | S k => split_go k s'
      | O =>
          match separator_length s with
          | S k => EmptyString :: split_go k s'
          | O => match split_go O s' with
                 | f :: fs => String c f :: fs
                 | [] => [String c EmptyString]
                 end
          end
      end
  end.

(** [re.split("_|;size=|;? ", s)] *)
Definition split (s : string) : list string := split_go 0 s.

End Re.

(** [l[0::2]] and [l[1::2]] *)
Fixpoint evens {A} (l : list A) : list A :=
  match l with
  | x :: _ :: l' => x :: evens l'
  | _ => l
  end.

Definition odds {A} (l : list A) : list A :=
  match l with
  | _ :: l' => evens l'
  | [] => []
  end.

(** [{k for d in seeds for k in d.keys()}] *)
Definition keys_of (seeds : shards Z) : gset string :=
  ⋃ (dom <$> seeds).

(** [{v for d in global_seeds for v in d.values()}] *)
Definition values_of (global_seeds : shards string) : gset string :=
  ⋃ ((λ d : gmap string string, list_to_set (map_to_list d).*2) <$> global_seeds).

Record swarms_state : Type := {
  swarms : shards Z;
  global_seeds : shards string;
  seeds_to_find : Z   (* [number_of_seeds] *)
}.

(** [swarms[index][amplicon] = int(abundance)] *)
Definition record_abundance (swarms : shards Z) (pair : string * string)
  : result (flow (shards Z)) :=
  let '(amplicon, abundance) := pair in
  index ← shard_of amplicon;
  n ← Py.int 10 abundance;
  d ← Py.index swarms index;
  swarms' ← Py.set_index swarms index (<[amplicon := n]> d);
  Ok (Next swarms').

(** [global_seeds[index][amplicon] = seed] *)
Definition record_global_seed (seed : string) (global_seeds : shards string)
    (amplicon : string) : result (flow (shards string)) :=
  index ← shard_of amplicon;
  d ← Py.index global_seeds index;
  global_seeds' ← Py.set_index global_seeds index (<[amplicon := seed]> d);
  Ok (Next global_seeds').

Section set_iteration.

(** The order in which a [for] loop visits the elements of a set. *)
Variable iter : gset string → list string.

Definition swarms_line (seeds_set : gset string) (st : swarms_state)
    (line : string) : result (flow swarms_state) :=
  let line := Py.strip line in
  let amplicons := evens (Re.split line) in
  let abundances := odds (Re.split line) in
  seed ← Py.index amplicons 0;
  let common := seeds_set ∩ list_to_set amplicons in
  st' ← (if decide (common ≠ ∅) then
           sw ← for_each record_abundance (swarms st) (zip amplicons abundances);
           gs ← for_each (record_global_seed seed) (global_seeds st) (iter common);
           Ok {| swarms := sw;
                 global_seeds := gs;
                 seeds_to_find := seeds_to_find st - Z.of_nat (size common) |}
         else Ok st);
  if seeds_to_find st' =? 0 then Ok (Break st') else Ok (Next st').

Definition swarms_parse (swarms_file : list string) (seeds : shards Z)
  : result (shards Z * shards string) :=
  let seeds_set := keys_of seeds in
  st ← for_each (swarms_line seeds_set)
         {| swarms := new_shards;
            global_seeds := new_shards;
            seeds_to_find := Z.of_nat (size seeds_set) |}
         swarms_file;
  Ok (swarms st, global_seeds st).

End set_iteration.

(** ** [struct_parse] *)

(** A sub-cluster is a set of amplicons; [clusters] maps the root of every
    sub-cluster of the current cluster to it. *)
Abbreviation subclusters := (list (string * gset string)) (only parsing).

Record struct_state : Type := {
  number_of_seeds : Z;
  previous_cluster_id : Z;
  clusters : subclusters;
  new_clusters : list subclusters;
  has_a_local_seed : option bool   (* [None]: not assigned yet *)
}.

(** The first loop over [clusters]: the first sub-cluster that contains
    [father] receives [son]; [None] when the loop ends without [break]. *)
Fixpoint attach_son (father son : string) (cl : subclusters) : option subclusters :=
  match cl with
  | [] => None
  | (d, members) :: cl' =>
      if decide (father ∈ members) then Some ((d, members ∪ {[son]}) :: cl')
      else cl'' ← attach_son father son cl'; Some ((d, members) :: cl'')
  end.

(** The loop of the [else] branch: every sub-cluster that contains [son]
    receives [father]. *)
Definition attach_father (father son : string) (cl : subclusters) : subclusters :=
  (λ '(d, members),
     if decide (son ∈ members) then (d, members ∪ {[father]}) else (d, members))
  <$> cl.

Definition populate (father son : string) (cl : subclusters) : subclusters :=
  match attach_son father son cl with
  | Some cl' => cl'
  | None => attach_father father son cl
  end.

(** The block under [if int(cluster_id) != previous_cluster_id]. *)
Definition start_cluster (global_seeds_set : gset string) (st : struct_state)
    (father : string) (cluster_id : Z) : struct_state :=
  let flagged := bool_decide (father ∈ global_seeds_set) in
  {| number_of_seeds := number_of_seeds st;
     previous_cluster_id := cluster_id;
     clusters := if flagged then [(father, {[father]})] else [];
     new_clusters := match clusters st with
                     | [] => new_clusters st
                     | _ => new_clusters st ++ [clusters st]
                     end;
     has_a_local_seed := Some flagged |}.

Definition struct_line (seeds : shards Z) (global_seeds_set : gset string)
    (st : struct_state) (line : string) : result (flow struct_state) :=
  let line := Py.strip line in
  '(father, son, diffs, cluster_id, steps) ← Py.unpack5 (Py.split Py.tab line);
  id ← Py.int 10 cluster_id;
  let st := if decide (id ≠ previous_cluster_id st)
            then start_cluster global_seeds_set st father id else st in
  if number_of_seeds st =? 0 then Ok (Break st)
  else match has_a_local_seed st with
       | None => Raise UnboundLocalError
       | Some false => Ok (Next st)
       | Some true =>
           index ← shard_of son;
           d ← Py.index seeds index;
           match d !! son with
           | Some _ =>
               Ok (Next {| number_of_seeds := number_of_seeds st - 1;
                           previous_cluster_id := previous_cluster_id st;
                           clusters := dict_set (clusters st) son {[son]};
                           new_clusters := new_clusters st;
                           has_a_local_seed := has_a_local_seed st |})
           | None =>
               Ok (Next {| number_of_seeds := number_of_seeds st;
                           previous_cluster_id := previous_cluster_id st;
                           clusters := populate father son (clusters st);
                           new_clusters := new_clusters st;
                           has_a_local_seed := has_a_local_seed st |})
           end
       end.

(** [sum([len(d) for d in seeds])] *)
Definition count_seeds (seeds : shards Z) : Z :=
  foldr (λ d n, Z.of_nat (size d) + n) 0 seeds.

Definition struct_init (seeds : shards Z) : struct_state :=
  {| number_of_seeds := count_seeds seeds;
     previous_cluster_id := 0;
     clusters := [];
     new_clusters := [];
     has_a_local_seed := None |}.

Definition struct_parse (struct_file : list string) (seeds : shards Z)
    (global_seeds : shards string) : result (list subclusters) :=
  st ← for_each (struct_line seeds (values_of global_seeds))
         (struct_init seeds) struct_file;
  Ok (new_clusters st).

(** ** Sorting

    [list.sort] is stable: elements with equal keys keep their order, also
    with [reverse=True].  Insertion from the right is the stable sort for
    the order [le]. *)

Fixpoint insert_sorted {A} (le : A → A → bool) (x : A) (l : list A) : list A :=
  match l with
  | [] => [x]
  | y :: l' => if le x y then x :: l else y :: insert_sorted le x l'
  end.

Definition stable_sort {A} (le : A → A → bool) (l : list A) : list A :=
  foldr (insert_sorted le) [] l.

(** ** [add_abundance_values] *)

Abbreviation swarm := (list (string * Z)) (only parsing).

(** The key [lambda x: (-x[1], x[0])]: tuples are compared component by
    component. *)
Definition swarm_le (x y : string * Z) : bool :=
  (- x.2 <? - y.2) || ((- x.2 =? - y.2) && String.leb x.1 y.1).

(** A value of a dictionary of [new_clusters_with_abundance]: the deep copy
    holds sets, which the loop replaces by sorted lists. *)
Inductive entry : Type :=
  | Members (s : gset string)
  | Swarm (l : swarm).

(** [swarms[index][amplicon]] *)
Definition abundance_of (swarms : shards Z) (amplicon : string) : result Z :=
  index ← shard_of amplicon;
  d ← Py.index swarms index;
  match d !! amplicon with
  | Some n => Ok n
  | None => Raise KeyError
  end.

(** The loop [for amplicon in super_cluster[cluster]] that fills [swarm]. *)
Fixpoint with_abundance (swarms : shards Z) (amplicons : list string)
  : result swarm :=
  match amplicons with
  | [] => Ok []
  | amplicon :: rest =>
      n ← abundance_of swarms amplicon;
      l ← with_abundance swarms rest;
      Ok ((amplicon, n) :: l)
  end.

Section set_iteration.

Variable iter : gset string → list string.

(** The body of [for cluster in super_cluster]; [copy] is
    [new_clusters_with_abundance[i]]. *)
Definition finalize (swarms : shards Z) (copy : dict entry)
    (item : string * gset string) : result (flow (dict entry)) :=
  let '(cluster, members) := item in
  l ← with_abundance swarms (iter members);
  let l := stable_sort swarm_le l in
  first ← Py.index l 0;
  let seed := first.1 in
  if decide (seed ≠ cluster) then
    copy' ← dict_del copy cluster;
    Ok (Next (dict_set copy' seed (Swarm l)))
  else Ok (Next (dict_set copy cluster (Swarm l))).

(** One round of [for i, super_cluster in enumerate(new_clusters)]: only
    [new_clusters_with_abundance[i]] is read and written. *)
Definition finalize_cluster (swarms : shards Z) (super_cluster : subclusters)
  : result (dict entry) :=
  for_each (finalize swarms) (prod_map id Members <$> super_cluster) super_cluster.

Fixpoint add_abundance_values (new_clusters : list subclusters)
    (swarms : shards Z) : result (list (dict entry)) :=
  match new_clusters with
  | [] => Ok []
  | super_cluster :: rest =>
      c ← finalize_cluster swarms super_cluster;
      cs ← add_abundance_values rest swarms;
      Ok (c :: cs)
  end.

End set_iteration.

(** ** [per_cluster_stats] *)

(** A record of the statistics file; columns 6 and 7 are the constant
    ["0"]. *)
Record stat : Type := {
  uniques : Z;
  total_abundance : Z;
  seed_label : string;
  seed_abundance : Z;
  singletons : Z
}.

(** The loop [for amplicon, abundance in super_cluster[cluster]]; the
    state is [(total_abundance, singletons)]. *)
Definition tally (l : swarm) : Z * Z :=
  foldl (λ '(total, ones) '(amplicon, abundance),
           (total + abundance, if abundance =? 1 then ones + 1 else ones))
        (0, 0) l.

Definition stat_of (item : string * entry) : result stat :=
  match item with
  | (cluster, Swarm l) =>
      first ← Py.index l 0;
      let '(total, ones) := tally l in
      Ok {| uniques := Z.of_nat (length l);
            total_abundance := total;
            seed_label := cluster;
            seed_abundance := first.2;
            singletons := ones |}
  | (_, Members _) => Raise TypeError
  end.

Fixpoint stats_of (items : list (string * entry)) : result (list stat) :=
  match items with
  | [] => Ok []
  | item :: rest => s ← stat_of item; l ← stats_of rest; Ok (s :: l)
  end.

(** [key=operator.itemgetter(2)] *)
Definition by_label (x y : stat) : bool := String.leb (seed_label x) (seed_label y).

(** [key=operator.itemgetter(1, 0), reverse=True] *)
Definition by_size_reversed (x y : stat) : bool :=
  (total_abundance y <? total_abundance x)
  || ((total_abundance y =? total_abundance x) && (uniques y <=? uniques x)).

(** The line that [print] writes for a record: its fields separated by
    tabs. *)
Definition stat_line (t : stat) : string :=
  String.concat (String Py.tab "")
    [Py.str (uniques t); Py.str (total_abundance t); seed_label t;
     Py.str (seed_abundance t); Py.str (singletons t); "0"; "0"].

(** The sorted records, which the function writes to the statistics file
    and returns. *)
Definition per_cluster_stats (new_clusters_with_abundance : list (dict entry))
  : result (list stat) :=
  new_stats ← stats_of (concat new_clusters_with_abundance);
  Ok (stable_sort by_size_reversed (stable_sort by_label new_stats)).

(** ** [per_cluster_swarms] *)

(** [t[0] + ";size=" + str(t[1])] for a tuple [t] *)
Definition token (t : string * Z) : string :=
  (t.1 ++ ";size=" ++ Py.str t.2)%string.

(** the same expression when [t] is a string *)
Definition token_of_string (t : string) : result string :=
  match t with
  | String a (String b _) => Ok (String a ";size=" ++ String b "")%string
  | _ => Raise IndexError
  end.

Fixpoint tokens_of_strings (l : list string) : result (list string) :=
  match l with
  | [] => Ok []
  | t :: rest => x ← token_of_string t; xs ← tokens_of_strings rest; Ok (x :: xs)
  end.

Section set_iteration.

Variable iter : gset string → list string.

Definition swarm_line (item : string * entry) : result string :=
  match item.2 with
  | Swarm l => Ok (String.concat " " (token <$> l))
  | Members s => xs ← tokens_of_strings (iter s); Ok (String.concat " " xs)
  end.

(** The lines written to the membership file, and how the loop ended. *)
Fixpoint swarm_lines (items : list (string * entry))
  : list string * result unit :=
  match items with
  | [] => ([], Ok ())
  | item :: rest =>
      match swarm_line item with
      | Ok x => let '(xs, r) := swarm_lines rest in (x :: xs, r)
      | Raise e => ([], Raise e)
      end
  end.

Definition per_cluster_swarms (new_clusters_with_abundance : list (dict entry))
  : list string * result unit :=
  swarm_lines (concat new_clusters_with_abundance).

End set_iteration.

(** ** [fasta_parse] *)

(** [s.strip(chars)] *)
Fixpoint lstrip_chars (chars : list ascii) (s : string) : string :=
  match s with
  | String c s' => if bool_decide (c ∈ chars) then lstrip_chars chars s' else s
  | EmptyString => EmptyString
  end.

Fixpoint rstrip_chars (chars : list ascii) (s : string) : string :=
  match s with
  | EmptyString => EmptyString
  | String c s' =>
      match rstrip_chars chars s' with
      | EmptyString =>
          if bool_decide (c ∈ chars) then EmptyString else String c EmptyString
      | r => String c r
      end
  end.

Definition strip_chars (chars : list ascii) (s : string) : string :=
  rstrip_chars chars (lstrip_chars chars s).

(** [s.split(sep)] for a separator [sep] of [S n] characters; [skip] counts
    the characters of the current separator still to be dropped. *)
Fixpoint split_str_go (sep : string) (n : nat) (skip : nat) (s : string)
  : list string :=
  match s with
  | EmptyString => [EmptyString]
  | String c s' =>
      match skip with
      | S k => split_str_go sep n k s'
      | O =>
          if String.prefix sep s then EmptyString :: split_str_go sep n n s'
          else match split_str_go sep n O s' with
               | f :: fs => String c f :: fs
               | [] => [String c EmptyString]
               end
      end
  end.

Definition size_separator : string := ";size=".

Definition split_size (s : string) : list string :=
  split_str_go size_separator 5 0 s.

Definition newline : ascii := ascii_of_nat 10.

(** A value of [fasta]: the list that starts with the total abundance and
    receives the sequence lines. *)
Record fasta_state : Type := {
  fasta : shards (Z * list string);
  current : option (string * Z)   (* [amplicon] and [index], once assigned *)
}.

(** [fasta[index][t[2]] = [t[1]]] *)
Definition fasta_target (fasta : shards (Z * list string)) (t : stat)
  : result (flow (shards (Z * list string))) :=
  index ← shard_of (seed_label t);
  d ← Py.index fasta index;
  fasta' ← Py.set_index fasta index (<[seed_label t := (total_abundance t, [])]> d);
  Ok (Next fasta').

(** [min(l)] *)
Definition minimum (l : list Z) : result Z :=
  match l with
  | [] => Raise ValueError
  | x :: l' => Ok (foldl Z.min x l')
  end.

Definition fasta_line (min_abundance : Z) (st : fasta_state) (line : string)
  : result (flow fasta_state) :=
  if String.prefix ">" line then
    match split_size (strip_chars [">"%char; ";"%char; newline] line) with
    | [amplicon; abundance] =>
        index ← shard_of amplicon;
        n ← Py.int 10 abundance;
        let st' := {| fasta := fasta st; current := Some (amplicon, index) |} in
        if n <? min_abundance then Ok (Break st') else Ok (Next st')
    | _ => Raise ValueError
    end
  else
    match current st with
    | None => Raise UnboundLocalError
    | Some (amplicon, index) =>
        d ← Py.index (fasta st) index;
        match d !! amplicon with
        | Some (total, sequences) =>
            fasta' ← Py.set_index (fasta st) index
                       (<[amplicon := (total, (sequences ++ [Py.strip line])%list)]> d);
            Ok (Next {| fasta := fasta'; current := current st |})
        | None => Ok (Next st)
        end
    end.

(** The loop that writes the representatives: the lines written, and how
    the loop ended. *)
Fixpoint write_representatives (fasta : shards (Z * list string))
    (new_stats : list stat) : list string * result unit :=
  match new_stats with
  | [] => ([], Ok ())
  | t :: rest =>
      let amplicon := seed_label t in
      match (index ← shard_of amplicon; d ← Py.index fasta index;
             match d !! amplicon with
             | Some v => Ok v
             | None => Raise KeyError
             end) with
      | Raise e => ([], Raise e)
      | Ok (abundance, [sequence]) =>
          let '(lines, r) := write_representatives fasta rest in
          ((String ">" amplicon ++ size_separator ++ Py.str abundance)%string
             :: sequence :: lines, r)
      | Ok _ => ([], Raise (SystemExit (-1)))
      end
  end.

(** The result is [None] when the function stops before it opens the
    output file. *)
Definition fasta_parse (fasta_file : list string) (new_stats : list stat)
  : option (list string) * result unit :=
  match (fasta ← for_each fasta_target new_shards new_stats;
         min_abundance ← minimum (seed_abundance <$> new_stats);
         for_each (fasta_line min_abundance)
           {| fasta := fasta; current := None |} fasta_file) with
  | Raise e => (None, Raise e)
  | Ok st =>
      let '(lines, r) := write_representatives (fasta st) new_stats in
      (Some lines, r)
  end.

(** ** [main] *)

Record files : Type := {
  global_stats_file : list string;
  per_sample_stats_file : list string;
  struct_file : list string;
  swarms_file : list string;
  fasta_file : list string
}.

(** What a run leaves behind: the three output files, [None] for a file
    that was not opened, and the way the run ended. *)
Record run : Type := {
  new_stats_file : option (list string);
  new_swarms_file : option (list string);
  new_representatives_file : option (list string);
  outcome : result unit
}.

Definition PERCENTAGE : F64.t := F64.five_percent.

Section set_iteration.

Variable iter : gset string → list string.

(** The part of [main] that writes no file. *)
Definition cleave (input : files) : result (list (dict entry)) :=
  '(threshold, seeds) ← per_sample_stats_parse (per_sample_stats_file input) PERCENTAGE;
  seeds ← stats_parse (global_stats_file input) threshold seeds;
  '(swarms, global_seeds) ← swarms_parse iter (swarms_file input) seeds;
  new_clusters ← struct_parse (struct_file input) seeds global_seeds;
  add_abundance_values iter new_clusters swarms.

Definition main (input : files) : run :=
  match (c ← cleave input; s ← per_cluster_stats c; Ok (c, s)) with
  | Raise e =>
      {| new_stats_file := None; new_swarms_file := None;
         new_representatives_file := None; outcome := Raise e |}
  | Ok (new_clusters_with_abundance, new_stats) =>
      let stats_lines := stat_line <$> new_stats in
      match per_cluster_swarms iter new_clusters_with_abundance with
      | (swarms_lines, Raise e) =>
          {| new_stats_file := Some stats_lines;
             new_swarms_file := Some swarms_lines;
             new_representatives_file := None; outcome := Raise e |}
      | (swarms_lines, Ok _) =>
          let '(representatives, r) := fasta_parse (fasta_file input) new_stats in
          {| new_stats_file := Some stats_lines;
             new_swarms_file := Some swarms_lines;
             new_representatives_file := representatives; outcome := r |}
      end
  end.

End set_iteration.

(** ** Decidable equality

    Equations between results of a run on given files are decided by
    computation. *)

#[global] Instance exn_eq_dec : EqDecision exn.
Proof. solve_decision. Defined.
#[global] Instance result_eq_dec {A} `{EqDecision A} : EqDecision (result A).
Proof. solve_decision. Defined.
#[global] Instance flow_eq_dec {S} `{EqDecision S} : EqDecision (flow S).
Proof. solve_decision. Defined.
#[global] Instance float_eq_dec : EqDecision F64.t.
Proof. solve_decision. Defined.
#[global] Instance entry_eq_dec : EqDecision entry.
Proof. solve_decision. Defined.
#[global] Instance stat_eq_dec : EqDecision stat.
Proof. solve_decision. Defined.
#[global] Instance sample_state_eq_dec : EqDecision sample_state.
Proof. solve_decision. Defined.
#[global] Instance swarms_state_eq_dec : EqDecision swarms_state.
Proof. solve_decision. Defined.
#[global] Instance struct_state_eq_dec : EqDecision struct_state.
Proof. solve_decision. Defined.
#[global] Instance run_eq_dec : EqDecision run.
Proof. solve_decision. Defined.

(** Proves a decidable closed statement by evaluating its decision. *)
Ltac by_compute := apply (bool_decide_unpack _); vm_compute; exact I.

(** ** Notions used to state the properties *)

(** The fields that the parsers read on a line of a tab-separated file:
    the line is stripped of the white space around it, then split at the
    tabs. *)
Definition fields (line : string) : list string :=
  Py.split Py.tab (Py.strip line).

(** The tab-separated fields of a line as it stands in the file, its line
    end included. *)
Definition tab_separated (line : string) : list string :=
  Py.split Py.tab line.

(** The place of index [i] in a list of [n] elements. *)
Definition slot (n : nat) (i : Z) : option nat :=
  let j := if i <? 0 then i + Z.of_nat n else i in
  if (0 <=? j) && (j <? Z.of_nat n) then Some (Z.to_nat j) else None.

(** [key in sh[int(key[0:2], 16)]] with the value found. *)
Definition shard_lookup {V} (sh : shards V) (key : string) : option V :=
  match shard_of key with
  | Ok i => (j ← slot (length sh) i; d ← sh !! j; d !! key)
  | Raise _ => None
  end.

(** Every key is in the dictionary that its prefix designates. *)
Definition well_sharded {V} (sh : shards V) : Prop :=
  length sh = 256%nat ∧
  ∀ j d key, sh !! j = Some d → is_Some (d !! key) →
             ∃ i, shard_of key = Ok i ∧ slot 256 i = Some j.

(** *** Per-sample statistics *)

Definition sample_of (line : string) : option string := fields line !! 0%nat.
Definition seed_of (line : string) : option string := fields line !! 3%nat.

(** A record that the parser of the per-sample statistics rejects: it has
    fewer than five fields, or the prefix of its seed is no hexadecimal
    number. *)
Definition rejected (line : string) : Prop :=
  (length (fields line) < 5)%nat
  ∨ ∃ seed, seed_of line = Some seed ∧ is_raise (shard_of seed).

(** The run that stops in the first stage: no file is written. *)
Definition aborted (e : exn) : run :=
  {| new_stats_file := None;
     new_swarms_file := None;
     new_representatives_file := None;
     outcome := Raise e |}.

(** The value stored for a key that occurred [n] times. *)
Definition counted (n : Z) : option Z := if 0 <? n then Some n else None.

(** The number of records that name [amplicon] as their seed. *)
Definition occurrences (amplicon : string) (file : list string) : Z :=
  Z.of_nat (length (filter (λ line, seed_of line = Some amplicon) file)).

(** The samples in which [amplicon] is a seed. *)
Definition samples_with (amplicon : string) (file : list string) : gset string :=
  list_to_set (omap sample_of (filter (λ line, seed_of line = Some amplicon) file)).

(** No two records have the same sample and the same seed: a record is one
    (sample, cluster) observation. *)
Definition one_record_per_observation (file : list string) : Prop :=
  NoDup ((λ line, (sample_of line, seed_of line)) <$> file).

(** The number of times the sample changes from one record to the next,
    counting the first record. *)
Fixpoint sample_changes (previous : option string) (samples : list (option string)) : Z :=
  match samples with
  | [] => 0
  | s :: rest =>
      (if decide (s ≠ previous) then 1 else 0) + sample_changes s rest
  end.

Definition samples_counted (file : list string) : Z :=
  sample_changes None (sample_of <$> file).

(** The least integer that is at least five hundredths of [n]. *)
Definition ceil_five_percent (n : Z) : Z := (5 * n + 99) / 100.

(** The samples named by the records of a file. *)
Definition samples_of (file : list string) : gset string :=
  list_to_set (omap sample_of file).

(** Equal elements of a list follow one another. *)
Definition grouped {A} (l : list A) : Prop :=
  ∀ i j k x, (i ≤ j)%nat → (j ≤ k)%nat →
    l !! i = Some x → l !! k = Some x → l !! j = Some x.

(** The sample changes only at the boundary between two samples. *)
Definition samples_grouped (file : list string) : Prop :=
  grouped (sample_of <$> file).

(** *** Global statistics *)

(** The seed abundance of the records of a file strictly decreases. *)
Definition seed_abundance_of (line : string) : result Z :=
  match fields line !! 3%nat with
  | Some f => Py.int 10 f
  | None => Raise ValueError
  end.

Definition strictly_decreasing (file : list string) : Prop :=
  ∃ abundances : list Z,
    Forall2 (λ line a, seed_abundance_of line = Ok a) file abundances
    ∧ Sorted Z.gt abundances.

Definition global_seed_of (line : string) : option string := fields line !! 2%nat.

(** The scan of the specification that reads every record: [stats_line]
    without its [break]. *)
Definition stats_line_full (threshold : F64.t) (seeds : shards Z) (line : string)
  : result (flow (shards Z)) :=
  let line := Py.split Py.tab (Py.strip line) in
  '(cloud, mass, seed, seed_abundance, singletons) ← Py.unpack5 (take 5 line);
  abundance ← Py.int 10 seed_abundance;
  check ← may_host_secondary_seed threshold cloud mass singletons;
  if check : bool then seeds' ← eliminate seeds seed; Ok (Next seeds')
  else Ok (Next seeds).

Definition stats_parse_full (global_stats_file : list string) (threshold : F64.t)
    (seeds : shards Z) : result (shards Z) :=
  for_each (stats_line_full threshold) seeds global_stats_file.

(** *** Merge log *)

(** [line] is the record of the edge from [edge.1] to its son [edge.2] in
    the cluster [id]. *)
Definition edge_line (id : Z) (line : string) (edge : string * string) : Prop :=
  ∃ diffs cluster_id steps,
    fields line = [edge.1; edge.2; diffs; cluster_id; steps]
    ∧ Py.int 10 cluster_id = Ok id.

(** [son in seeds[index]] *)
Definition is_candidate (seeds : shards Z) (amplicon : string) : bool :=
  bool_decide (is_Some (shard_lookup seeds amplicon)).

(** The amplicons that a list of edges names. *)
Definition named (edges : list (string * string)) : list string :=
  flat_map (λ edge, [edge.1; edge.2]) edges.

(** The edges of a cluster join one amplicon at a time to the amplicons
    [known], those named before: an edge links a new son to a known father,
    or a new father, an orphan, to a known son that is no candidate. *)
Fixpoint grafted (seeds : list (gmap string Z)) (known : list string)
    (edges : list (string * string)) : Prop :=
  match edges with
  | [] => True
  | (father, son) :: rest =>
      ((father ∈ known ∧ (son ∉ known))
       ∨ ((father ∉ known) ∧ son ∈ known ∧ is_candidate seeds son = false))
      ∧ grafted seeds (known ++ [father; son]) rest
  end.

(** The number of sub-clusters of [cl] that contain [amplicon]. *)
Definition holders (amplicon : string) (cl : subclusters) : nat :=
  length (filter (λ entry, amplicon ∈ entry.2) cl).

(** *** Order of the members of a sub-cluster *)

(** Decreasing abundance, then increasing identifier. *)
Definition precedes (x y : string * Z) : Prop :=
  y.2 < x.2 ∨ (x.2 = y.2 ∧ String.ltb x.1 y.1 = true).

(** Decreasing total abundance, then decreasing number of amplicons, then
    increasing seed. *)
Definition stat_precedes (x y : stat) : Prop :=
  total_abundance y < total_abundance x
  ∨ (total_abundance x = total_abundance y
     ∧ (uniques y < uniques x
        ∨ (uniques x = uniques y ∧ String.leb (seed_label x) (seed_label y) = true))).

(** A dictionary has one entry per key. *)
Definition dict_ok {V} (d : dict V) : Prop := NoDup d.*1.

(** What one can observe of a run: the files it wrote and its exit
    status. *)
Definition observable (r : run) :=
  (new_stats_file r, new_swarms_file r, new_representatives_file r,
   exit_status (outcome r)).

(** The state with which the body of a loop ends. *)
Definition flow_state {S} (f : flow S) : S :=
  match f with Next s | Break s => s end.

(** Every root is a member of its sub-cluster. *)
Definition rooted (cl : subclusters) : Prop :=
  ∀ root members, (root, members) ∈ cl → root ∈ members.

(** The state of the scan inside the flagged cluster [id] of seed [g],
    after the edges [seen]. *)
Definition within (seeds : list (gmap string Z)) (id : Z) (g : string)
    (seen : list (string * string)) (st : struct_state) : Prop :=
  previous_cluster_id st = id
  ∧ has_a_local_seed st = Some true
  ∧ rooted (clusters st)
  ∧ (clusters st).*1 = g :: filter (λ a, is_candidate seeds a = true) seen.*2
  ∧ ∀ a, holders a (clusters st) = if decide (a ∈ g :: named seen) then 1%nat else 0%nat.

(** An exception other than [SystemExit]: left uncaught, it ends the
    process with status 1. *)
Definition plain (e : exn) : Prop :=
  match e with SystemExit _ => False | _ => True end.

(** Two results that a run cannot tell apart by its files and its exit
    status: the same result, or two such exceptions. *)
Definition similar {A} (r1 r2 : result A) : Prop :=
  r1 = r2 ∨ ∃ e1 e2, r1 = Raise e1 ∧ r2 = Raise e2 ∧ plain e1 ∧ plain e2.

(** The sorted list of a sub-cluster of [super_cluster] stored under its
    first amplicon [key]. *)
Definition elected (iter : gset string → list string) (swarms : shards Z)
    (super_cluster : subclusters) (key : string) (l : swarm) : Prop :=
  ∃ cluster members l0,
    (cluster, members) ∈ super_cluster
    ∧ with_abundance swarms (iter members) = Ok l0
    ∧ l = stable_sort swarm_le l0
    ∧ head l.*1 = Some key.

(** The order in which a run visits a set is a permutation of its
    elements. *)
Definition iteration_order (iter : gset string → list string) : Prop :=
  ∀ s, iter s ≡ₚ elements s.

(** ** Example inputs *)

(** A line of a tab-separated file. *)
Definition row (l : list string) : string :=
  (String.concat (String Py.tab "") l ++ String newline "")%string.

(** The cluster of the end-to-end example: amplicons A (100 reads), B (40),
    C (40), D (5) and E (1); B is a seed in both samples. *)
Definition example : files :=
  {| per_sample_stats_file :=
       [row ["s1"; "3"; "106"; "A"; "100"]; row ["s1"; "2"; "80"; "B"; "40"];
        row ["s2"; "2"; "80"; "B"; "40"]];
     global_stats_file := [row ["5"; "186"; "A"; "100"; "1"; "2"; "2"]];
     swarms_file := [row ["A_100 B_40 C_40 D_5 E_1"]];
     struct_file :=
       [row ["A"; "B"; "1"; "1"; "1"]; row ["B"; "C"; "1"; "1"; "2"];
        row ["A"; "D"; "1"; "1"; "1"]; row ["D"; "E"; "1"; "1"; "2"]];
     fasta_file :=
       [row [">A;size=100;"]; row ["ACGT"]; row [">B;size=40;"]; row ["ACGA"];
        row [">C;size=40;"]; row ["ACGG"]; row [">D;size=5;"]; row ["TCGT"];
        row [">E;size=1;"]; row ["TCGA"]] |}.

(** The same cluster followed by two more: a cluster of two singletons
    named zz and yy, and a cluster with seed 1a (30 reads) and the
    candidate 1b (10). *)
Definition example_followed : files :=
  {| per_sample_stats_file :=
       [row ["s1"; "3"; "106"; "A"; "100"]; row ["s1"; "2"; "80"; "B"; "40"];
        row ["s1"; "1"; "10"; "1b"; "10"];
        row ["s2"; "2"; "80"; "B"; "40"]; row ["s2"; "2"; "40"; "1b"; "10"]];
     global_stats_file :=
       [row ["5"; "186"; "A"; "100"; "1"; "2"; "2"];
        row ["2"; "40"; "1a"; "30"; "0"; "1"; "1"];
        row ["2"; "2"; "zz"; "1"; "2"; "1"; "1"]];
     swarms_file :=
       [row ["A_100 B_40 C_40 D_5 E_1"]; row ["zz_1 yy_1"]; row ["1a_30 1b_10"]];
     struct_file :=
       [row ["A"; "B"; "1"; "1"; "1"]; row ["B"; "C"; "1"; "1"; "2"];
        row ["A"; "D"; "1"; "1"; "1"]; row ["D"; "E"; "1"; "1"; "2"];
        row ["zz"; "yy"; "1"; "2"; "1"];
        row ["1a"; "1b"; "1"; "3"; "1"]];
     fasta_file :=
       [row [">A;size=100;"]; row ["ACGT"]; row [">B;size=40;"]; row ["ACGA"];
        row [">C;size=40;"]; row ["ACGG"]; row [">1a;size=30;"]; row ["GGGT"];
        row [">1b;size=10;"]; row ["GGGA"]; row [">D;size=5;"]; row ["TCGT"];
        row [">E;size=1;"]; row ["TCGA"]; row [">zz;size=1;"]; row ["CCCC"]] |}.

(** A sharded dictionary with the given entries. *)
Definition shards_of_list {V} (l : list (string * V)) : shards V :=
  foldl (λ sh '(k, v),
           match (i ← shard_of k; d ← Py.index sh i;
                  Py.set_index sh i (<[k := v]> d)) with
           | Ok sh' => sh'
           | Raise _ => sh
           end) new_shards l.

(** The candidates of [example_followed] and their global seeds, as the
    first stages of the run compute them. *)
Definition followed_seeds : shards Z := shards_of_list [("B", 2); ("1b", 2)].
Definition followed_global_seeds : shards string :=
  shards_of_list [("B", "A"); ("1b", "1a")].

(** An abundance index with 10 reads for aa and for bb. *)
Definition tied_swarms : shards Z := shards_of_list [("aa", 10); ("bb", 10)].

(** The candidates of [example] and their global seeds, as the first
    stages of the run compute them. *)
Definition example_seeds : shards Z := shards_of_list [("B", 2)].
Definition example_global_seeds : shards string := shards_of_list [("B", "A")].

(** Global statistics with one cluster, of seed aa with 4 reads, and the
    threshold of a run on 100 samples for which aa is a candidate. *)
Definition low_seed_stats : list string := [row ["2"; "100"; "aa"; "4"; "0"; "1"; "1"]].
Definition low_seed_threshold : F64.t := F64.mul F64.five_percent (F64.Fin 100 0).
Definition low_seed_candidates : shards Z := shards_of_list [("aa", 5)].

(** A merge log in which the second edge of the first cluster names two
    amplicons that no sub-cluster contains. *)
Definition log_with_loose_edge : list string :=
  [row ["aa"; "bb"; "1"; "1"; "1"]; row ["cc"; "dd"; "1"; "1"; "2"];
   row ["1a"; "1b"; "1"; "2"; "1"]].

Definition loose_seeds : shards Z := shards_of_list [("bb", 2); ("1b", 2)].
Definition loose_global_seeds : shards string :=
  shards_of_list [("bb", "aa"); ("1b", "1a")].

(** A merge log with an orphan: the father ff of the third record is in
    no sub-cluster when the record is read, its son cc is. *)
Definition log_with_orphan : list string :=
  [row ["aa"; "bb"; "1"; "1"; "1"]; row ["aa"; "cc"; "1"; "1"; "1"];
   row ["ff"; "cc"; "1"; "1"; "2"]; row ["1a"; "1b"; "1"; "2"; "1"]].


(** *** Loops that read a whole list *)

(** The state in which a loop goes on after the elements of [l], when it
    reads them all: no [break] and no exception on the way. *)
Fixpoint runs_through {S A} (body : S → A → result (flow S)) (st : S) (l : list A)
  : option S :=
  match l with
  | [] => Some st
  | x :: l' =>
      match body st x with
      | Ok (Next st') => runs_through body st' l'
      | _ => None
      end
  end.

(** *** Membership file *)

(** The lists [amplicons] and [abundances] that [swarms_parse] reads from a
    line. *)
Definition amplicons_of (line : string) : list string :=
  evens (Re.split (Py.strip line)).
Definition abundances_of (line : string) : list string :=
  odds (Re.split (Py.strip line)).

(** A text without underscore, semicolon and white space: the separator of
    the membership file matches nowhere in it. *)
Fixpoint unbroken (s : string) : bool :=
  match s with
  | EmptyString => true
  | String c s' =>
      negb (Ascii.eqb c "_" || Ascii.eqb c ";" || Py.isspace c) && unbroken s'
  end.

(** An amplicon with its abundance annotation, and what separates it from
    the next one. *)
Record annotated : Type := {
  amplicon_text : string;
  inner : string;        (* between the amplicon and its abundance *)
  abundance_text : string;
  outer : string         (* before the next amplicon *)
}.

Definition well_annotated (t : annotated) : Prop :=
  unbroken (amplicon_text t) = true
  ∧ (inner t = "_" ∨ inner t = ";size=")
  ∧ unbroken (abundance_text t) = true
  ∧ (outer t = " " ∨ outer t = "; ").

(** The text of a line that lists the amplicons [tokens]; nothing follows
    the last abundance. *)
Fixpoint membership (tokens : list annotated) : string :=
  match tokens with
  | [] => ""
  | [t] => amplicon_text t +:+ inner t +:+ abundance_text t
  | t :: rest =>
      amplicon_text t +:+ inner t +:+ abundance_text t +:+ outer t +:+ membership rest
  end.

(** The state in which [swarms_parse] starts. *)
Definition swarms_init (seeds : shards Z) : swarms_state :=
  {| swarms := new_shards;
     global_seeds := new_shards;
     seeds_to_find := Z.of_nat (size (keys_of seeds)) |}.

(** *** Emitted sub-clusters *)

(** The sub-clusters of a flagged cluster: the first is rooted at the
    global seed of the cluster, the others at candidates; no two have the
    same root, and every root is a member of its sub-cluster. *)
Definition carved (seeds : shards Z) (global_seeds_set : gset string)
    (cl : subclusters) : Prop :=
  dict_ok cl ∧ rooted cl
  ∧ ∃ g members rest,
      cl = (g, members) :: rest
      ∧ g ∈ global_seeds_set
      ∧ Forall (λ root, is_candidate seeds root = true) rest.*1.

(** *** Statistics of a sub-cluster *)

(** The sum of the values of [f] over a list. *)
Definition total {A} (f : A → Z) (l : list A) : Z :=
  foldr (λ x n, f x + n) 0 l.

(** The reads of the amplicons of a list, and the number of its amplicons
    with one read. *)
Definition reads (l : swarm) : Z := total snd l.
Definition singletons_in (l : swarm) : Z :=
  Z.of_nat (length (filter (λ p, p.2 = 1) l)).

(** [s] is the record of the sub-cluster [item]. *)
Definition summarises (item : string * entry) (s : stat) : Prop :=
  ∃ l first,
    item.2 = Swarm l
    ∧ head l = Some first
    ∧ uniques s = Z.of_nat (length l)
    ∧ total_abundance s = reads l
    ∧ seed_label s = item.1
    ∧ seed_abundance s = first.2
    ∧ singletons s = singletons_in l.

(** The reads and the amplicons of an emitted sub-cluster. *)
Definition reads_of (item : string * entry) : Z :=
  match item.2 with Swarm l => reads l | Members _ => 0 end.
Definition amplicons_in (item : string * entry) : Z :=
  match item.2 with Swarm l => Z.of_nat (length l) | Members s => Z.of_nat (size s) end.

(** The token that [per_cluster_swarms] writes for an amplicon, as an
    annotated amplicon. *)
Definition written (t : string * Z) : annotated :=
  {| amplicon_text := t.1; inner := ";size="; abundance_text := Py.str t.2;
     outer := " " |}.

(** *** Sequences *)

(** A record of the sequence file: the header [>name;size=abundance],
    which semicolons and a line end may follow, and the lines of the
    sequence. *)
Record fasta_record : Type := {
  fasta_name : string;
  fasta_size : Z;
  fasta_tail : string;
  fasta_sequence : list string
}.

Definition header_of (r : fasta_record) : string :=
  ">" +:+ fasta_name r +:+ ";size=" +:+ Py.str (fasta_size r) +:+ fasta_tail r.

Definition lines_of (r : fasta_record) : list string :=
  header_of r :: fasta_sequence r.

(** All the characters of [s] are among [chars]. *)
Fixpoint made_of (chars : list ascii) (s : string) : bool :=
  match s with
  | EmptyString => true
  | String c s' => bool_decide (c ∈ chars) && made_of chars s'
  end.

Definition well_formed_record (r : fasta_record) : Prop :=
  unbroken (fasta_name r) = true
  ∧ fasta_name r ≠ ""
  ∧ String.prefix ">" (fasta_name r) = false
  ∧ is_ok (shard_of (fasta_name r))
  ∧ made_of [";"%char; newline] (fasta_tail r) = true
  ∧ Forall (λ line, String.prefix ">" line = false) (fasta_sequence r).

(** The sequence lines that the file holds for [label], stripped. *)
Definition sequences_of (records : list fasta_record) (label : string) : list string :=
  concat ((λ r, Py.strip <$> fasta_sequence r)
            <$> filter (λ r, fasta_name r = label) records).

(** The two lines written for the seed of [t]: its header with the total
    abundance of its sub-cluster, and its sequence. *)
Definition representative (records : list fasta_record) (t : stat) : list string :=
  match sequences_of records (seed_label t) with
  | [sequence] =>
      [">" +:+ seed_label t +:+ ";size=" +:+ Py.str (total_abundance t); sequence]
  | _ => []
  end.

(** * Properties *)
(** ** Results and loops *)

Lemma bind_Ok {A B} (m : result A) (f : A → result B) (b : B) :
  m ≫= f = Ok b ↔ ∃ a, m = Ok a ∧ f a = Ok b.
Proof.
  destruct m as [a|e]; simpl.
  - split; [eauto | intros (? & [= <-] & ?); done].
  - split; [done | intros (? & ? & ?); done].
Qed.

Lemma bind_Raise {A B} (m : result A) (f : A → result B) (e : exn) :
  m ≫= f = Raise e ↔ m = Raise e ∨ ∃ a, m = Ok a ∧ f a = Raise e.
Proof.
  destruct m as [a|e']; simpl.
  - split.
    + intros H. right. eauto.
    + intros [H | (a' & [= <-] & H)]; [discriminate | exact H].
  - split.
    + intros [= ->]. by left.
    + intros [[= ->] | (a' & H & _)]; [done | discriminate].
Qed.

Lemma for_each_app_next {S A} (body : S → A → result (flow S)) (l1 l2 : list A)
    (st st1 : S) :
  for_each body st l1 = Ok st1 →
  (∀ s x s', body s x = Ok (Break s') → s' ≠ st1) →
  for_each body st (l1 ++ l2) = for_each body st1 l2.
Proof.
  revert st. induction l1 as [|x l1 IH]; intros st Hrun Hbreak; simpl in *.
  - by inversion Hrun.
  - destruct (body st x) as [[s'|s']|e] eqn:Hx; try done.
    + by apply IH.
    + inversion Hrun; subst. by destruct (Hbreak _ _ _ Hx).
Qed.

Lemma for_each_runs_through {S A} (body : S → A → result (flow S)) l1 l2 : ∀ st st1,
  runs_through body st l1 = Some st1 →
  for_each body st (l1 ++ l2) = for_each body st1 l2.
Proof.
  induction l1 as [|x l1 IH]; intros st st1; simpl.
  - by intros [= ->].
  - destruct (body st x) as [[s|s]|e]; try done. apply IH.
Qed.

(** ** Indices *)

Lemma slot_lt n i j : slot n i = Some j → (j < n)%nat.
Proof.
  unfold slot. intros H.
  destruct (i <? 0) eqn:Hi;
    destruct (_ && _) eqn:Hb; inversion H; subst;
    apply andb_true_iff in Hb as [?%Z.leb_le ?%Z.ltb_lt]; lia.
Qed.

Lemma slot_is_Some n i : - Z.of_nat n ≤ i < Z.of_nat n → is_Some (slot n i).
Proof.
  intros Hi. unfold slot.
  destruct (i <? 0) eqn:Hneg.
  - apply Z.ltb_lt in Hneg.
    replace ((0 <=? i + Z.of_nat n) && (i + Z.of_nat n <? Z.of_nat n)) with true; [eauto|].
    symmetry. apply andb_true_iff. split; [apply Z.leb_le | apply Z.ltb_lt]; lia.
  - apply Z.ltb_ge in Hneg.
    replace ((0 <=? i) && (i <? Z.of_nat n)) with true; [eauto|].
    symmetry. apply andb_true_iff. split; [apply Z.leb_le | apply Z.ltb_lt]; lia.
Qed.

Lemma index_Ok {A} (l : list A) i x :
  Py.index l i = Ok x ↔ ∃ j, slot (length l) i = Some j ∧ l !! j = Some x.
Proof.
  unfold Py.index, slot.
  destruct (_ && _).
  - destruct (l !! _) eqn:Hl; split.
    + intros [= <-]. eauto.
    + intros (j & [= <-] & Hj). congruence.
    + done.
    + intros (j & [= <-] & Hj). congruence.
  - split; [done | intros (? & ? & ?); done].
Qed.

Lemma index_error {A} (l : list A) i e :
  Py.index l i = Raise e → slot (length l) i = None.
Proof.
  unfold Py.index, slot. destruct (_ && _) eqn:Hb; [|done].
  destruct (l !! _) eqn:Hl; [done|].
  apply lookup_ge_None in Hl.
  apply andb_true_iff in Hb as [?%Z.leb_le ?%Z.ltb_lt]. lia.
Qed.

Lemma set_index_Ok {A} (l l' : list A) i x :
  Py.set_index l i x = Ok l' ↔ ∃ j, slot (length l) i = Some j ∧ l' = <[j := x]> l.
Proof.
  unfold Py.set_index, slot.
  destruct (_ && _); split.
  - intros [= <-]. eauto.
  - intros (j & [= <-] & ->). done.
  - done.
  - intros (? & ? & ?); done.
Qed.

Lemma set_index_error {A} (l : list A) i x e :
  Py.set_index l i x = Raise e → slot (length l) i = None.
Proof. unfold Py.set_index, slot. by destruct (_ && _). Qed.

(** ** [int] *)

Lemma int_error base s e : Py.int base s = Raise e → e = ValueError.
Proof.
  unfold Py.int. destruct (Py.take_sign _) as [neg s1].
  destruct (Py.starts_with_underscore _); [congruence|].
  destruct (Py.scan_digits _ _ _ _ _) as [[[v [|n]] rest]|]; try congruence.
  destruct (Py.skip_int_space rest); congruence.
Qed.

Lemma digit_value_bound base c d : Py.digit_value base c = Some d → 0 ≤ d < base.
Proof.
  unfold Py.digit_value, Py.between.
  repeat match goal with
         | |- context [if ?b then _ else _] => destruct b eqn:?
         end; intros [= <-]; lia.
Qed.

Lemma scan_digits_bound base s : 0 < base → ∀ acc n prev v n' rest,
  0 ≤ acc →
  Py.scan_digits base acc n prev s = Some (v, n', rest) →
  0 ≤ v < (acc + 1) * base ^ Z.of_nat (String.length s).
Proof.
  intros Hbase. induction s as [|c s IH]; intros acc n prev v n' rest Hacc; simpl String.length.
  - simpl. destruct prev; [done|]. intros [= <- <- <-]. lia.
  - rewrite Nat2Z.inj_succ, Z.pow_succ_r by lia.
    assert (0 < base ^ Z.of_nat (String.length s)) by (apply Z.pow_pos_nonneg; lia).
    simpl. destruct (Ascii.eqb c Py.underscore).
    + destruct prev; [done|]. intros Hs. apply IH in Hs; [|done]. nia.
    + destruct (Py.digit_value base c) as [d|] eqn:Hd.
      * apply digit_value_bound in Hd. intros Hs. apply IH in Hs; [|nia]. nia.
      * destruct prev; [done|]. intros [= <- <- <-]. nia.
Qed.

Lemma skip_int_space_length s :
  (String.length (Py.skip_int_space s) ≤ String.length s)%nat.
Proof. induction s as [|c s IH]; simpl; [lia|]. destruct (Py.int_isspace c); simpl; lia. Qed.

Lemma take_sign_length s :
  (String.length (Py.take_sign s).2 ≤ String.length s)%nat.
Proof.
  destruct s as [|c s]; simpl; [lia|].
  destruct c as [[] [] [] [] [] [] [] []]; simpl; lia.
Qed.

Lemma skip_base_prefix_length base s :
  (String.length (Py.skip_base_prefix base s) ≤ String.length s)%nat.
Proof.
  destruct s as [|c [|x s]]; simpl; try lia.
  - destruct c as [[] [] [] [] [] [] [] []]; simpl; lia.
  - destruct c as [[] [] [] [] [] [] [] []]; simpl; try lia.
    destruct (_ && _); simpl; [|lia].
    destruct s as [|u s]; simpl; [lia|].
    destruct u as [[] [] [] [] [] [] [] []]; simpl; lia.
Qed.

Lemma int_bound base s v :
  0 < base → Py.int base s = Ok v → Z.abs v < base ^ Z.of_nat (String.length s).
Proof.
  intros Hbase. unfold Py.int.
  pose proof (skip_int_space_length s) as H1.
  pose proof (take_sign_length (Py.skip_int_space s)) as H2.
  destruct (Py.take_sign _) as [neg s1]. simpl in H2.
  pose proof (skip_base_prefix_length base s1) as H3.
  destruct (Py.starts_with_underscore _); [done|].
  destruct (Py.scan_digits _ _ _ _ _) as [[[w [|n]] rest]|] eqn:Hs; try done.
  destruct (Py.skip_int_space rest); [|done].
  intros [= <-]. apply scan_digits_bound in Hs; [|done|lia].
  assert (base ^ Z.of_nat (String.length (Py.skip_base_prefix base s1))
          ≤ base ^ Z.of_nat (String.length s)) by (apply Z.pow_le_mono_r; lia).
  destruct neg; lia.
Qed.

Lemma prefix2_length s : (String.length (Py.prefix2 s) ≤ 2)%nat.
Proof. destruct s as [|a [|b s]]; simpl; lia. Qed.

Lemma shard_of_bound key i : shard_of key = Ok i → -255 ≤ i ≤ 255.
Proof.
  intros H. apply int_bound in H; [|done].
  pose proof (prefix2_length key).
  assert (16 ^ Z.of_nat (String.length (Py.prefix2 key)) ≤ 16 ^ 2)
    by (apply Z.pow_le_mono_r; lia).
  lia.
Qed.

Lemma shard_of_error key e : shard_of key = Raise e → e = ValueError.
Proof. apply int_error. Qed.

Lemma shard_of_slot key i : shard_of key = Ok i → is_Some (slot 256 i).
Proof. intros H%shard_of_bound. apply slot_is_Some. lia. Qed.

Lemma shard_of_empty : shard_of "" = Raise ValueError.
Proof. reflexivity. Qed.
(** ** The scan of the merge log *)

Section struct_scan.

Variable seeds : list (gmap string Z).
Variable global_seeds_set : gset string.

Let body := struct_line seeds global_seeds_set.

Lemma struct_line_break st line st' :
  struct_line seeds global_seeds_set st line = Ok (Break st') → number_of_seeds st' = 0.
Proof.
  unfold struct_line. intros H.
  apply bind_Ok in H as ([[[[father son] diffs] cluster_id] steps] & _ & H).
  apply bind_Ok in H as (id & _ & H).
  destruct (number_of_seeds _ =? 0) eqn:Hn.
  - inversion H; subst. by apply Z.eqb_eq.
  - destruct (has_a_local_seed _) as [[]|]; try done.
    apply bind_Ok in H as (i & _ & H). apply bind_Ok in H as (d & _ & H).
    by destruct (d !! son).
Qed.

Lemma struct_line_start st line id edge :
  edge_line id line edge → previous_cluster_id st ≠ id →
  struct_line seeds global_seeds_set st line
  = struct_line seeds global_seeds_set (start_cluster global_seeds_set st edge.1 id) line.
Proof.
  intros (diffs & cluster_id & steps & Hf & Hid) Hne.
  unfold struct_line. fold (fields line). rewrite Hf. simpl. rewrite Hid. simpl.
  rewrite decide_True by done. by rewrite decide_False by (simpl; intros ?; done).
Qed.

(** A record of the current cluster, read while candidates are still to be
    found. *)
Lemma struct_line_edge st line edge :
  edge_line (previous_cluster_id st) line edge →
  number_of_seeds st ≠ 0 →
  has_a_local_seed st = Some true →
  struct_line seeds global_seeds_set st line
  = (index ← shard_of edge.2;
     d ← Py.index seeds index;
     match d !! edge.2 with
     | Some _ =>
         Ok (Next {| number_of_seeds := number_of_seeds st - 1;
                     previous_cluster_id := previous_cluster_id st;
                     clusters := dict_set (clusters st) edge.2 {[edge.2]};
                     new_clusters := new_clusters st;
                     has_a_local_seed := has_a_local_seed st |})
     | None =>
         Ok (Next {| number_of_seeds := number_of_seeds st;
                     previous_cluster_id := previous_cluster_id st;
                     clusters := populate edge.1 edge.2 (clusters st);
                     new_clusters := new_clusters st;
                     has_a_local_seed := has_a_local_seed st |})
     end).
Proof.
  intros (diffs & cluster_id & steps & Hf & Hid) Hn Hflag.
  unfold struct_line. fold (fields line). rewrite Hf. simpl. rewrite Hid. simpl.
  rewrite decide_False by (intros ?; done).
  apply Z.eqb_neq in Hn. rewrite Hn, Hflag. done.
Qed.

Lemma attach_son_None father son cl :
  (∀ entry, entry ∈ cl → father ∉ entry.2) → attach_son father son cl = None.
Proof.
  induction cl as [|[d members] cl IH]; intros H; simpl; [done|].
  rewrite decide_False by (apply (H (d, members)); left).
  rewrite IH; [done|]. intros entry ?. apply H. by right.
Qed.


End struct_scan.



(** ** Sub-clusters as a partition *)

Lemma for_each_invariant {S A} (body : S → A → result (flow S)) (P : S → Prop) :
  (∀ s x f, P s → body s x = Ok f → P (flow_state f)) →
  ∀ l st st', P st → for_each body st l = Ok st' → P st'.
Proof.
  intros Hbody. induction l as [|x l IH]; intros st st' Hst; simpl.
  - by intros [= <-].
  - destruct (body st x) as [[s|s]|e] eqn:Hx; [| |done].
    + apply IH. by apply (Hbody _ _ _ Hst Hx).
    + intros [= <-]. by apply (Hbody _ _ _ Hst Hx).
Qed.

Lemma holders_cons a d members cl :
  holders a ((d, members) :: cl)
  = ((if decide (a ∈ members) then 1 else 0) + holders a cl)%nat.
Proof.
  unfold holders. rewrite filter_cons. simpl.
  by destruct (decide (a ∈ members)).
Qed.

Lemma holders_app a cl1 cl2 :
  holders a (cl1 ++ cl2) = (holders a cl1 + holders a cl2)%nat.
Proof. unfold holders. by rewrite filter_app, length_app. Qed.

Lemma holders_pos a (cl : list (string * gset string)) :
  (0 < holders a cl)%nat ↔ a ∈ ⋃ cl.*2.
Proof.
  induction cl as [|[d members] cl IH].
  - simpl. split; [unfold holders; simpl; lia | set_solver].
  - rewrite holders_cons, fmap_cons. simpl. rewrite elem_of_union, <- IH.
    destruct (decide (a ∈ members)) as [Hin|Hout].
    + split; [by left | lia].
    + split; [intros; right; lia | intros [?|?]; [done | lia]].
Qed.

Lemma dict_set_new {V} (d : list (string * V)) k v :
  k ∉ d.*1 → dict_set d k v = d ++ [(k, v)].
Proof.
  induction d as [|[k' v'] d IH]; intros Hk; simpl; [done|].
  rewrite fmap_cons in Hk. apply not_elem_of_cons in Hk as [Hne Hk].
  rewrite decide_False by done. by rewrite IH.
Qed.

Lemma rooted_key_held (cl : list (string * gset string)) k :
  rooted cl → k ∈ cl.*1 → (0 < holders k cl)%nat.
Proof.
  intros Hr Hk. apply list_elem_of_fmap in Hk as ([k' m] & -> & Hin).
  apply holders_pos. apply elem_of_union_list. exists m. split.
  - apply list_elem_of_fmap. by exists (k', m).
  - by apply Hr.
Qed.

Lemma attach_son_holders father son (cl : list (string * gset string)) :
  (0 < holders father cl)%nat → holders son cl = 0%nat → rooted cl →
  ∃ cl', attach_son father son cl = Some cl'
         ∧ cl'.*1 = cl.*1
         ∧ rooted cl'
         ∧ ∀ a, holders a cl' = (holders a cl + if decide (a = son) then 1 else 0)%nat.
Proof.
  induction cl as [|[d members] cl IH]; intros Hf Hs Hr.
  - unfold holders in Hf. simpl in Hf. lia.
  - rewrite holders_cons in Hf, Hs. simpl.
    assert (Hr' : rooted cl) by (intros ???; apply Hr; by right).
    destruct (decide (father ∈ members)) as [Hin|Hout].
    + eexists. split; [done|]. split; [done|]. split.
      * intros root ms [[= -> ->]|?]%elem_of_cons; [|by apply Hr'].
        apply elem_of_union_l. apply Hr. by left.
      * intros a. rewrite !holders_cons.
        destruct (decide (son ∈ members)); [lia|].
        destruct (decide (a = son)) as [->|Hne].
        -- rewrite decide_True by set_solver. rewrite decide_False by done. lia.
        -- destruct (decide (a ∈ members)).
           ++ rewrite decide_True by set_solver. lia.
           ++ rewrite decide_False by set_solver. lia.
    + destruct IH as (cl' & Hatt & Hkeys & Hroot & Hcount); [lia|lia|done|].
      rewrite Hatt. eexists. split; [done|]. split; [by rewrite !fmap_cons, Hkeys|]. split.
      * intros root ms [[= -> ->]|?]%elem_of_cons; [|by apply Hroot].
        apply Hr. by left.
      * intros a. rewrite !holders_cons, Hcount. lia.
Qed.

Section partition.

Variable seeds : list (gmap string Z).
Variable global_seeds_set : gset string.
Hypothesis seeds_length : length seeds = 256%nat.

Lemma candidate_lookup son i :
  shard_of son = Ok i →
  ∃ d, Py.index seeds i = Ok d
       ∧ is_candidate seeds son = bool_decide (is_Some (d !! son)).
Proof.
  intros Hi. destruct (shard_of_slot _ _ Hi) as [j Hj].
  destruct (lookup_lt_is_Some_2 seeds j) as [d Hd].
  { rewrite seeds_length. by apply slot_lt in Hj. }
  exists d. split.
  - apply index_Ok. exists j. by rewrite seeds_length.
  - unfold is_candidate, shard_lookup. rewrite Hi, seeds_length, Hj. simpl.
    by rewrite Hd.
Qed.

Lemma struct_line_keeps st line f :
  struct_line seeds global_seeds_set st line = Ok f →
  ∀ c, c ∈ new_clusters st → c ∈ new_clusters (flow_state f).
Proof.
  unfold struct_line. intros H c Hc.
  apply bind_Ok in H as ([[[[father son] diffs] cluster_id] steps] & _ & H).
  apply bind_Ok in H as (id & _ & H).
  set (st1 := if decide (id ≠ previous_cluster_id st) then _ else st) in H.
  assert (Hc1 : c ∈ new_clusters st1).
  { unfold st1. destruct (decide _); [|done]. simpl.
    destruct (clusters st); [done|]. apply elem_of_app. by left. }
  clearbody st1.
  destruct (number_of_seeds st1 =? 0); [by inversion H; subst|].
  destruct (has_a_local_seed st1) as [[]|]; [| by inversion H; subst | done].
  apply bind_Ok in H as (i & _ & H). apply bind_Ok in H as (d & _ & H).
  destruct (d !! son); inversion H; subst; done.
Qed.

End partition.

Lemma holders_zero a (cl : list (string * gset string)) :
  holders a cl = 0%nat → ∀ entry, entry ∈ cl → a ∉ entry.2.
Proof.
  intros Hzero [d members] Hin Ha.
  assert (0 < holders a cl)%nat; [|lia].
  apply holders_pos, elem_of_union_list. exists members. split; [|done].
  apply list_elem_of_fmap. by exists (d, members).
Qed.

Lemma attach_father_holders father son (cl : list (string * gset string)) :
  holders father cl = 0%nat → rooted cl →
  (attach_father father son cl).*1 = cl.*1
  ∧ rooted (attach_father father son cl)
  ∧ ∀ a, holders a (attach_father father son cl)
         = (holders a cl + if decide (a = father) then holders son cl else 0)%nat.
Proof.
  induction cl as [|[d members] cl IH]; intros Hf Hr.
  - split; [done|]. split; [done|]. intros a. unfold holders. simpl. by destruct (decide _).
  - rewrite holders_cons in Hf.
    destruct (decide (father ∈ members)) as [|Hout]; [lia|].
    assert (Hr' : rooted cl) by (intros ???; apply Hr; by right).
    destruct IH as (Hkeys & Hroot & Hcount); [lia|done|].
    unfold attach_father in *. rewrite fmap_cons.
    destruct (decide (son ∈ members)) as [Hson|Hson].
    + split; [by rewrite !fmap_cons, Hkeys|]. split.
      * intros root ms [[= -> ->]|?]%elem_of_cons; [|by apply Hroot].
        apply elem_of_union_l. apply Hr. by left.
      * intros a. rewrite !holders_cons, Hcount.
        rewrite (decide_True (P := son ∈ members)) by done.
        destruct (decide (a = father)) as [->|Hne].
        -- rewrite decide_True by set_solver. rewrite decide_False by done. lia.
        -- destruct (decide (a ∈ members)).
           ++ rewrite decide_True by set_solver. lia.
           ++ rewrite decide_False by set_solver. lia.
    + split; [by rewrite !fmap_cons, Hkeys|]. split.
      * intros root ms [[= -> ->]|?]%elem_of_cons; [|by apply Hroot].
        apply Hr. by left.
      * intros a. rewrite !holders_cons, Hcount.
        rewrite (decide_False (P := son ∈ members)) by done.
        destruct (decide (a = father)); lia.
Qed.

Lemma named_app edges1 edges2 : named (edges1 ++ edges2) = named edges1 ++ named edges2.
Proof. unfold named. by rewrite flat_map_app. Qed.

Section grafting.

Variable seeds : list (gmap string Z).
Variable global_seeds_set : gset string.
Hypothesis seeds_length : length seeds = 256%nat.

(** The records of a flagged cluster, read while a candidate is still to be
    found. *)
Lemma scan_cluster id g edges : ∀ cluster seen st,
  Forall2 (edge_line id) cluster edges →
  grafted seeds (g :: named seen) edges →
  Forall (λ edge, is_ok (shard_of edge.2)) edges →
  within seeds id g seen st →
  (∀ k, (k < length edges)%nat →
        Z.of_nat (length (filter (λ a, is_candidate seeds a = true) (take k edges).*2))
        < number_of_seeds st) →
  ∃ st', runs_through (struct_line seeds global_seeds_set) st cluster = Some st'
         ∧ within seeds id g (seen ++ edges) st'
         ∧ new_clusters st' = new_clusters st.
Proof.
  induction edges as [|[father son] edges IH]; intros cluster seen st Hlines Hgen Hhex Hin Hn.
  - apply Forall2_nil_inv_r in Hlines as ->. exists st. by rewrite app_nil_r.
  - apply Forall2_cons_inv_r in Hlines as (line & cluster' & Hline & Hlines & ->).
    destruct Hgen as (Hends & Hgen).
    apply Forall_cons in Hhex as [[i Hi] Hhex].
    destruct Hin as (Hid & Hflag & Hroot & Hkeys & Hcount).
    simpl in Hi.
    destruct (candidate_lookup seeds seeds_length son i Hi) as (d & Hd & Hcand).
    assert (Hstep : number_of_seeds st ≠ 0).
    { specialize (Hn 0%nat ltac:(simpl; lia)). simpl in Hn. lia. }
    assert (Hknown : g :: named (seen ++ [(father, son)]) = (g :: named seen) ++ [father; son]).
    { by rewrite named_app. }
    cbn [runs_through]. rewrite <- Hid in Hline.
    rewrite (struct_line_edge _ _ _ _ _ Hline Hstep Hflag). simpl.
    rewrite Hi. simpl. rewrite Hd. simpl.
    assert (Hrest : ∀ c st1,
              number_of_seeds st1 = number_of_seeds st - Z.of_nat c →
              length (filter (λ a, is_candidate seeds a = true) [son]) = c →
              ∀ k, (k < length edges)%nat →
                Z.of_nat (length (filter (λ a, is_candidate seeds a = true) (take k edges).*2))
                < number_of_seeds st1).
    { intros c st1 Hst1 Hc k Hk. specialize (Hn (S k) ltac:(simpl; lia)).
      rewrite Hst1. cbn [take] in Hn. rewrite fmap_cons, filter_cons in Hn.
      rewrite filter_cons, filter_nil in Hc. simpl in Hn, Hc.
      destruct (decide (is_candidate seeds son = true)); simpl in Hn, Hc; subst c; lia. }
    destruct (d !! son) as [n|] eqn:Hlookup.
    + (* a candidate: a new son *)
      assert (Hc : is_candidate seeds son = true)
        by (rewrite Hcand; apply bool_decide_eq_true; eauto).
      destruct Hends as [[Hfather Hson]|(_ & _ & Hno)]; [|congruence].
      assert (Hs0 : holders son (clusters st) = 0%nat)
        by (rewrite Hcount; by rewrite decide_False).
      rewrite dict_set_new.
      2:{ intros Hk. apply (rooted_key_held _ _ Hroot) in Hk. lia. }
      match goal with |- context [runs_through _ ?s cluster'] => set (st1 := s) end.
      destruct (IH cluster' (seen ++ [(father, son)]) st1) as (st' & Hrun & Hin' & Hnc);
        [done|by rewrite Hknown|done| |apply (Hrest 1%nat); [simpl; lia|]|].
      { unfold within, st1. simpl. repeat split; try done.
        - intros root ms [?|[= -> ->]%list_elem_of_singleton]%elem_of_app.
          + by apply Hroot.
          + by apply elem_of_singleton.
        - rewrite !fmap_app, Hkeys, filter_app. simpl.
          by rewrite filter_cons, decide_True by done.
        - intros a. rewrite Hknown, holders_app, Hcount, holders_cons. unfold holders. simpl.
          destruct (decide (a = son)) as [->|Hne].
          + rewrite decide_False by done. rewrite decide_True by set_solver.
            rewrite decide_True by set_solver. lia.
          + rewrite (decide_False (P := a ∈ {[son]})) by set_solver.
            destruct (decide (a ∈ g :: named seen)).
            * rewrite decide_True by set_solver. lia.
            * rewrite decide_False by set_solver. lia. }
      { by rewrite filter_cons, decide_True by done. }
      exists st'. rewrite Hrun. rewrite <- app_assoc in Hin'. done.
    + assert (Hc : is_candidate seeds son ≠ true).
      { rewrite Hcand. intros [? ?]%bool_decide_eq_true. congruence. }
      assert (Hkeys' : ∀ cl' : list (string * gset string), cl'.*1 = (clusters st).*1 →
                cl'.*1 = g :: filter (λ a, is_candidate seeds a = true)
                               (seen ++ [(father, son)]).*2).
      { intros cl' ->. rewrite !fmap_app, Hkeys, filter_app. simpl.
        by rewrite filter_cons, decide_False, filter_nil, app_nil_r by done. }
      destruct Hends as [[Hfather Hson]|(Hfather & Hson & _)].
      * (* a new son of a known father *)
        assert (Hs0 : holders son (clusters st) = 0%nat)
          by (rewrite Hcount; by rewrite decide_False).
        destruct (attach_son_holders father son (clusters st))
          as (cl' & Hatt & Hk' & Hr' & Hc');
          [rewrite Hcount, decide_True by done; lia|done|done|].
        unfold populate. rewrite Hatt.
        match goal with |- context [runs_through _ ?s cluster'] => set (st1 := s) end.
        destruct (IH cluster' (seen ++ [(father, son)]) st1) as (st' & Hrun & Hin' & Hnc);
          [done|by rewrite Hknown|done| |apply (Hrest 0%nat); [simpl; lia|]|].
        { unfold within, st1. simpl. repeat split; try done; [by apply Hkeys'|].
          intros a. rewrite Hknown, Hc', Hcount.
          destruct (decide (a = son)) as [->|Hne].
          - rewrite decide_False by done. rewrite decide_True by set_solver. lia.
          - destruct (decide (a ∈ g :: named seen)).
            + rewrite decide_True by set_solver. lia.
            + rewrite decide_False by set_solver. lia. }
        { by rewrite filter_cons, decide_False by done. }
        exists st'. rewrite Hrun. rewrite <- app_assoc in Hin'. done.
      * (* an orphan: a new father of a known son *)
        assert (Hf0 : holders father (clusters st) = 0%nat)
          by (rewrite Hcount; by rewrite decide_False).
        assert (Hs1 : holders son (clusters st) = 1%nat)
          by (rewrite Hcount; by rewrite decide_True).
        destruct (attach_father_holders father son (clusters st) Hf0 Hroot)
          as (Hk' & Hr' & Hc').
        unfold populate. rewrite (attach_son_None father son) by by apply holders_zero.
        match goal with |- context [runs_through _ ?s cluster'] => set (st1 := s) end.
        destruct (IH cluster' (seen ++ [(father, son)]) st1) as (st' & Hrun & Hin' & Hnc);
          [done|by rewrite Hknown|done| |apply (Hrest 0%nat); [simpl; lia|]|].
        { unfold within, st1. simpl. repeat split; try done; [by apply Hkeys'|].
          intros a. rewrite Hknown, Hc', Hcount, Hs1.
          destruct (decide (a = father)) as [->|Hne].
          - rewrite decide_False by done. rewrite decide_True by set_solver. lia.
          - destruct (decide (a ∈ g :: named seen)).
            + rewrite decide_True by set_solver. lia.
            + rewrite decide_False by set_solver. lia. }
        { by rewrite filter_cons, decide_False by done. }
        exists st'. rewrite Hrun. rewrite <- app_assoc in Hin'. done.
Qed.

End grafting.

Lemma filter_take_length {A} (P : A → Prop) `{∀ x, Decision (P x)} k (l : list A) :
  (length (filter P (take k l)) ≤ length (filter P l))%nat.
Proof.
  rewrite <- (take_drop k l) at 2. rewrite filter_app, length_app. lia.
Qed.

Lemma take_removelast {A} k (l : list A) :
  (k < length l)%nat → take k l = take k (removelast l).
Proof.
  intros Hk. rewrite removelast_firstn_len, take_take. f_equal. lia.
Qed.

(** C1, as the code has it.  Take a flagged cluster that the scan reaches,
    whose first father is its seed and every edge of which joins a new
    amplicon to one named before: a new son to a known father, or a new
    father, an orphan, to a known son that is no candidate.  Let a candidate
    be still to be found when each of its records is read, and let a record
    of another cluster follow it in the merge log.  If the scan returns, it
    has emitted the sub-clusters of the cluster: one for the seed and one for
    every candidate son; every amplicon that the edges name is in exactly one
    of them, and they hold nothing else. *)
Theorem flagged_cluster_is_partitioned (seeds : list (gmap string Z))
    (global_seeds : list (gmap string string))
    (before cluster after : list string) (next : string) (st : struct_state)
    (g : string) (edges : list (string * string)) (id id' : Z)
    (edge' : string * string) (ncs : list (list (string * gset string))) :
  length seeds = 256%nat →
  runs_through (struct_line seeds (values_of global_seeds)) (struct_init seeds) before
    = Some st →
  previous_cluster_id st ≠ id →
  Forall2 (edge_line id) cluster edges →
  head edges.*1 = Some g →
  g ∈ values_of global_seeds →
  grafted seeds [g] edges →
  Forall (λ edge, is_ok (shard_of edge.2)) edges →
  Z.of_nat (length (filter (λ a, is_candidate seeds a = true) (removelast edges).*2))
    < number_of_seeds st →
  edge_line id' next edge' → id' ≠ id →
  struct_parse (before ++ cluster ++ next :: after) seeds global_seeds = Ok ncs →
  ∃ cl, cl ∈ ncs
        ∧ cl.*1 = g :: filter (λ a, is_candidate seeds a = true) edges.*2
        ∧ ⋃ cl.*2 = list_to_set (g :: named edges)
        ∧ ∀ a, holders a cl = if decide (a ∈ g :: named edges) then 1%nat else 0%nat.
Proof.
  intros Hlen Hbefore Hid Hlines Hg Hflag Hgen Hhex Hn Hnext Hid' Hrun.
  set (G := values_of global_seeds) in *.
  unfold struct_parse in Hrun. apply bind_Ok in Hrun as (final & Hrun & [= <-]).
  rewrite (for_each_runs_through _ _ _ _ _ Hbefore) in Hrun.
  destruct edges as [|[father son] edges]; [done|]. simpl in Hg. injection Hg as ->.
  pose proof Hlines as Hlines0.
  apply Forall2_cons_inv_r in Hlines0 as (line & cluster' & Hline & _ & ->).
  (* the first record of the cluster opens it *)
  set (st1 := start_cluster G st g id).
  assert (Hst1 : for_each (struct_line seeds G) st ((line :: cluster') ++ next :: after)
                 = for_each (struct_line seeds G) st1 ((line :: cluster') ++ next :: after)).
  { simpl. by rewrite (struct_line_start _ _ _ _ _ _ Hline Hid). }
  rewrite Hst1 in Hrun. clear Hst1.
  destruct (scan_cluster seeds G Hlen id g ((g, son) :: edges) (line :: cluster') [] st1)
    as (st2 & Hrun2 & Hin2 & Hnc2); [done|done|done| | |].
  { unfold within, st1, start_cluster. simpl.
    rewrite bool_decide_eq_true_2 by done. split; [done|]. split; [done|]. split.
    - intros root ms [= -> ->]%list_elem_of_singleton. by apply elem_of_singleton.
    - split; [done|]. intros a. rewrite holders_cons. unfold holders. simpl.
      destruct (decide (a = g)) as [->|Hne].
      + rewrite decide_True by set_solver. rewrite decide_True by set_solver. done.
      + rewrite decide_False by set_solver. rewrite decide_False by set_solver. done. }
  { intros k Hk. rewrite (take_removelast k _ Hk), fmap_take.
    pose proof (filter_take_length (λ a, is_candidate seeds a = true) k
                  (removelast ((g, son) :: edges)).*2).
    change (number_of_seeds st1) with (number_of_seeds st). lia. }
  rewrite (for_each_runs_through _ _ _ _ _ Hrun2) in Hrun.
  (* the first record of the next cluster saves it *)
  destruct Hin2 as (Hid2 & Hflag2 & Hroot2 & Hkeys2 & Hcount2).
  rewrite app_nil_l in Hkeys2, Hcount2.
  exists (clusters st2). split; [|split; [done|split]].
  - simpl in Hrun. rewrite <- Hid2 in Hid'.
    rewrite (struct_line_start _ _ _ _ _ _ Hnext) in Hrun by done.
    set (st3 := start_cluster G st2 edge'.1 id') in Hrun.
    assert (Hin3 : clusters st2 ∈ new_clusters st3).
    { unfold st3, start_cluster. simpl. destruct (clusters st2) eqn:Hcl; [done|].
      apply elem_of_app. right. by apply list_elem_of_singleton. }
    destruct (struct_line seeds G st3 next) as [f|e] eqn:Hstep; [|by destruct e].
    pose proof (struct_line_keeps _ _ _ _ _ Hstep _ Hin3) as Hin4.
    destruct f as [s|s]; simpl in Hin4.
    + revert Hrun. apply (for_each_invariant _ (λ s, clusters st2 ∈ new_clusters s)); [|done].
      intros s0 x f Hs0 Hx. by apply (struct_line_keeps _ _ _ _ _ Hx).
    + by inversion Hrun; subst.
  - apply set_eq. intros a. rewrite <- holders_pos, Hcount2, elem_of_list_to_set.
    destruct (decide _); split; try done; lia.
  - intros a. by rewrite Hcount2.
Qed.
(** ** Sorting *)

Section stable_sort.

Context {A : Type} (le : A → A → bool).

Let R (x y : A) : Prop := le x y = true.

Lemma insert_sorted_perm x l : insert_sorted le x l ≡ₚ x :: l.
Proof.
  induction l as [|y l IH]; simpl; [done|].
  destruct (le x y); [done|]. rewrite IH. apply perm_swap.
Qed.

Lemma stable_sort_perm l : stable_sort le l ≡ₚ l.
Proof.
  induction l as [|x l IH]; simpl; [done|].
  by rewrite insert_sorted_perm, IH.
Qed.

Hypothesis le_total : ∀ x y, le x y = true ∨ le y x = true.

Lemma insert_sorted_Sorted x l : Sorted R l → Sorted R (insert_sorted le x l).
Proof.
  induction l as [|y l IH]; intros Hl; simpl.
  - by repeat constructor.
  - destruct (le x y) eqn:Hxy.
    + constructor; [done|]. by constructor.
    + apply Sorted_inv in Hl as [Hl Hhd]. constructor; [by apply IH|].
      assert (Hyx : R y x) by (destruct (le_total x y); [congruence|done]).
      destruct l as [|z l]; simpl.
      * by constructor.
      * destruct (le x z); constructor; [done|]. by apply HdRel_inv in Hhd.
Qed.

Lemma stable_sort_Sorted l : Sorted R (stable_sort le l).
Proof.
  induction l as [|x l IH]; simpl; [constructor|]. by apply insert_sorted_Sorted.
Qed.

Hypothesis le_trans : ∀ x y z, le x y = true → le y z = true → le x z = true.

Lemma stable_sort_StronglySorted l : StronglySorted R (stable_sort le l).
Proof.
  apply Sorted_StronglySorted; [|apply stable_sort_Sorted].
  intros x y z. apply le_trans.
Qed.

(** Elements with equal keys keep their order: the result of sorting a
    list that is sorted for [le2] is sorted for [le], then [le2]. *)
Lemma stable_sort_keeps_order (R2 : relation A) l :
  StronglySorted R2 l →
  StronglySorted (λ x y, R x y ∧ (R y x → R2 x y)) (stable_sort le l).
Proof.
  induction l as [|x l IH]; intros Hl; simpl; [constructor|].
  apply StronglySorted_inv in Hl as [Hl Hx].
  assert (Hx' : Forall (R2 x) (stable_sort le l)) by (by rewrite stable_sort_perm).
  specialize (IH Hl). revert IH Hx'. generalize (stable_sort le l). clear Hl Hx l.
  induction l as [|y l IH]; intros Hl Hx; simpl.
  - by repeat constructor.
  - apply StronglySorted_inv in Hl as [Hl Hy]. apply Forall_cons in Hx as [Hxy Hx].
    destruct (le x y) eqn:Hle.
    + constructor; [by constructor|]. constructor; [done|].
      apply Forall_forall. intros z Hz.
      rewrite Forall_forall in Hy, Hx. destruct (Hy z Hz) as [Hyz _].
      split; [by apply (le_trans x y z)|]. intros _. by apply Hx.
    + constructor; [by apply IH|]. rewrite insert_sorted_perm.
      constructor; [|done]. split.
      * destruct (le_total x y); [congruence|done].
      * unfold R. congruence.
Qed.

Hypothesis le_antisym : ∀ x y, le x y = true → le y x = true → x = y.

Lemma stable_sort_unique l1 l2 :
  l1 ≡ₚ l2 → stable_sort le l1 = stable_sort le l2.
Proof.
  intros Hperm.
  apply (StronglySorted_unique_strong R).
  - intros x1 x2 _ _. apply le_antisym.
  - apply stable_sort_StronglySorted.
  - apply stable_sort_StronglySorted.
  - by rewrite !stable_sort_perm.
Qed.

End stable_sort.

(** The order of the members of a sub-cluster. *)

Lemma swarm_le_total x y : swarm_le x y = true ∨ swarm_le y x = true.
Proof.
  unfold swarm_le. destruct (String.leb_total x.1 y.1) as [H|H]; rewrite H.
  - destruct (Z.ltb_spec (- x.2) (- y.2)); [by left|].
    destruct (Z.eqb_spec (- x.2) (- y.2)); [by left|].
    right. apply orb_true_iff. left. apply Z.ltb_lt. lia.
  - destruct (Z.ltb_spec (- y.2) (- x.2)); [by right|].
    destruct (Z.eqb_spec (- y.2) (- x.2)); [by right|].
    left. apply orb_true_iff. left. apply Z.ltb_lt. lia.
Qed.

Lemma swarm_le_spec x y :
  swarm_le x y = true ↔ y.2 < x.2 ∨ (x.2 = y.2 ∧ String.leb x.1 y.1 = true).
Proof.
  unfold swarm_le. rewrite orb_true_iff, andb_true_iff, Z.ltb_lt, Z.eqb_eq.
  split; (intros [?|[? ?]]; [left; lia | right; split; [lia|done]]).
Qed.

Lemma leb_trans s1 s2 s3 :
  String.leb s1 s2 = true → String.leb s2 s3 = true → String.leb s1 s3 = true.
Proof.
  intros H1 H2. apply Is_true_true.
  apply (@transitivity _ String.le _ s1 s2 s3); by apply Is_true_true.
Qed.

Lemma swarm_le_trans x y z :
  swarm_le x y = true → swarm_le y z = true → swarm_le x z = true.
Proof.
  rewrite !swarm_le_spec. intros [?|[? ?]] [?|[? ?]]; try (left; lia).
  right. split; [lia|]. by apply (leb_trans _ y.1).
Qed.

Lemma swarm_le_antisym x y :
  swarm_le x y = true → swarm_le y x = true → x = y.
Proof.
  rewrite !swarm_le_spec. intros [?|[? ?]] [?|[? ?]]; try lia.
  destruct x, y; simpl in *. f_equal; [|done]. by apply String.leb_antisym.
Qed.

Lemma ltb_leb_ne s1 s2 :
  String.leb s1 s2 = true → s1 ≠ s2 → String.ltb s1 s2 = true.
Proof.
  unfold String.leb, String.ltb. intros Hle Hne.
  destruct (String.compare s1 s2) eqn:Hc; [|done|done].
  by apply String.compare_eq_iff in Hc.
Qed.

(** The sorted members are in the order of [precedes] when no amplicon is
    listed twice. *)
Lemma sorted_swarm_precedes (l : list (string * Z)) :
  NoDup l.*1 → StronglySorted precedes (stable_sort swarm_le l).
Proof.
  intros Hnd.
  assert (Hnd' : NoDup (stable_sort swarm_le l).*1) by (by rewrite stable_sort_perm).
  pose proof (stable_sort_StronglySorted swarm_le swarm_le_total swarm_le_trans l) as Hs.
  revert Hs Hnd'. generalize (stable_sort swarm_le l). clear.
  induction l as [|x l IH]; intros Hs Hnd; [constructor|].
  apply StronglySorted_inv in Hs as [Hs Hx].
  rewrite fmap_cons in Hnd. apply NoDup_cons in Hnd as [Hx' Hnd].
  constructor; [by apply IH|].
  apply Forall_forall. intros y Hy. rewrite Forall_forall in Hx.
  pose proof (Hx y Hy) as Hxy. apply swarm_le_spec in Hxy. destruct Hxy as [?|[? Hle]]; [by left|].
  right. split; [done|]. apply ltb_leb_ne; [done|].
  intros Heq. apply Hx'. rewrite Heq. apply list_elem_of_fmap. exists y. by split.
Qed.
(** ** Results that do not depend on the order of a set *)

Lemma similar_refl {A} (r : result A) : similar r r.
Proof. by left. Qed.

Lemma similar_of_agree {A} (r1 r2 : result A) :
  (∀ a, r1 = Ok a → r2 = Ok a) → (∀ a, r2 = Ok a → r1 = Ok a) →
  (∀ e, r1 = Raise e → plain e) → (∀ e, r2 = Raise e → plain e) →
  similar r1 r2.
Proof.
  intros H12 H21 H1 H2. destruct r1 as [a|e1].
  - left. symmetry. by apply H12.
  - destruct r2 as [b|e2].
    + left. by apply H21.
    + right. exists e1, e2. repeat split; auto.
Qed.

Lemma similar_bind {A B} (m1 m2 : result A) (k1 k2 : A → result B) :
  similar m1 m2 → (∀ a, similar (k1 a) (k2 a)) → similar (m1 ≫= k1) (m2 ≫= k2).
Proof.
  intros [->|(e1 & e2 & -> & -> & ? & ?)] Hk.
  - destruct m2; simpl; [apply Hk | by left].
  - right. by exists e1, e2.
Qed.

Lemma for_each_similar {S A} (body1 body2 : S → A → result (flow S)) l :
  (∀ s x, similar (body1 s x) (body2 s x)) →
  ∀ s, similar (for_each body1 s l) (for_each body2 s l).
Proof.
  intros Hbody. induction l as [|x l IH]; intros s; simpl; [by left|].
  destruct (Hbody s x) as [->|(e1 & e2 & -> & -> & ? & ?)].
  - destruct (body2 s x) as [[s'|s']|e]; [apply IH | by left | by left].
  - right. by exists e1, e2.
Qed.

Lemma for_each_plain {S A} (body : S → A → result (flow S)) l :
  (∀ s x e, body s x = Raise e → plain e) →
  ∀ s e, for_each body s l = Raise e → plain e.
Proof.
  intros Hbody. induction l as [|x l IH]; intros s e; simpl; [done|].
  destruct (body s x) as [[s'|s']|e'] eqn:Hx; [apply IH | done |].
  intros [= <-]. by apply (Hbody _ _ _ Hx).
Qed.

Lemma index_plain {A} (l : list A) i e : Py.index l i = Raise e → plain e.
Proof.
  unfold Py.index. destruct (_ && _); [|by intros [= <-]].
  destruct (l !! _); [done | by intros [= <-]].
Qed.

Lemma set_index_plain {A} (l : list A) i x e : Py.set_index l i x = Raise e → plain e.
Proof. unfold Py.set_index. destruct (_ && _); [done | by intros [= <-]]. Qed.

Lemma int_plain base s e : Py.int base s = Raise e → plain e.
Proof. by intros ->%int_error. Qed.

Lemma dict_del_plain {V} (d : list (string * V)) k e : dict_del d k = Raise e → plain e.
Proof.
  induction d as [|[k' v] d IH]; simpl; [by intros [= <-]|].
  destruct (decide (k = k')); [done|].
  intros [H|(? & _ & [=])]%bind_Raise. by apply IH.
Qed.

(** Solves [plain e] from an equation [m = Raise e] where [m] is a chain of
    the operations above. *)
Ltac plain_step H :=
  first
    [ apply int_plain in H; exact H
    | apply index_plain in H; exact H
    | apply set_index_plain in H; exact H
    | apply dict_del_plain in H; exact H
    | apply bind_Raise in H as [H | (? & _ & H)]; [plain_step H | plain_step H]
    | discriminate H
    | injection H as <-; exact I ].

(** *** The abundance of the members *)

Lemma abundance_of_plain sw a e : abundance_of sw a = Raise e → plain e.
Proof.
  unfold abundance_of, shard_of. intros H.
  apply bind_Raise in H as [H | (i & _ & H)]; [plain_step H|].
  apply bind_Raise in H as [H | (d & _ & H)]; [plain_step H|].
  destruct (d !! a); plain_step H.
Qed.

Lemma with_abundance_plain sw l e : with_abundance sw l = Raise e → plain e.
Proof.
  induction l as [|a l IH]; simpl; [done|]. intros H.
  apply bind_Raise in H as [H | (n & _ & H)]; [by apply abundance_of_plain in H|].
  apply bind_Raise in H as [H | (r & _ & H)]; [by apply IH | done].
Qed.

Lemma with_abundance_Ok sw l r :
  with_abundance sw l = Ok r ↔ Forall2 (λ a p, p.1 = a ∧ abundance_of sw a = Ok p.2) l r.
Proof.
  revert r. induction l as [|a l IH]; intros r; simpl.
  - split; [intros [= <-]; constructor | by intros ->%Forall2_nil_inv_l].
  - split.
    + intros (n & Hn & (r' & Hr & [= <-])%bind_Ok)%bind_Ok.
      constructor; [done|by apply IH].
    + intros ([a' n] & r' & [Ha Hn] & Hr & ->)%Forall2_cons_inv_l. simpl in *. subst a'.
      apply bind_Ok. exists n. split; [done|].
      apply bind_Ok. exists r'. split; [by apply IH|done].
Qed.

Lemma with_abundance_perm sw l1 l2 r1 :
  l1 ≡ₚ l2 → with_abundance sw l1 = Ok r1 →
  ∃ r2, with_abundance sw l2 = Ok r2 ∧ r1 ≡ₚ r2.
Proof.
  intros Hperm. revert r1. induction Hperm as [|a l1 l2 _ IH|a b l|l1 l2 l3 _ IH1 _ IH2];
    intros r1; simpl.
  - intros [= <-]. by exists [].
  - intros (n & Hn & (r' & Hr & [= <-])%bind_Ok)%bind_Ok.
    destruct (IH _ Hr) as (r2 & -> & Hp). rewrite Hn. simpl.
    exists ((a, n) :: r2). split; [done|]. by constructor.
  - intros (n & Hn & (r' & (m & Hm & (r & Hr & [= <-])%bind_Ok)%bind_Ok & [= <-])%bind_Ok)%bind_Ok.
    rewrite Hm, Hn, Hr. simpl. eexists. split; [done|]. apply perm_swap.
  - intros H1. destruct (IH1 _ H1) as (r2 & H2 & Hp12).
    destruct (IH2 _ H2) as (r3 & H3 & Hp23). exists r3. split; [done|]. by etrans.
Qed.

Lemma orders_agree iter1 iter2 :
  iteration_order iter1 → iteration_order iter2 → ∀ s, iter1 s ≡ₚ iter2 s.
Proof. intros H1 H2 s. by rewrite (H1 s), (H2 s). Qed.

Lemma finalize_agree iter1 iter2 sw copy item f :
  (∀ s, iter1 s ≡ₚ iter2 s) →
  finalize iter1 sw copy item = Ok f → finalize iter2 sw copy item = Ok f.
Proof.
  intros Horder. destruct item as [cluster members]. unfold finalize.
  intros (l1 & Hl1 & H)%bind_Ok.
  destruct (with_abundance_perm _ _ _ _ (Horder members) Hl1) as (l2 & -> & Hp). simpl.
  by rewrite <- (stable_sort_unique swarm_le swarm_le_total swarm_le_trans
                   swarm_le_antisym _ _ Hp).
Qed.

Lemma finalize_plain iter sw copy item e :
  finalize iter sw copy item = Raise e → plain e.
Proof.
  destruct item as [cluster members]. unfold finalize. intros H.
  apply bind_Raise in H as [H | (l & _ & H)]; [by apply with_abundance_plain in H|].
  apply bind_Raise in H as [H | (first & _ & H)]; [plain_step H|].
  destruct (decide _); plain_step H.
Qed.

Lemma finalize_similar iter1 iter2 sw copy item :
  (∀ s, iter1 s ≡ₚ iter2 s) →
  similar (finalize iter1 sw copy item) (finalize iter2 sw copy item).
Proof.
  intros Horder. apply similar_of_agree.
  - intros f. by apply finalize_agree.
  - intros f. by apply finalize_agree.
  - apply finalize_plain.
  - apply finalize_plain.
Qed.

Lemma add_abundance_values_similar iter1 iter2 ncs sw :
  (∀ s, iter1 s ≡ₚ iter2 s) →
  similar (add_abundance_values iter1 ncs sw) (add_abundance_values iter2 ncs sw).
Proof.
  intros Horder. induction ncs as [|c ncs IH]; simpl; [by left|].
  apply similar_bind.
  - unfold finalize_cluster. apply for_each_similar. intros s x.
    by apply finalize_similar.
  - intros a. apply similar_bind; [done|]. intros b. by left.
Qed.

(** *** The global seed of the candidates of a line *)

Lemma record_global_seed_Ok seed gs a f :
  record_global_seed seed gs a = Ok f ↔
  ∃ i j d, shard_of a = Ok i ∧ slot (length gs) i = Some j ∧ gs !! j = Some d
           ∧ f = Next (<[j := <[a := seed]> d]> gs).
Proof.
  unfold record_global_seed. split.
  - intros (i & Hi & (d & (j & Hj & Hd)%index_Ok & (gs' & (j' & Hj' & ->)%set_index_Ok
                        & [= <-])%bind_Ok)%bind_Ok)%bind_Ok.
    exists i, j, d. rewrite Hj in Hj'. by injection Hj' as <-.
  - intros (i & j & d & Hi & Hj & Hd & ->).
    rewrite Hi. simpl.
    assert (Py.index gs i = Ok d) as -> by (apply index_Ok; eauto). simpl.
    assert (Py.set_index gs i (<[a:=seed]> d) = Ok (<[j := <[a:=seed]> d]> gs)) as ->
      by (apply set_index_Ok; eauto).
    done.
Qed.

Lemma record_global_seed_plain seed gs a e :
  record_global_seed seed gs a = Raise e → plain e.
Proof. unfold record_global_seed, shard_of. intros H. plain_step H. Qed.

Lemma record_global_seed_swap seed gs a b gs2 :
  for_each (record_global_seed seed) gs [a; b] = Ok gs2 →
  for_each (record_global_seed seed) gs [b; a] = Ok gs2.
Proof.
  simpl.
  destruct (record_global_seed seed gs a) as [fa|] eqn:Ha; [|done].
  apply record_global_seed_Ok in Ha as (ia & ja & da & Hia & Hja & Hda & ->).
  destruct (record_global_seed seed _ b) as [fb|] eqn:Hb; [|done].
  apply record_global_seed_Ok in Hb as (ib & jb & db & Hib & Hjb & Hdb & ->).
  intros [= <-]. rewrite length_insert in Hjb.
  destruct (decide (ja = jb)) as [<-|Hne].
  - rewrite list_lookup_insert_eq in Hdb by (by apply slot_lt in Hja).
    injection Hdb as <-.
    assert (record_global_seed seed gs b = Ok (Next (<[ja := <[b := seed]> da]> gs))) as ->
      by (apply record_global_seed_Ok; by exists ib, ja, da).
    assert (record_global_seed seed (<[ja := <[b := seed]> da]> gs) a
            = Ok (Next (<[ja := <[a := seed]> (<[b := seed]> da)]>
                          (<[ja := <[b := seed]> da]> gs)))) as ->.
    { apply record_global_seed_Ok. exists ia, ja, (<[b := seed]> da).
      rewrite length_insert. repeat split; try done.
      apply list_lookup_insert_eq. by apply slot_lt in Hja. }
    rewrite !list_insert_insert_eq. f_equal. f_equal.
    destruct (decide (a = b)) as [->|Hab]; [done|]. by apply insert_insert_ne.
  - rewrite list_lookup_insert_ne in Hdb by done.
    assert (record_global_seed seed gs b = Ok (Next (<[jb := <[b := seed]> db]> gs))) as ->
      by (apply record_global_seed_Ok; by exists ib, jb, db).
    assert (record_global_seed seed (<[jb := <[b := seed]> db]> gs) a
            = Ok (Next (<[ja := <[a := seed]> da]> (<[jb := <[b := seed]> db]> gs)))) as ->.
    { apply record_global_seed_Ok. exists ia, ja, da.
      rewrite length_insert. repeat split; try done.
      by rewrite list_lookup_insert_ne. }
    f_equal. by apply list_insert_insert_ne.
Qed.

Lemma for_each_two {S A} (body : S → A → result (flow S)) a b l s :
  (∀ s x s', body s x ≠ Ok (Break s')) →
  for_each body s (a :: b :: l) = for_each body s [a; b] ≫= λ s', for_each body s' l.
Proof.
  intros Hnext. simpl.
  destruct (body s a) as [[s1|s1]|e] eqn:Ha; [|by destruct (Hnext _ _ _ Ha)|done].
  destruct (body s1 b) as [[s2|s2]|e] eqn:Hb; [done|by destruct (Hnext _ _ _ Hb)|done].
Qed.

Lemma record_global_seed_next seed gs a gs' :
  record_global_seed seed gs a ≠ Ok (Break gs').
Proof. by intros (? & ? & ? & _ & _ & _ & [=])%record_global_seed_Ok. Qed.

Lemma record_global_seed_perm seed l1 l2 :
  l1 ≡ₚ l2 → ∀ gs gs',
  for_each (record_global_seed seed) gs l1 = Ok gs' →
  for_each (record_global_seed seed) gs l2 = Ok gs'.
Proof.
  induction 1 as [|a l1 l2 _ IH|a b l|l1 l2 l3 _ IH1 _ IH2]; intros gs gs'.
  - done.
  - simpl. destruct (record_global_seed seed gs a) as [[s|s]|]; [apply IH|done|done].
  - rewrite (for_each_two _ b a l), (for_each_two _ a b l)
      by apply record_global_seed_next.
    intros (s & Hs & Hl)%bind_Ok. apply bind_Ok. exists s. split; [|done].
    by apply record_global_seed_swap.
  - intros H. by apply IH2, IH1.
Qed.

Lemma record_abundance_plain sw pair e : record_abundance sw pair = Raise e → plain e.
Proof. destruct pair. unfold record_abundance, shard_of. intros H. plain_step H. Qed.

Lemma swarms_line_similar iter1 iter2 seeds_set st line :
  (∀ s, iter1 s ≡ₚ iter2 s) →
  similar (swarms_line iter1 seeds_set st line) (swarms_line iter2 seeds_set st line).
Proof.
  intros Horder. unfold swarms_line.
  apply similar_bind; [by left|]. intros seed.
  apply similar_bind; [|intros; by left].
  destruct (decide _); [|by left].
  apply similar_bind; [by left|]. intros sw.
  apply similar_bind; [|intros; by left].
  apply similar_of_agree.
  - intros a. by apply record_global_seed_perm.
  - intros a. by apply record_global_seed_perm.
  - apply for_each_plain, record_global_seed_plain.
  - apply for_each_plain, record_global_seed_plain.
Qed.

Lemma swarms_parse_similar iter1 iter2 file seeds :
  (∀ s, iter1 s ≡ₚ iter2 s) →
  similar (swarms_parse iter1 file seeds) (swarms_parse iter2 file seeds).
Proof.
  intros Horder. unfold swarms_parse.
  apply similar_bind; [|intros; by left].
  apply for_each_similar. intros s x. by apply swarms_line_similar.
Qed.

(** *** The whole run *)

Lemma cleave_similar iter1 iter2 input :
  (∀ s, iter1 s ≡ₚ iter2 s) →
  similar (cleave iter1 input) (cleave iter2 input).
Proof.
  intros Horder. unfold cleave.
  apply similar_bind; [by left|]. intros [threshold seeds].
  apply similar_bind; [by left|]. intros seeds'.
  apply similar_bind; [by apply swarms_parse_similar|]. intros [sw gs].
  apply similar_bind; [by left|]. intros ncs.
  by apply add_abundance_values_similar.
Qed.

Lemma swarm_lines_order iter1 iter2 items s :
  stats_of items = Ok s → swarm_lines iter1 items = swarm_lines iter2 items.
Proof.
  revert s. induction items as [|[k v] items IH]; intros s; simpl; [done|].
  intros (s1 & Hs1 & (l & Hl & _)%bind_Ok)%bind_Ok.
  destruct v as [?|sw]; [done|]. unfold swarm_line. simpl. by rewrite (IH _ Hl).
Qed.

Lemma main_observable iter1 iter2 input :
  (∀ s, iter1 s ≡ₚ iter2 s) →
  observable (main iter1 input) = observable (main iter2 input).
Proof.
  intros Horder. unfold main.
  assert (Hsim : similar (c ← cleave iter1 input; s ← per_cluster_stats c; Ok (c, s))
                         (c ← cleave iter2 input; s ← per_cluster_stats c; Ok (c, s))).
  { apply similar_bind; [by apply cleave_similar|]. intros; by left. }
  destruct Hsim as [->|(e1 & e2 & -> & -> & He1 & He2)].
  - destruct (_ ≫= _) as [[c s]|e] eqn:Hc; [|done].
    apply bind_Ok in Hc as (c' & _ & (s' & Hs & [= <- <-])%bind_Ok).
    unfold per_cluster_stats in Hs. apply bind_Ok in Hs as (s0 & Hs & _).
    unfold per_cluster_swarms. by rewrite (swarm_lines_order iter1 iter2 _ _ Hs).
  - by destruct e1, e2.
Qed.

(** The candidates and the indexes of [example_followed], as the first
    stages compute them. *)
Lemma followed_seeds_computed :
  (p ← per_sample_stats_parse (per_sample_stats_file example_followed) PERCENTAGE;
   stats_parse (global_stats_file example_followed) p.1 p.2) = Ok followed_seeds
  ∧ swarms_parse elements (swarms_file example_followed) followed_seeds
    = Ok (shards_of_list [("A", 100); ("B", 40); ("C", 40); ("D", 5); ("E", 1);
                          ("1a", 30); ("1b", 10)],
          followed_global_seeds).
Proof. split; by_compute. Qed.

Lemma flagged_cluster_is_partitioned_witness :
  ∃ cl, cl ∈ [[("aa", {["aa"; "cc"; "ff"]}); ("bb", {["bb"]})]]
        ∧ cl.*1 = "aa" :: filter (λ a, is_candidate loose_seeds a = true) ["bb"; "cc"; "cc"]
        ∧ ⋃ cl.*2 = list_to_set ("aa" :: named [("aa", "bb"); ("aa", "cc"); ("ff", "cc")])
        ∧ ∀ a, holders a cl
               = if decide (a ∈ "aa" :: named [("aa", "bb"); ("aa", "cc"); ("ff", "cc")])
                 then 1%nat else 0%nat.
Proof.
  apply (flagged_cluster_is_partitioned loose_seeds loose_global_seeds
           [] (take 3 log_with_orphan) [] (row ["1a"; "1b"; "1"; "2"; "1"])
           (struct_init loose_seeds) "aa"
           [("aa", "bb"); ("aa", "cc"); ("ff", "cc")] 1 2 ("1a", "1b")).
  - reflexivity.
  - reflexivity.
  - vm_compute. discriminate.
  - repeat constructor; exists "1", "1"; eexists; split; vm_compute; reflexivity.
  - reflexivity.
  - apply (bool_decide_unpack _). vm_compute. exact I.
  - simpl. split; [left; split; by_compute|].
    split; [left; split; by_compute|].
    split; [right; repeat split; by_compute|done].
  - repeat constructor; eexists; vm_compute; reflexivity.
  - vm_compute. reflexivity.
  - exists "1", "2", "1". split; vm_compute; reflexivity.
  - discriminate.
  - vm_compute. reflexivity.
Defined.

(** C1, as it is stated, fails on [log_with_loose_edge].  The first cluster
    is flagged and is emitted, its edges name aa, bb, cc and dd, and the
    emitted sub-clusters hold aa and bb only. *)
Lemma loose_members_are_lost :
  "aa" ∈ values_of loose_global_seeds
  ∧ Forall2 (edge_line 1) (take 2 log_with_loose_edge) [("aa", "bb"); ("cc", "dd")]
  ∧ ∃ cl, struct_parse log_with_loose_edge loose_seeds loose_global_seeds = Ok [cl]
          ∧ ⋃ cl.*2 ≠ list_to_set ["aa"; "bb"; "cc"; "dd"].
Proof.
  split; [apply (bool_decide_unpack _); vm_compute; exact I|].
  split.
  { repeat constructor; exists "1", "1"; eexists; split; vm_compute; reflexivity. }
  eexists. split; [vm_compute; reflexivity|].
  apply (bool_decide_unpack _). vm_compute. exact I.
Qed.
(** ** Dictionaries in insertion order *)

Lemma dict_set_keys {V} (d : list (string * V)) k v :
  (dict_set d k v).*1 = if decide (k ∈ d.*1) then d.*1 else d.*1 ++ [k].
Proof.
  induction d as [|[k0 v0] d IH]; simpl.
  - done.
  - destruct (decide (k = k0)) as [->|Hne].
    + rewrite fmap_cons. by rewrite decide_True by left.
    + rewrite fmap_cons, IH. simpl. destruct (decide (k ∈ d.*1)).
      * by rewrite decide_True by (by right).
      * rewrite decide_False; [done|]. by intros [?|?]%elem_of_cons.
Qed.

Lemma dict_set_ok {V} (d : list (string * V)) k v :
  dict_ok d → dict_ok (dict_set d k v).
Proof.
  unfold dict_ok. intros Hd. rewrite dict_set_keys. destruct (decide _); [done|].
  apply NoDup_app. split; [done|]. split.
  - by intros x Hx ->%list_elem_of_singleton.
  - apply NoDup_singleton.
Qed.

Lemma elem_of_dict_set {V} (d : list (string * V)) k v k' v' :
  dict_ok d →
  (k', v') ∈ dict_set d k v ↔ (k' = k ∧ v' = v) ∨ ((k', v') ∈ d ∧ k' ≠ k).
Proof.
  unfold dict_ok. induction d as [|[k0 v0] d IH]; intros Hd; simpl.
  - rewrite list_elem_of_singleton. split.
    + intros [= -> ->]. by left.
    + intros [[-> ->]|[[]%elem_of_nil _]]. done.
  - rewrite fmap_cons in Hd. apply NoDup_cons in Hd as [Hk0 Hd]. simpl in Hk0.
    destruct (decide (k = k0)) as [->|Hne]; rewrite !elem_of_cons.
    + split.
      * intros [[= -> ->]|Hin]; [by left|]. right. split; [by right|].
        intros ->. apply Hk0. apply list_elem_of_fmap. by exists (k0, v').
      * intros [[-> ->]|[[[= -> ->]|Hin] Hne]]; [by left|done|by right].
    + rewrite (IH Hd). split.
      * intros [[= -> ->]|[[-> ->]|[Hin Hne']]]; [right; split; [by left|done]|by left|].
        right. split; [by right|done].
      * intros [[-> ->]|[[[= -> ->]|Hin] Hne']]; [right; by left|by left|].
        right. right. done.
Qed.

Lemma dict_del_Ok {V} (d d' : list (string * V)) k :
  dict_ok d → dict_del d k = Ok d' →
  dict_ok d' ∧ ∀ e, e ∈ d' ↔ e ∈ d ∧ e.1 ≠ k.
Proof.
  unfold dict_ok. revert d'. induction d as [|[k0 v0] d IH]; intros d' Hd; simpl; [done|].
  rewrite fmap_cons in Hd. apply NoDup_cons in Hd as [Hk0 Hd]. simpl in Hk0.
  destruct (decide (k = k0)) as [->|Hne].
  - intros [= <-]. split; [done|]. intros e. rewrite elem_of_cons. split.
    + intros He. split; [by right|]. intros Heq. apply Hk0. rewrite <- Heq.
      apply list_elem_of_fmap. by exists e.
    + by intros [[->|?] ?].
  - intros (d'' & Hdel & [= <-])%bind_Ok. destruct (IH _ Hd Hdel) as [Hok Hin].
    split.
    + rewrite fmap_cons. apply NoDup_cons. split; [|done]. simpl.
      intros ([k1 v1] & -> & [He _]%Hin)%list_elem_of_fmap.
      apply Hk0. apply list_elem_of_fmap. by exists (k1, v1).
    + intros e. rewrite !elem_of_cons, Hin. split.
      * intros [->|[? ?]]; [split; [by left|simpl; congruence]|split; [by right|done]].
      * intros [[->|?] ?]; [by left|by right].
Qed.

Lemma dict_get_elem {V} (d : list (string * V)) k v :
  dict_ok d → dict_get d k = Some v ↔ (k, v) ∈ d.
Proof.
  unfold dict_ok. induction d as [|[k0 v0] d IH]; intros Hd; simpl.
  - split; [done|by intros []%elem_of_nil].
  - rewrite fmap_cons in Hd. apply NoDup_cons in Hd as [Hk0 Hd]. simpl in Hk0.
    rewrite elem_of_cons. destruct (decide (k = k0)) as [->|Hne].
    + split.
      * intros [= ->]. by left.
      * intros [[= ->]|Hin]; [done|]. destruct Hk0.
        apply list_elem_of_fmap. by exists (k0, v).
    + rewrite (IH Hd). split; [by right|]. by intros [[= -> ->]|?].
Qed.

Lemma dict_get_None {V} (d : list (string * V)) k :
  dict_get d k = None ↔ k ∉ d.*1.
Proof.
  induction d as [|[k0 v0] d IH]; simpl.
  - split; [intros _; apply not_elem_of_nil|done].
  - rewrite not_elem_of_cons. destruct (decide (k = k0)) as [->|Hne].
    + split; [done|by intros [? _]].
    + rewrite IH. split; [done|by intros [_ ?]].
Qed.

Lemma index_head {A} (l : list A) x : Py.index l 0 = Ok x ↔ head l = Some x.
Proof.
  unfold Py.index. destruct l as [|y l]; simpl; [done|].
  replace (0 <? Z.pos (Pos.of_succ_nat (length l))) with true; simpl.
  - split; by intros [= ->].
  - symmetry. apply Z.ltb_lt. lia.
Qed.

Lemma for_each_cons {S A} (body : S → A → result (flow S)) st x l :
  for_each body st (x :: l)
  = match body st x with
    | Ok (Next st') => for_each body st' l
    | Ok (Break st') => Ok st'
    | Raise e => Raise e
    end.
Proof. done. Qed.

(** ** Sorted sub-clusters *)

Section finalize.

Variable iter : gset string → list string.
Variable sw : list (gmap string Z).

(** The body of the loop, as a case analysis. *)
Lemma finalize_Ok copy cluster members f :
  finalize iter sw copy (cluster, members) = Ok f ↔
  ∃ l0 first,
    with_abundance sw (iter members) = Ok l0
    ∧ head (stable_sort swarm_le l0) = Some first
    ∧ ((first.1 ≠ cluster
        ∧ ∃ copy', dict_del copy cluster = Ok copy'
                   ∧ f = Next (dict_set copy' first.1 (Swarm (stable_sort swarm_le l0))))
       ∨ (first.1 = cluster
          ∧ f = Next (dict_set copy cluster (Swarm (stable_sort swarm_le l0))))).
Proof.
  unfold finalize. split.
  - intros (l0 & Hl0 & (first & Hfirst%index_head & H)%bind_Ok)%bind_Ok.
    exists l0, first. split; [done|]. split; [done|].
    destruct (decide (first.1 ≠ cluster)) as [Hne|Heq].
    + left. split; [done|]. apply bind_Ok in H as (copy' & Hdel & [= <-]). eauto.
    + right. apply dec_stable in Heq. split; [done|]. by injection H as <-.
  - intros (l0 & first & Hl0 & Hfirst%index_head & H).
    rewrite Hl0. simpl. rewrite Hfirst. simpl.
    destruct H as [(Hne & copy' & Hdel & ->)|(Heq & ->)].
    + rewrite decide_True by done. by rewrite Hdel.
    + by rewrite decide_False by (intros ?; done).
Qed.

Lemma head_fst (l : list (string * Z)) first :
  head l = Some first → head l.*1 = Some first.1.
Proof. destruct l; [done|]. by intros [= ->]. Qed.

(** What holds of [new_clusters_with_abundance[i]] when the loop has the
    sub-clusters [remaining] of [super_cluster] left to process. *)
Lemma finalize_cluster_loop super_cluster : ∀ remaining copy result,
  remaining `suffix_of` super_cluster →
  dict_ok remaining →
  dict_ok copy →
  (∀ k s, (k, Members s) ∈ copy → k ∈ remaining.*1) →
  (∀ k l, (k, Swarm l) ∈ copy → elected iter sw super_cluster k l) →
  for_each (finalize iter sw) copy remaining = Ok result →
  dict_ok result
  ∧ ∀ k v, (k, v) ∈ result → ∃ l, v = Swarm l ∧ elected iter sw super_cluster k l.
Proof.
  induction remaining as [|[cluster members] remaining IH];
    intros copy result Hsuffix Hrem Hcopy Hmembers Hswarms.
  - intros [= <-]. split; [done|]. intros k [s|l] Hin.
    + by apply Hmembers, elem_of_nil in Hin.
    + exists l. split; [done|]. by apply Hswarms.
  - rewrite for_each_cons.
    destruct (finalize iter sw copy (cluster, members)) as [[copy1|copy1]|e] eqn:Hstep;
      [| |done].
    2:{ apply finalize_Ok in Hstep as (? & ? & _ & _ & [(_ & ? & _ & [=])|(_ & [=])]). }
    assert (Hin : (cluster, members) ∈ super_cluster).
    { destruct Hsuffix as [l ->]. apply elem_of_app. right. by left. }
    unfold dict_ok in Hrem. rewrite fmap_cons in Hrem.
    apply NoDup_cons in Hrem as [Hnew Hrem]. simpl in Hnew.
    apply finalize_Ok in Hstep as (l0 & first & Hl0 & Hfirst & Hcase).
    assert (Hel : elected iter sw super_cluster first.1 (stable_sort swarm_le l0)).
    { exists cluster, members, l0. repeat split; try done. by apply head_fst. }
    apply IH; [by apply suffix_cons_l in Hsuffix|done|..];
      destruct Hcase as [(Hne & copy' & Hdel & [= ->])|(Heq & [= ->])].
    + apply dict_set_ok. by apply (dict_del_Ok _ _ _ Hcopy Hdel).
    + by apply dict_set_ok.
    + destruct (dict_del_Ok _ _ _ Hcopy Hdel) as [Hok Hin'].
      intros k s [[_ [=]]|[[Hk Hk1]%Hin' _]]%elem_of_dict_set; [|done].
      apply Hmembers in Hk as [->|?]%elem_of_cons; [done|done].
    + intros k s [[_ [=]]|[Hk Hk1]]%elem_of_dict_set; [|done].
      apply Hmembers in Hk as [->|?]%elem_of_cons; [done|done].
    + destruct (dict_del_Ok _ _ _ Hcopy Hdel) as [Hok Hin'].
      intros k l [[-> [= ->]]|[[Hk Hk1]%Hin' _]]%elem_of_dict_set; [done| |done].
      by apply Hswarms.
    + intros k l [[-> [= ->]]|[Hk Hk1]]%elem_of_dict_set; [|by apply Hswarms|done].
      by rewrite <- Heq.
Qed.

Lemma finalize_cluster_elected super_cluster result :
  dict_ok super_cluster →
  finalize_cluster iter sw super_cluster = Ok result →
  dict_ok result
  ∧ ∀ k v, (k, v) ∈ result → ∃ l, v = Swarm l ∧ elected iter sw super_cluster k l.
Proof.
  intros Hok. unfold finalize_cluster. apply finalize_cluster_loop; try done.
  - unfold dict_ok. rewrite <- list_fmap_compose.
    by replace (fst ∘ prod_map id Members) with (@fst string (gset string)).
  - intros k s ([k' s'] & [= -> ->] & Hin)%list_elem_of_fmap.
    apply list_elem_of_fmap. by exists (k', s').
  - by intros k l ([k' s'] & [=] & _)%list_elem_of_fmap.
Qed.

Hypothesis order : iteration_order iter.

Lemma elected_sorted super_cluster k l :
  elected iter sw super_cluster k l →
  StronglySorted precedes l ∧ head l.*1 = Some k.
Proof.
  intros (cluster & members & l0 & _ & Hl0 & -> & Hhead). split; [|done].
  apply sorted_swarm_precedes.
  apply with_abundance_Ok in Hl0.
  assert (l0.*1 = iter members) as ->.
  { clear -Hl0. induction Hl0 as [|a p l r [Hp _] _ IH]; [done|].
    rewrite fmap_cons. by f_equal. }
  rewrite (order members). apply NoDup_elements.
Qed.

End finalize.

Lemma add_abundance_values_order iter iter' ncs sw result :
  iteration_order iter → iteration_order iter' →
  add_abundance_values iter ncs sw = Ok result →
  add_abundance_values iter' ncs sw = Ok result.
Proof.
  intros H1 H2 Hrun.
  destruct (add_abundance_values_similar iter iter' ncs sw (orders_agree _ _ H1 H2))
    as [Heq|(e1 & e2 & He1 & _)]; congruence.
Qed.

Lemma add_abundance_values_sorted (iter : gset string → list string)
    (sw : list (gmap string Z)) (ncs : list (list (string * gset string)))
    (result : list (list (string * entry))) :
  iteration_order iter →
  Forall dict_ok ncs →
  add_abundance_values iter ncs sw = Ok result →
  Forall2 (λ super_cluster emitted,
             dict_ok emitted
             ∧ ∀ key value, (key, value) ∈ emitted →
                 ∃ l, value = Swarm l
                      ∧ elected iter sw super_cluster key l
                      ∧ StronglySorted precedes l
                      ∧ head l.*1 = Some key)
          ncs result.
Proof.
  intros Horder Hok. revert result.
  induction Hok as [|sc ncs Hsc Hok IH]; intros result; simpl.
  - intros [= <-]. constructor.
  - intros (c & Hc & (cs & Hcs & [= <-])%bind_Ok)%bind_Ok.
    constructor; [|by apply IH].
    destruct (finalize_cluster_elected iter sw sc c Hsc Hc) as [Hdict Hel].
    split; [done|]. intros key value Hin.
    destruct (Hel key value Hin) as (l & -> & Hl).
    destruct (elected_sorted iter sw Horder sc key l Hl) as [Hsorted Hhead].
    exists l. by repeat split.
Qed.

(** The sub-clusters that [add_abundance_values] returns hold sorted
    lists, each with a first amplicon. *)
Lemma add_abundance_values_items (iter : gset string → list string)
    (sw : list (gmap string Z)) (ncs : list (list (string * gset string)))
    (result : list (list (string * entry))) :
  iteration_order iter →
  Forall dict_ok ncs →
  add_abundance_values iter ncs sw = Ok result →
  Forall (λ item : string * entry,
            ∃ l first, item.2 = Swarm l ∧ head l = Some first
                       ∧ StronglySorted precedes l ∧ first.1 = item.1)
    (concat result).
Proof.
  intros Horder Hncs Hrun.
  pose proof (add_abundance_values_sorted iter sw ncs result Horder Hncs Hrun) as Hall.
  apply Forall_concat. clear -Hall.
  induction Hall as [|sc e ncs c [_ He] _ IH]; constructor; [|done].
  apply Forall_forall. intros [key value] Hin.
  destruct (He key value Hin) as (l & -> & _ & Hsorted & Hhead).
  destruct l as [|first l]; [done|]. exists (first :: l), first.
  simpl in Hhead. injection Hhead as <-. by repeat split.
Qed.

Lemma swarm_lines_written (iter : gset string → list string)
    (items : list (string * entry)) :
  Forall (λ item : string * entry,
            ∃ l first, item.2 = Swarm l ∧ head l = Some first
                       ∧ StronglySorted precedes l ∧ first.1 = item.1) items →
  ∃ lines,
    swarm_lines iter items = (lines, Ok ())
    ∧ Forall2 (λ item line,
                 ∃ l, item.2 = Swarm l
                      ∧ StronglySorted precedes l
                      ∧ head l.*1 = Some item.1
                      ∧ line = String.concat " "
                                 ((λ t, t.1 +:+ ";size=" +:+ Py.str t.2) <$> l))
        items lines.
Proof.
  induction 1 as [|[key value] items (l & first & Hl & Hfirst & Hsorted & Hkey) _ IH].
  - exists []. by split.
  - destruct IH as (lines & Hlines & Hall). simpl in Hl, Hkey. subst value.
    cbn [swarm_lines]. unfold swarm_line. simpl. rewrite Hlines.
    eexists. split; [done|]. constructor; [|done]. exists l.
    split; [done|]. split; [done|]. split; [|done].
    destruct l; [done|]. simpl in *. by injection Hfirst as ->; subst.
Qed.

Lemma stats_of_written (items : list (string * entry)) :
  Forall (λ item : string * entry,
            ∃ l first, item.2 = Swarm l ∧ head l = Some first
                       ∧ StronglySorted precedes l ∧ first.1 = item.1) items →
  is_ok (stats_of items).
Proof.
  induction 1 as [|[key value] items (l & first & Hl & Hfirst & _) _ [records IH]].
  - by eexists.
  - simpl in Hl. subst value. cbn [stats_of stat_of].
    apply index_head in Hfirst. rewrite Hfirst. simpl.
    destruct (tally l) as [t o]. simpl. rewrite IH. simpl. by eexists.
Qed.

(** C4.  In every emitted sub-cluster the members are listed by decreasing
    abundance, ties by increasing identifier, and the first of them is the
    elected seed, the key of the sub-cluster.  [per_cluster_swarms] writes
    one line per emitted sub-cluster, in the order of the sub-clusters, and
    the line lists the tokens [amplicon;size=abundance] of the sub-cluster
    in that order, separated by a space; these are the lines of the
    membership file of a run that comes to these sub-clusters.  The result
    is the same for every order in which the members of the sets are
    visited. *)
Theorem elected_seed_and_member_order (iter : gset string → list string)
    (sw : list (gmap string Z)) (ncs : list (list (string * gset string)))
    (result : list (list (string * entry))) :
  iteration_order iter →
  Forall dict_ok ncs →
  add_abundance_values iter ncs sw = Ok result →
  Forall2 (λ super_cluster emitted,
             dict_ok emitted
             ∧ ∀ key value, (key, value) ∈ emitted →
                 ∃ l, value = Swarm l
                      ∧ elected iter sw super_cluster key l
                      ∧ StronglySorted precedes l
                      ∧ head l.*1 = Some key)
          ncs result
  ∧ (∃ lines,
       per_cluster_swarms iter result = (lines, Ok ())
       ∧ Forall2 (λ item line,
                    ∃ l, item.2 = Swarm l
                         ∧ StronglySorted precedes l
                         ∧ head l.*1 = Some item.1
                         ∧ line = String.concat " "
                                    ((λ t, t.1 +:+ ";size=" +:+ Py.str t.2) <$> l))
           (concat result) lines
       ∧ ∀ input, cleave iter input = Ok result →
                  new_swarms_file (main iter input) = Some lines)
  ∧ ∀ iter', iteration_order iter' → add_abundance_values iter' ncs sw = Ok result.
Proof.
  intros Horder Hok Hrun. split; [by apply add_abundance_values_sorted|]. split.
  - pose proof (add_abundance_values_items iter sw ncs result Horder Hok Hrun) as Hitems.
    destruct (swarm_lines_written iter _ Hitems) as (lines & Hlines & Hall).
    exists lines. split; [done|]. split; [done|].
    intros input Hc. destruct (stats_of_written _ Hitems) as [records Hrecords].
    unfold main, per_cluster_stats, per_cluster_swarms.
    rewrite Hc. simpl. rewrite Hrecords. simpl. rewrite Hlines.
    by destruct (fasta_parse _ _).
  - intros iter' Horder'. by apply (add_abundance_values_order iter).
Qed.

Lemma elected_seed_and_member_order_witness :
  Forall2 (λ super_cluster emitted,
             dict_ok emitted
             ∧ ∀ key value, (key, value) ∈ emitted →
                 ∃ l, value = Swarm l
                      ∧ elected elements tied_swarms super_cluster key l
                      ∧ StronglySorted precedes l
                      ∧ head l.*1 = Some key)
          [[("bb", {["bb"; "aa"]})]] [[("aa", Swarm [("aa", 10); ("bb", 10)])]]
  ∧ (∃ lines,
       per_cluster_swarms elements [[("aa", Swarm [("aa", 10); ("bb", 10)])]]
       = (lines, Ok ())
       ∧ Forall2 (λ item line,
                    ∃ l, item.2 = Swarm l
                         ∧ StronglySorted precedes l
                         ∧ head l.*1 = Some item.1
                         ∧ line = String.concat " "
                                    ((λ t, t.1 +:+ ";size=" +:+ Py.str t.2) <$> l))
           (concat [[("aa", Swarm [("aa", 10); ("bb", 10)])]]) lines
       ∧ ∀ input, cleave elements input = Ok [[("aa", Swarm [("aa", 10); ("bb", 10)])]] →
                  new_swarms_file (main elements input) = Some lines)
  ∧ ∀ iter', iteration_order iter' →
             add_abundance_values iter' [[("bb", {["bb"; "aa"]})]] tied_swarms
             = Ok [[("aa", Swarm [("aa", 10); ("bb", 10)])]].
Proof.
  apply (elected_seed_and_member_order elements tied_swarms).
  - intros s. reflexivity.
  - repeat constructor; by_compute.
  - by_compute.
Defined.

(** ** Seed drift *)

Lemma ltb_negb_leb s1 s2 : String.ltb s2 s1 = negb (String.leb s1 s2).
Proof.
  unfold String.ltb, String.leb. rewrite (String.compare_antisym s1 s2).
  by destruct (String.compare s2 s1).
Qed.

Lemma swarm_le_tie a b n : swarm_le (a, n) (b, n) = String.leb a b.
Proof.
  unfold swarm_le. simpl. rewrite Z.ltb_irrefl, Z.eqb_refl. done.
Qed.

(** C5, as the code has it.  When the first member of the sorted list is
    not the key of the sub-cluster, the sorted list is stored under that
    member and the old key is removed.  A sub-cluster of two members X and Y
    with the same abundance and the key X drifts to Y when Y is smaller than
    X, and keeps X when Y is greater. *)
Theorem seed_drift_rekeys (iter : gset string → list string)
    (sw : list (gmap string Z)) :
  iteration_order iter →
  (∀ copy cluster members f,
     dict_ok copy →
     finalize iter sw copy (cluster, members) = Ok f →
     ∃ seed l,
       head l.*1 = Some seed
       ∧ dict_get (flow_state f) seed = Some (Swarm l)
       ∧ (seed ≠ cluster → dict_get (flow_state f) cluster = None))
  ∧ (∀ X Y n,
       X ≠ Y → abundance_of sw X = Ok n → abundance_of sw Y = Ok n →
       add_abundance_values iter [[(X, {[X; Y]})]] sw
       = Ok [[if String.ltb Y X
              then (Y, Swarm [(Y, n); (X, n)])
              else (X, Swarm [(X, n); (Y, n)])]]).
Proof.
  intros Horder. split.
  - intros copy cluster members f Hcopy Hf.
    apply finalize_Ok in Hf as (l0 & first & Hl0 & Hfirst & Hcase).
    exists first.1, (stable_sort swarm_le l0). split; [by apply head_fst|].
    destruct Hcase as [(Hne & copy' & Hdel & ->)|(Heq & ->)]; simpl.
    + destruct (dict_del_Ok _ _ _ Hcopy Hdel) as [Hok Hin]. split.
      * apply dict_get_elem; [by apply dict_set_ok|].
        apply elem_of_dict_set; [done|]. by left.
      * intros _. apply dict_get_None. rewrite dict_set_keys.
        assert (cluster ∉ copy'.*1).
        { intros (e & -> & [_ He]%Hin)%list_elem_of_fmap. done. }
        destruct (decide _); [done|].
        rewrite elem_of_app, list_elem_of_singleton. intros [?|?]; [done|].
        by apply Hne.
    + split; [|done]. rewrite Heq. apply dict_get_elem; [by apply dict_set_ok|].
      apply elem_of_dict_set; [done|]. by left.
  - intros X Y n Hne HX HY.
    assert (Hperm : [X; Y] ≡ₚ iter {[X; Y]}).
    { rewrite (Horder _), elements_union_singleton by set_solver.
      by rewrite elements_singleton. }
    assert (H0 : with_abundance sw [X; Y] = Ok [(X, n); (Y, n)])
      by (simpl; rewrite HX, HY; done).
    destruct (with_abundance_perm _ _ _ _ Hperm H0) as (l & Hl & Hpl).
    assert (Hsort : stable_sort swarm_le l
                    = if String.ltb Y X then [(Y, n); (X, n)] else [(X, n); (Y, n)]).
    { rewrite <- (stable_sort_unique swarm_le swarm_le_total swarm_le_trans
                    swarm_le_antisym _ _ Hpl).
      simpl. rewrite swarm_le_tie, ltb_negb_leb. by destruct (String.leb X Y). }
    simpl. unfold finalize_cluster. simpl. rewrite Hl. simpl. rewrite Hsort.
    destruct (String.ltb Y X); simpl.
    + rewrite decide_True by done. simpl. rewrite decide_True by done. done.
    + rewrite decide_False by (intros ?; done). simpl. rewrite decide_True by done. done.
Qed.

Lemma seed_drift_rekeys_witness :
  (∀ copy cluster members f,
     dict_ok copy →
     finalize elements tied_swarms copy (cluster, members) = Ok f →
     ∃ seed l,
       head l.*1 = Some seed
       ∧ dict_get (flow_state f) seed = Some (Swarm l)
       ∧ (seed ≠ cluster → dict_get (flow_state f) cluster = None))
  ∧ (∀ X Y n,
       X ≠ Y → abundance_of tied_swarms X = Ok n → abundance_of tied_swarms Y = Ok n →
       add_abundance_values elements [[(X, {[X; Y]})]] tied_swarms
       = Ok [[if String.ltb Y X
              then (Y, Swarm [(Y, n); (X, n)])
              else (X, Swarm [(X, n); (Y, n)])]]).
Proof.
  apply (seed_drift_rekeys elements tied_swarms).
  intros s. reflexivity.
Defined.

(** C5, as it is stated, fails: bb is the key, aa has the same abundance
    and is smaller than bb, and the sub-cluster drifts to aa, whichever of
    the two members is visited first. *)
Lemma tie_with_smaller_member_drifts :
  String.ltb "aa" "bb" = true
  ∧ add_abundance_values (λ _, ["bb"; "aa"]) [[("bb", {["bb"; "aa"]})]] tied_swarms
    = Ok [[("aa", Swarm [("aa", 10); ("bb", 10)])]]
  ∧ add_abundance_values (λ _, ["aa"; "bb"]) [[("bb", {["bb"; "aa"]})]] tied_swarms
    = Ok [[("aa", Swarm [("aa", 10); ("bb", 10)])]].
Proof. repeat split; by_compute. Qed.
(** ** Order of the statistics *)

Lemma by_label_total x y : by_label x y = true ∨ by_label y x = true.
Proof. apply String.leb_total. Qed.

Lemma by_label_trans x y z :
  by_label x y = true → by_label y z = true → by_label x z = true.
Proof. apply leb_trans. Qed.

Lemma by_size_reversed_spec x y :
  by_size_reversed x y = true ↔
  total_abundance y < total_abundance x
  ∨ (total_abundance y = total_abundance x ∧ uniques y ≤ uniques x).
Proof.
  unfold by_size_reversed.
  rewrite orb_true_iff, andb_true_iff, Z.ltb_lt, Z.eqb_eq, Z.leb_le. done.
Qed.

Lemma by_size_reversed_total x y :
  by_size_reversed x y = true ∨ by_size_reversed y x = true.
Proof. rewrite !by_size_reversed_spec. lia. Qed.

Lemma by_size_reversed_trans x y z :
  by_size_reversed x y = true → by_size_reversed y z = true →
  by_size_reversed x z = true.
Proof. rewrite !by_size_reversed_spec. lia. Qed.

Lemma StronglySorted_weaken {A} (R1 R2 : relation A) l :
  (∀ x y, R1 x y → R2 x y) → StronglySorted R1 l → StronglySorted R2 l.
Proof.
  intros HR. induction 1 as [|x l _ IH Hx]; constructor; [done|].
  eapply Forall_impl; [done|]. apply HR.
Qed.

Lemma per_cluster_stats_sorted c new_stats :
  per_cluster_stats c = Ok new_stats → StronglySorted stat_precedes new_stats.
Proof.
  unfold per_cluster_stats. intros (l & _ & [= <-])%bind_Ok.
  eapply StronglySorted_weaken;
    [|apply (stable_sort_keeps_order by_size_reversed by_size_reversed_total
               by_size_reversed_trans (λ x y, by_label x y = true)),
        (stable_sort_StronglySorted by_label by_label_total by_label_trans)].
  intros x y [Hxy Hyx]. simpl in Hxy, Hyx. apply by_size_reversed_spec in Hxy.
  unfold stat_precedes.
  destruct Hxy as [?|[Ht Hu]]; [by left|]. right. split; [done|].
  destruct (decide (uniques y < uniques x)); [by left|]. right. split; [lia|].
  apply Hyx, by_size_reversed_spec. lia.
Qed.

(** ** Sub-clusters are dictionaries *)

Lemma attach_son_keys father son cl cl' :
  attach_son father son cl = Some cl' → cl'.*1 = cl.*1.
Proof.
  revert cl'. induction cl as [|[d members] cl IH]; intros cl'; simpl; [done|].
  destruct (decide _); [by intros [= <-]|].
  destruct (attach_son father son cl) as [cl''|]; [|done].
  intros [= <-]. simpl. f_equal. by apply IH.
Qed.

Lemma populate_keys father son cl : (populate father son cl).*1 = cl.*1.
Proof.
  unfold populate. destruct (attach_son father son cl) eqn:H.
  - by apply attach_son_keys in H.
  - unfold attach_father. rewrite <- list_fmap_compose. apply list_fmap_ext.
    intros _ [d members] _. simpl. by destruct (decide _).
Qed.

Lemma struct_line_dict_ok seeds gss st line f :
  dict_ok (clusters st) → Forall dict_ok (new_clusters st) →
  struct_line seeds gss st line = Ok f →
  dict_ok (clusters (flow_state f)) ∧ Forall dict_ok (new_clusters (flow_state f)).
Proof.
  intros Hcl Hnew. unfold struct_line. intros H.
  apply bind_Ok in H as ([[[[father son] diffs] cluster_id] steps] & _ & H).
  apply bind_Ok in H as (id & _ & H).
  set (st1 := if decide (id ≠ previous_cluster_id st) then _ else st) in H.
  assert (H1 : dict_ok (clusters st1) ∧ Forall dict_ok (new_clusters st1)).
  { unfold st1. destruct (decide _); [|done]. simpl. split.
    - destruct (bool_decide _); [apply NoDup_singleton|apply NoDup_nil_2].
    - destruct (clusters st) eqn:Heq; [done|]. apply Forall_app. split; [done|].
      by constructor. }
  clearbody st1. destruct H1 as [Hcl1 Hnew1].
  destruct (number_of_seeds st1 =? 0); [by inversion H; subst|].
  destruct (has_a_local_seed st1) as [[]|]; [| by inversion H; subst | done].
  apply bind_Ok in H as (i & _ & H). apply bind_Ok in H as (d & _ & H).
  destruct (d !! son); inversion H; subst; simpl; split; try done.
  - by apply dict_set_ok.
  - unfold dict_ok. by rewrite populate_keys.
Qed.

Lemma struct_parse_dict_ok file seeds global_seeds ncs :
  struct_parse file seeds global_seeds = Ok ncs → Forall dict_ok ncs.
Proof.
  unfold struct_parse. intros (st & Hst & [= <-])%bind_Ok.
  revert Hst.
  apply (for_each_invariant _
           (λ st, dict_ok (clusters st) ∧ Forall dict_ok (new_clusters st)));
    [|split; [apply NoDup_nil_2|constructor]].
  intros s x f [? ?] Hx. by apply (struct_line_dict_ok _ _ _ _ _ ltac:(done) ltac:(done) Hx).
Qed.

(** C10.  Two runs on the same files that visit the elements of the sets in
    different orders write the same three files and end with the same
    status.  The statistics are written by decreasing total abundance, then
    decreasing number of amplicons, then increasing seed; the members of
    every sub-cluster are listed by decreasing abundance, then increasing
    identifier. *)
Theorem runs_are_deterministic (iter1 iter2 : gset string → list string)
    (input : files) :
  iteration_order iter1 → iteration_order iter2 →
  observable (main iter1 input) = observable (main iter2 input)
  ∧ ∀ c, cleave iter1 input = Ok c →
         cleave iter2 input = Ok c
         ∧ Forall (Forall (λ item, ∃ l, item.2 = Swarm l ∧ StronglySorted precedes l)) c
         ∧ ∀ new_stats, per_cluster_stats c = Ok new_stats →
             StronglySorted stat_precedes new_stats
             ∧ new_stats_file (main iter1 input) = Some (stat_line <$> new_stats).
Proof.
  intros H1 H2. split; [by apply main_observable, orders_agree|].
  intros c Hc. split; [|split].
  - destruct (cleave_similar iter1 iter2 input (orders_agree _ _ H1 H2))
      as [Heq|(e1 & e2 & He1 & _)]; congruence.
  - unfold cleave in Hc.
    apply bind_Ok in Hc as ([threshold seeds] & _ & Hc).
    apply bind_Ok in Hc as (seeds' & _ & Hc).
    apply bind_Ok in Hc as ([sw gs] & _ & Hc).
    apply bind_Ok in Hc as (ncs & Hncs%struct_parse_dict_ok & Hc).
    pose proof (add_abundance_values_sorted iter1 sw ncs c H1 Hncs Hc) as Hall.
    clear -Hall. induction Hall as [|sc e ncs c [_ He] _ IH]; constructor; [|done].
    apply Forall_forall. intros [key value] Hin.
    destruct (He key value Hin) as (l & -> & _ & Hsorted & _). by exists l.
  - intros new_stats Hstats. split; [by apply (per_cluster_stats_sorted c)|].
    unfold main. rewrite Hc. simpl. rewrite Hstats. simpl.
    destruct (per_cluster_swarms iter1 c) as [lines [[]|e]]; [|done].
    by destruct (fasta_parse _ _).
Qed.

Lemma runs_are_deterministic_witness :
  observable (main elements example_followed)
  = observable (main (λ s, reverse (elements s)) example_followed)
  ∧ ∀ c, cleave elements example_followed = Ok c →
         cleave (λ s, reverse (elements s)) example_followed = Ok c
         ∧ Forall (Forall (λ item, ∃ l, item.2 = Swarm l ∧ StronglySorted precedes l)) c
         ∧ ∀ new_stats, per_cluster_stats c = Ok new_stats →
             StronglySorted stat_precedes new_stats
             ∧ new_stats_file (main elements example_followed)
               = Some (stat_line <$> new_stats).
Proof.
  apply (runs_are_deterministic elements (λ s, reverse (elements s)) example_followed).
  - intros s. reflexivity.
  - intros s. apply reverse_Permutation.
Defined.

(** ** The end-to-end example *)

(** The run on [example_followed], where the cluster of the example is not
    the last one: its two sub-clusters are emitted, the cluster of 1a that
    ends the merge log is not. *)
Lemma followed_example_run :
  cleave elements example_followed
  = Ok [[("A", Swarm [("A", 100); ("D", 5); ("E", 1)]);
         ("B", Swarm [("B", 40); ("C", 40)])]]
  ∧ main elements example_followed
    = {| new_stats_file :=
           Some [String.concat (String Py.tab "") ["3"; "106"; "A"; "100"; "1"; "0"; "0"];
                 String.concat (String Py.tab "") ["2"; "80"; "B"; "40"; "0"; "0"; "0"]];
         new_swarms_file :=
           Some ["A;size=100 D;size=5 E;size=1"; "B;size=40 C;size=40"];
         new_representatives_file :=
           Some [">A;size=106"; "ACGT"; ">B;size=80"; "ACGA"];
         outcome := Ok () |}.
Proof. split; by_compute. Qed.

(** C3: what the code does on the example.  B is the only candidate left
    after the first two stages and A is its global seed.  The scan of the
    merge log finds B on the first record and stops on the second, before
    the cluster is saved: no sub-cluster is emitted, the statistics and
    membership files are written empty, and the run ends with an error when
    it looks for the least seed abundance. *)
Theorem end_to_end_example_emits_nothing (iter : gset string → list string) :
  iteration_order iter →
  (p ← per_sample_stats_parse (per_sample_stats_file example) PERCENTAGE;
   stats_parse (global_stats_file example) p.1 p.2) = Ok example_seeds
  ∧ keys_of example_seeds = {["B"]}
  ∧ struct_parse (struct_file example) example_seeds example_global_seeds = Ok []
  ∧ cleave iter example = Ok []
  ∧ observable (main iter example) = (Some [], Some [], None, 1).
Proof.
  intros Horder.
  assert (Hagree : ∀ s, iter s ≡ₚ elements s) by done.
  split; [by_compute|]. split; [by_compute|]. split; [by_compute|]. split.
  - destruct (cleave_similar iter elements example Hagree) as [->|(e1 & e2 & _ & He2 & _)].
    + by_compute.
    + exfalso. revert He2. by_compute.
  - rewrite (main_observable iter elements example Hagree). by_compute.
Qed.

Lemma end_to_end_example_emits_nothing_witness :
  (p ← per_sample_stats_parse (per_sample_stats_file example) PERCENTAGE;
   stats_parse (global_stats_file example) p.1 p.2) = Ok example_seeds
  ∧ keys_of example_seeds = {["B"]}
  ∧ struct_parse (struct_file example) example_seeds example_global_seeds = Ok []
  ∧ cleave elements example = Ok []
  ∧ observable (main elements example) = (Some [], Some [], None, 1).
Proof.
  apply (end_to_end_example_emits_nothing elements).
  intros s. reflexivity.
Defined.
(** ** Records of the per-sample statistics *)

Lemma unpack5_short {A} (l : list A) :
  (length l < 5)%nat → Py.unpack5 (take 5 l) = Raise ValueError.
Proof.
  intros Hl. destruct l as [|a [|b [|c [|d [|e l]]]]]; simpl in *; try done. lia.
Qed.

Lemma shards_index {V} (sh : list (gmap string V)) key i :
  length sh = 256%nat → shard_of key = Ok i →
  ∃ j d, slot 256 i = Some j ∧ sh !! j = Some d ∧ Py.index sh i = Ok d
         ∧ ∀ d', Py.set_index sh i d' = Ok (<[j := d']> sh).
Proof.
  intros Hlen Hi. destruct (shard_of_slot _ _ Hi) as [j Hj].
  destruct (lookup_lt_is_Some_2 sh j) as [d Hd].
  { rewrite Hlen. by apply slot_lt in Hj. }
  exists j, d. repeat split; try done.
  - apply index_Ok. exists j. by rewrite Hlen.
  - intros d'. apply set_index_Ok. exists j. by rewrite Hlen.
Qed.

Lemma sample_line_long st line a b c d e rest :
  fields line = a :: b :: c :: d :: e :: rest →
  sample_line st line
  = (index ← shard_of d;
     m ← Py.index (per_sample_stats st) index;
     stats ← Py.set_index (per_sample_stats st) index
               (match m !! d with
                | Some n => <[d := n + 1]> m
                | None => <[d := 1]> m
                end);
     if decide (Some a ≠ previous_sample st) then
       Ok (Next {| per_sample_stats := stats;
                   number_of_samples := number_of_samples st + 1;
                   previous_sample := Some a |})
     else
       Ok (Next {| per_sample_stats := stats;
                   number_of_samples := number_of_samples st;
                   previous_sample := previous_sample st |})).
Proof. intros Hf. unfold sample_line. fold (fields line). by rewrite Hf. Qed.

Lemma sample_line_rejected st line :
  rejected line → sample_line st line = Raise ValueError.
Proof.
  intros [Hshort|(seed & Hseed & e & He)].
  - unfold sample_line. fold (fields line). by rewrite unpack5_short.
  - unfold seed_of in Hseed.
    destruct (fields line) as [|a [|b [|c [|d [|e' rest]]]]] eqn:Hf; try done.
    + unfold sample_line. fold (fields line). by rewrite Hf.
    + injection Hseed as ->. rewrite (sample_line_long _ _ _ _ _ _ _ _ Hf), He.
      simpl. by apply shard_of_error in He as ->.
Qed.

Lemma sample_line_total st line :
  length (per_sample_stats st) = 256%nat →
  sample_line st line = Raise ValueError
  ∨ ∃ st', sample_line st line = Ok (Next st')
           ∧ length (per_sample_stats st') = 256%nat.
Proof.
  intros Hlen.
  destruct (fields line) as [|a [|b [|c [|d [|e' rest]]]]] eqn:Hf;
    try (left; apply sample_line_rejected; left; rewrite Hf; simpl; lia).
  rewrite (sample_line_long _ _ _ _ _ _ _ _ Hf).
  destruct (shard_of d) as [i|err] eqn:Hi; simpl.
  - right. destruct (shards_index _ _ _ Hlen Hi) as (j & m & Hj & Hm & -> & Hset). simpl.
    rewrite Hset. simpl.
    destruct (decide _); eexists; (split; [done|]); simpl; by rewrite length_insert.
  - left. by apply shard_of_error in Hi as ->.
Qed.

Lemma sample_loop_aborts file : ∀ st,
  length (per_sample_stats st) = 256%nat →
  (∃ line, line ∈ file ∧ rejected line) →
  for_each sample_line st file = Raise ValueError.
Proof.
  induction file as [|line file IH]; intros st Hlen (bad & Hin & Hbad).
  - by apply elem_of_nil in Hin.
  - rewrite for_each_cons.
    apply elem_of_cons in Hin as [->|Hin].
    + by rewrite (sample_line_rejected st line Hbad).
    + destruct (sample_line_total st line Hlen) as [->|(st' & -> & Hlen')]; [done|].
      apply IH; [done|]. by exists bad.
Qed.

Lemma sample_loop_length file st st' :
  length (per_sample_stats st) = 256%nat →
  for_each sample_line st file = Ok st' →
  length (per_sample_stats st') = 256%nat.
Proof.
  intros Hlen. revert Hlen.
  apply (for_each_invariant _ (λ s, length (per_sample_stats s) = 256%nat)).
  intros s x f Hs Hx.
  destruct (sample_line_total s x Hs) as [?|(s' & ? & ?)]; [congruence|].
  replace f with (Next s') by congruence. done.
Qed.

Lemma rejected_record_aborts file percentage :
  (∃ line, line ∈ file ∧ rejected line) →
  per_sample_stats_parse file percentage = Raise ValueError.
Proof.
  intros Hbad. unfold per_sample_stats_parse.
  by rewrite (sample_loop_aborts file sample_init).
Qed.

Lemma rejected_record_aborts_run iter input :
  (∃ line, line ∈ per_sample_stats_file input ∧ rejected line) →
  main iter input = aborted ValueError.
Proof.
  intros Hbad. unfold main, cleave.
  by rewrite (rejected_record_aborts _ PERCENTAGE Hbad).
Qed.

(** ** Fields are counted on the stripped line *)

Lemma split_length_pos sep s : (1 ≤ length (Py.split sep s))%nat.
Proof.
  induction s as [|c s IH]; simpl; [lia|].
  destruct (Ascii.eqb c sep); simpl; [lia|].
  destruct (Py.split sep s); simpl in *; lia.
Qed.

Lemma split_length_String sep c s :
  length (Py.split sep (String c s))
  = ((if Ascii.eqb c sep then 1 else 0) + length (Py.split sep s))%nat.
Proof.
  pose proof (split_length_pos sep s). cbn [Py.split].
  destruct (Ascii.eqb c sep); [done|].
  destruct (Py.split sep s); simpl in *; [lia|done].
Qed.

Lemma split_length_lstrip sep s :
  (length (Py.split sep (Py.lstrip s)) ≤ length (Py.split sep s))%nat.
Proof.
  induction s as [|c s IH]; [done|]. cbn [Py.lstrip].
  destruct (Py.isspace c); [|done]. rewrite split_length_String. lia.
Qed.

Lemma split_length_rstrip sep s :
  (length (Py.split sep (Py.rstrip s)) ≤ length (Py.split sep s))%nat.
Proof.
  induction s as [|c s IH]; [done|]. cbn [Py.rstrip].
  rewrite (split_length_String sep c s).
  destruct (Py.rstrip s) as [|c' r] eqn:Hr.
  - pose proof (split_length_pos sep s).
    destruct (Py.isspace c); [simpl; lia|].
    rewrite split_length_String. simpl. destruct (Ascii.eqb c sep); lia.
  - rewrite (split_length_String sep c). lia.
Qed.

(** Stripping a line loses fields, and adds none. *)
Lemma fields_length line : (length (fields line) ≤ length (tab_separated line))%nat.
Proof.
  unfold fields, tab_separated, Py.strip.
  etransitivity; [apply split_length_rstrip|apply split_length_lstrip].
Qed.

(** C8, as the code has it.  A record with fewer than five tab-separated
    fields makes the whole run stop with [ValueError], status 1, before any
    file is written; so does a record that has fewer than five fields once
    it is stripped of the white space around it, which is when the script
    counts them.  A record with five fields or more once stripped is
    accepted when the prefix of its seed, the fourth field, is a hexadecimal
    number; what follows the fifth field is ignored. *)
Theorem short_record_aborts (file : list string) (percentage : F64.t) :
  (∃ line, line ∈ file
           ∧ ((length (tab_separated line) < 5)%nat ∨ (length (fields line) < 5)%nat)) →
  per_sample_stats_parse file percentage = Raise ValueError
  ∧ (∀ iter input,
       per_sample_stats_file input = file →
       main iter input = aborted ValueError
       ∧ exit_status (outcome (main iter input)) = 1)
  ∧ (∀ before st line a b c d e rest,
       for_each sample_line sample_init before = Ok st →
       fields line = a :: b :: c :: d :: e :: rest →
       is_ok (shard_of d) →
       ∃ st', sample_line st line = Ok (Next st')
              ∧ ∀ line', fields line' = [a; b; c; d; e] →
                         sample_line st line' = Ok (Next st')).
Proof.
  intros (bad & Hin & Hshort).
  assert (Hbad : ∃ line, line ∈ file ∧ rejected line).
  { exists bad. split; [done|]. left. pose proof (fields_length bad). lia. }
  split; [by apply rejected_record_aborts|]. split.
  - intros iter input <-. by rewrite (rejected_record_aborts_run iter input Hbad).
  - intros before st line a b c d e rest Hst Hf [i Hi].
    apply sample_loop_length in Hst; [|done].
    destruct (sample_line_total st line Hst) as [Herr|(st' & Hok & _)].
    + rewrite (sample_line_long _ _ _ _ _ _ _ _ Hf), Hi in Herr. simpl in Herr.
      destruct (shards_index _ _ _ Hst Hi) as (j & m & Hj & Hm & Hidx & Hset).
      rewrite Hidx in Herr. simpl in Herr. rewrite Hset in Herr. simpl in Herr.
      by destruct (decide _).
    + exists st'. split; [done|]. intros line' Hf'.
      rewrite <- Hok. by rewrite (sample_line_long _ _ _ _ _ _ _ _ Hf),
        (sample_line_long _ _ _ _ _ _ _ _ Hf').
Qed.

Lemma short_record_aborts_witness :
  per_sample_stats_parse [row ["s1"; "3"; "106"; "A"; "100"]; row ["s1"; "2"; "80"; "B"]]
    PERCENTAGE = Raise ValueError
  ∧ (∀ iter input,
       per_sample_stats_file input
       = [row ["s1"; "3"; "106"; "A"; "100"]; row ["s1"; "2"; "80"; "B"]] →
       main iter input = aborted ValueError
       ∧ exit_status (outcome (main iter input)) = 1)
  ∧ (∀ before st line a b c d e rest,
       for_each sample_line sample_init before = Ok st →
       fields line = a :: b :: c :: d :: e :: rest →
       is_ok (shard_of d) →
       ∃ st', sample_line st line = Ok (Next st')
              ∧ ∀ line', fields line' = [a; b; c; d; e] →
                         sample_line st line' = Ok (Next st')).
Proof.
  apply (short_record_aborts
           [row ["s1"; "3"; "106"; "A"; "100"]; row ["s1"; "2"; "80"; "B"]] PERCENTAGE).
  exists (row ["s1"; "2"; "80"; "B"]). split.
  - by_compute.
  - left. vm_compute. lia.
Defined.

(** C8, as it is stated, fails: a record with five fields whose seed is zz
    is not accepted; nor is a record with five tab-separated fields whose
    seed is aa and whose fifth field is empty, which has four fields once
    stripped. *)
Lemma record_with_five_fields_rejected :
  (length (tab_separated (row ["s1"; "2"; "80"; "zz"; "40"])) = 5%nat
   ∧ length (fields (row ["s1"; "2"; "80"; "zz"; "40"])) = 5%nat
   ∧ sample_line sample_init (row ["s1"; "2"; "80"; "zz"; "40"]) = Raise ValueError
   ∧ per_sample_stats_parse [row ["s1"; "2"; "80"; "zz"; "40"]] PERCENTAGE
     = Raise ValueError)
  ∧ (length (tab_separated (row ["s1"; "1"; "1"; "aa"; ""])) = 5%nat
     ∧ length (fields (row ["s1"; "1"; "1"; "aa"; ""])) = 4%nat
     ∧ shard_of "aa" = Ok 170
     ∧ sample_line sample_init (row ["s1"; "1"; "1"; "aa"; ""]) = Raise ValueError
     ∧ per_sample_stats_parse [row ["s1"; "1"; "1"; "aa"; ""]] PERCENTAGE
       = Raise ValueError).
Proof. repeat split; by_compute. Qed.
(** ** Identifiers whose prefix is no hexadecimal number *)

Lemma record_abundance_total sw pair :
  length sw = 256%nat →
  record_abundance sw pair = Raise ValueError
  ∨ ∃ sw', record_abundance sw pair = Ok (Next sw') ∧ length sw' = 256%nat.
Proof.
  intros Hlen. destruct pair as [amplicon abundance]. unfold record_abundance.
  destruct (shard_of amplicon) as [i|e] eqn:Hi; simpl.
  2:{ left. by apply shard_of_error in Hi as ->. }
  destruct (Py.int 10 abundance) as [n|e] eqn:Hn; simpl.
  2:{ left. by apply int_error in Hn as ->. }
  destruct (shards_index _ _ _ Hlen Hi) as (j & m & Hj & Hm & -> & Hset). simpl.
  rewrite Hset. simpl. right. eexists. split; [done|]. by rewrite length_insert.
Qed.

Lemma record_abundance_loop pairs : ∀ sw,
  length sw = 256%nat →
  (∃ pair, pair ∈ pairs ∧ is_raise (shard_of pair.1)) →
  for_each record_abundance sw pairs = Raise ValueError.
Proof.
  induction pairs as [|pair pairs IH]; intros sw Hlen (bad & Hin & Hbad).
  - by apply elem_of_nil in Hin.
  - rewrite for_each_cons. apply elem_of_cons in Hin as [->|Hin].
    + destruct pair as [amplicon abundance]. destruct Hbad as [e He]. simpl in He.
      unfold record_abundance. rewrite He. simpl. by apply shard_of_error in He as ->.
    + destruct (record_abundance_total sw pair Hlen) as [->|(sw' & -> & Hlen')]; [done|].
      apply IH; [done|]. by exists bad.
Qed.

(** ** The scan of the global statistics *)

Lemma int_lt_mono a b t : b ≤ a → F64.int_lt a t = true → F64.int_lt b t = true.
Proof.
  intros Hle. destruct t as [m e|[]|]; simpl; try done.
  destruct (Z.leb_spec 0 e); rewrite !Z.ltb_lt; [lia|].
  assert (0 < 2 ^ (- e)) by (apply Z.pow_pos_nonneg; lia).
  nia.
Qed.

Lemma keys_of_lookup {V} (sh : list (gmap string V)) j d k :
  sh !! j = Some d → is_Some (d !! k) → k ∈ ⋃ (dom <$> sh).
Proof.
  intros Hd Hk. apply elem_of_union_list. exists (dom d). split.
  - apply list_elem_of_fmap. exists d. split; [done|]. by apply list_elem_of_lookup_2 in Hd.
  - by apply elem_of_dom.
Qed.

Lemma eliminate_Ok seeds seed seeds' :
  eliminate seeds seed = Ok seeds' →
  keys_of seeds' ⊆ keys_of seeds ∧ (seed ∉ keys_of seeds → seeds' = seeds).
Proof.
  unfold eliminate.
  intros (i & Hi & (d & (j & Hj & Hd)%index_Ok & H)%bind_Ok)%bind_Ok.
  destruct (d !! seed) as [n|] eqn:Hlookup.
  - apply set_index_Ok in H as (j' & Hj' & ->).
    rewrite Hj in Hj'. injection Hj' as <-. split.
    + intros k (X & (d' & -> & Hin)%list_elem_of_fmap & Hk)%elem_of_union_list.
      apply list_elem_of_lookup in Hin as [j' Hin].
      apply elem_of_dom in Hk.
      destruct (decide (j = j')) as [<-|Hne].
      * rewrite list_lookup_insert_eq in Hin by (by apply lookup_lt_Some in Hd).
        injection Hin as <-. apply (keys_of_lookup _ j d); [done|].
        destruct (decide (k = seed)) as [->|?].
        -- rewrite lookup_delete_eq in Hk. by destruct Hk.
        -- by rewrite lookup_delete_ne in Hk.
      * rewrite list_lookup_insert_ne in Hin by done. by apply (keys_of_lookup _ j' d').
    + intros Hout. destruct Hout. apply (keys_of_lookup _ j d); [done|]. by exists n.
  - injection H as <-. done.
Qed.

Lemma stats_line_full_Ok t seeds line f :
  stats_line_full t seeds line = Ok f →
  ∃ seeds' a seed,
    f = Next seeds'
    ∧ seed_abundance_of line = Ok a
    ∧ global_seed_of line = Some seed
    ∧ keys_of seeds' ⊆ keys_of seeds
    ∧ (seed ∉ keys_of seeds → seeds' = seeds)
    ∧ stats_line t seeds line
      = if F64.int_lt a t then Ok (Break seeds) else Ok (Next seeds').
Proof.
  unfold stats_line_full, stats_line, seed_abundance_of, global_seed_of.
  fold (fields line).
  destruct (fields line) as [|cloud [|mass [|seed [|seed_abundance [|singletons rest]]]]];
    try done.
  simpl. intros (a & Ha & (check & Hcheck & H)%bind_Ok)%bind_Ok.
  rewrite Ha, Hcheck. simpl.
  destruct check.
  - apply bind_Ok in H as (seeds' & Hel & [= <-]).
    destruct (eliminate_Ok _ _ _ Hel) as [Hsub Hsame].
    exists seeds', a, seed. rewrite Hel. simpl. by repeat split.
  - injection H as <-. exists seeds, a, seed. by repeat split.
Qed.

(** A scan of records whose seeds are no candidates changes nothing. *)
Lemma full_scan_unchanged t file : ∀ seeds result,
  (∀ line seed, line ∈ file → global_seed_of line = Some seed → seed ∉ keys_of seeds) →
  stats_parse_full file t seeds = Ok result → result = seeds.
Proof.
  unfold stats_parse_full.
  induction file as [|line file IH]; intros seeds result Hout; simpl.
  - by intros [= <-].
  - destruct (stats_line_full t seeds line) as [f|] eqn:Hline; [|done].
    apply stats_line_full_Ok in Hline
        as (seeds' & a & seed & -> & _ & Hseed & _ & Hsame & _).
    rewrite (Hsame (Hout line seed ltac:(left) Hseed)).
    apply IH. intros line' seed' Hin. apply Hout. by right.
Qed.

(** C6, as the code has it.  On global statistics sorted by strictly
    decreasing seed abundance in which no record with a seed abundance below
    the threshold has a candidate as its seed, the scan that stops at the
    first such record returns what the scan of every record returns. *)
Theorem early_termination_is_sound (file : list string) (threshold : F64.t)
    (seeds result : list (gmap string Z)) :
  strictly_decreasing file →
  (∀ line a seed,
     line ∈ file → seed_abundance_of line = Ok a →
     F64.int_lt a threshold = true →
     global_seed_of line = Some seed → seed ∉ keys_of seeds) →
  stats_parse_full file threshold seeds = Ok result →
  stats_parse file threshold seeds = Ok result.
Proof.
  intros (abundances & Hab & Hsorted). revert seeds result.
  apply Sorted_StronglySorted in Hsorted; [|intros x y z; lia].
  induction Hab as [|line a file abundances Ha Hab IH]; intros seeds result Hlow.
  - done.
  - apply StronglySorted_inv in Hsorted as [Hsorted Hbelow].
    unfold stats_parse, stats_parse_full. rewrite !for_each_cons.
    destruct (stats_line_full threshold seeds line) as [f|] eqn:Hline; [|done].
    pose proof Hline as Hfull.
    apply stats_line_full_Ok in Hline
        as (seeds' & a' & seed & -> & Ha' & Hseed & Hsub & Hsame & ->).
    assert (a' = a) as -> by congruence.
    destruct (F64.int_lt a threshold) eqn:Hlt.
    + intros Hrest. f_equal. symmetry.
      apply (full_scan_unchanged threshold (line :: file)).
      * intros line' seed' Hin Hseed'.
        assert (∃ b, seed_abundance_of line' = Ok b ∧ b ≤ a) as (b & Hb & Hle).
        { apply elem_of_cons in Hin as [->|Hin]; [exists a; split; [done|lia]|].
          apply list_elem_of_lookup in Hin as [i Hi].
          destruct (Forall2_lookup_l _ _ _ _ _ Hab Hi) as (b & Hb & Hlb).
          exists b. split; [done|].
          rewrite Forall_forall in Hbelow.
          apply list_elem_of_lookup_2, Hbelow in Hb. lia. }
        apply (Hlow line' b seed'); [done|done| |done].
        by apply (int_lt_mono a).
      * unfold stats_parse_full. rewrite for_each_cons, Hfull. done.
    + apply (IH Hsorted). intros line' b seed' Hin Hb Hbt Hseed' Hk.
      apply (Hlow line' b seed'); [by right|done|done|done|]. by apply Hsub.
Qed.

Lemma early_termination_is_sound_witness :
  stats_parse (global_stats_file example_followed) low_seed_threshold
    (shards_of_list [("A", 5); ("B", 6)])
  = Ok (shards_of_list [("B", 6)]).
Proof.
  apply early_termination_is_sound; unfold example_followed; cbn [global_stats_file].
  - exists [100; 30; 1]. split.
    + repeat (apply Forall2_cons; split; [by_compute|]). constructor.
    + repeat constructor; lia.
  - intros line a seed Hin Ha Hlt Hseed.
    repeat (apply elem_of_cons in Hin as [->|Hin]).
    + vm_compute in Ha. injection Ha as <-. vm_compute in Hlt. discriminate.
    + vm_compute in Ha. injection Ha as <-. vm_compute in Hlt. discriminate.
    + vm_compute in Hseed. injection Hseed as <-. by_compute.
    + by apply elem_of_nil in Hin.
  - by_compute.
Defined.

(** C6, as it is stated, fails.  The statistics [low_seed_stats] are sorted,
    the seed aa of their record has 4 reads, fewer than the threshold 5, the
    cluster is large enough for the check, and aa is a candidate: the scan
    stops and keeps aa, the scan of every record removes it. *)
Lemma early_termination_keeps_low_seed :
  strictly_decreasing low_seed_stats
  ∧ F64.int_lt 4 low_seed_threshold = true
  ∧ F64.int_ge 5 low_seed_threshold = true
  ∧ keys_of low_seed_candidates = {["aa"]}
  ∧ (∃ kept, stats_parse low_seed_stats low_seed_threshold low_seed_candidates = Ok kept
             ∧ keys_of kept = {["aa"]})
  ∧ (∃ pruned, stats_parse_full low_seed_stats low_seed_threshold low_seed_candidates
               = Ok pruned
               ∧ keys_of pruned = ∅).
Proof.
  split.
  { exists [4]. split; [|repeat constructor].
    apply Forall2_cons; split; [by_compute|constructor]. }
  split; [by_compute|]. split; [by_compute|]. split; [by_compute|]. split.
  - exists low_seed_candidates. split; by_compute.
  - exists new_shards. split; by_compute.
Qed.

(** ** The threshold, a float *)

Lemma digits_pos m : 0 < m → F64.digits m = Z.log2 m + 1.
Proof.
  intros Hm. unfold F64.digits. rewrite Z.abs_eq by lia.
  destruct (Z.eqb_spec m 0); [lia|done].
Qed.

Lemma digits_le m k : 0 ≤ k → 0 ≤ m < 2 ^ k → F64.digits m ≤ k.
Proof.
  intros Hk [Hm Hlt]. unfold F64.digits. destruct (Z.eqb_spec m 0); [lia|].
  rewrite Z.abs_eq by lia. assert (Z.log2 m < k) by (apply Z.log2_lt_pow2; lia). lia.
Qed.

(** Rounding a positive number: the result is [q * 2^(e + s)] where [q] has
    at most 53 bits and [q * 2^s] is within half of [2^s] of [m]. *)
Lemma round_pos m e :
  0 < m →
  ∃ q s,
    0 ≤ s
    ∧ 0 < q ≤ 2 ^ 53
    ∧ 2 * (q * 2 ^ s) ≤ 2 * m + 2 ^ s
    ∧ 2 * m ≤ 2 * (q * 2 ^ s) + 2 ^ s
    ∧ (s = 0 → q = m)
    ∧ (0 < s → 2 ^ 52 * 2 ^ s ≤ m < 2 ^ 53 * 2 ^ s)
    ∧ F64.round m e
      = if 1024 <? F64.digits q + (e + s) then F64.Inf false else F64.Fin q (e + s).
Proof.
  intros Hm. unfold F64.round. rewrite (Z.abs_eq m) by lia.
  assert ((m <? 0) = false) as -> by (apply Z.ltb_ge; lia).
  pose proof (Z.log2_spec m Hm) as [Hlo Hhi].
  rewrite (digits_pos m Hm).
  set (s := Z.log2 m + 1 - 53).
  destruct (Z.leb_spec s 0) as [Hs|Hs].
  - exists m, 0. rewrite Z.pow_0_r, Z.add_0_r.
    assert (m < 2 ^ 53).
    { eapply Z.lt_le_trans; [exact Hhi|]. apply Z.pow_le_mono_r; lia. }
    repeat split; try lia.
  - assert (Hpow : 2 ^ s = 2 * 2 ^ (s - 1)).
    { rewrite <- Z.pow_succ_r by lia. f_equal. lia. }
    assert (0 < 2 ^ (s - 1)) by (apply Z.pow_pos_nonneg; lia).
    assert (H52 : 2 ^ Z.log2 m = 2 ^ 52 * 2 ^ s).
    { rewrite <- Z.pow_add_r by lia. f_equal. unfold s. lia. }
    assert (H53 : 2 ^ Z.succ (Z.log2 m) = 2 ^ 53 * 2 ^ s).
    { rewrite <- Z.pow_add_r by lia. f_equal. unfold s. lia. }
    set (B := 2 ^ s) in *. set (h := 2 ^ (s - 1)) in *.
    pose proof (Z.div_mod m B ltac:(lia)) as Hdiv.
    pose proof (Z.mod_pos_bound m B ltac:(lia)) as Hmod.
    set (q := m / B) in *. set (r := m mod B) in *.
    assert (Hq : 2 ^ 52 ≤ q < 2 ^ 53) by nia.
    set (up := (h <? r) || ((r =? h) && Z.odd q)).
    exists (if up then q + 1 else q), s.
    assert (Hup : up = true → h ≤ r).
    { unfold up. intros [?%Z.ltb_lt|[?%Z.eqb_eq _]%andb_true_iff]%orb_true_iff; lia. }
    assert (Hdown : up = false → r ≤ h).
    { unfold up. intros [?%Z.ltb_ge _]%orb_false_iff. lia. }
    destruct up; repeat split; try lia; nia.
Qed.

Lemma of_int_exact n : 0 ≤ n < 2 ^ 53 → F64.of_int n = Ok (F64.Fin n 0).
Proof.
  intros Hn. unfold F64.of_int, F64.round. rewrite (Z.abs_eq n) by lia.
  assert ((n <? 0) = false) as -> by (apply Z.ltb_ge; lia).
  pose proof (digits_le n 53 ltac:(lia) Hn).
  assert ((F64.digits n - 53 <=? 0) = true) as -> by (apply Z.leb_le; lia).
  assert ((1024 <? F64.digits n + 0) = false) as -> by (apply Z.ltb_ge; lia).
  done.
Qed.

(** The threshold of a run on [n] samples: an integer is at least the
    threshold exactly when twenty times the integer is at least [n]. *)
Lemma threshold_of_samples n :
  0 ≤ n < 2 ^ 53 →
  ∃ t, F64.mul_int PERCENTAGE n = Ok t
       ∧ ∀ v, F64.int_ge v t = true ↔ n ≤ 20 * v.
Proof.
  intros Hn. unfold F64.mul_int, PERCENTAGE, F64.five_percent.
  rewrite (of_int_exact n Hn). simpl. rewrite Z.add_0_r.
  destruct (Z.eq_dec n 0) as [->|Hn0].
  { eexists. split; [reflexivity|]. intros v. simpl. rewrite Z.leb_le. lia. }
  set (M := 3602879701896397) in *.
  destruct (round_pos (M * n) (-56) ltac:(lia))
    as (q & s & Hs & Hq & Hhi & Hlo & Hexact & Hrange & ->).
  assert (Hs52 : s ≤ 52).
  { destruct (Z.eq_dec s 0) as [->|Hs0]; [lia|].
    destruct (Hrange ltac:(lia)) as [Hr _].
    destruct (Z.le_gt_cases s 52) as [?|Hgt]; [done|].
    assert (2 ^ 53 ≤ 2 ^ s) by (apply Z.pow_le_mono_r; lia). lia. }
  pose proof (digits_le q 54 ltac:(lia) ltac:(lia)) as Hd.
  assert ((1024 <? F64.digits q + (-56 + s)) = false) as -> by (apply Z.ltb_ge; lia).
  eexists. split; [reflexivity|]. intros v. simpl.
  assert ((0 <=? -56 + s) = false) as -> by (apply Z.leb_gt; lia).
  rewrite Z.leb_le.
  replace (- (-56 + s)) with (56 - s) by lia.
  assert (HB : 0 < 2 ^ s) by (apply Z.pow_pos_nonneg; lia).
  assert (HC : 16 ≤ 2 ^ (56 - s)).
  { change 16 with (2 ^ 4). apply Z.pow_le_mono_r; lia. }
  assert (HK : 2 ^ s * 2 ^ (56 - s) = 2 ^ 56).
  { rewrite <- Z.pow_add_r by lia. f_equal. lia. }
  set (B := 2 ^ s) in *. set (C := 2 ^ (56 - s)) in *.
  assert (HP : 20 * (M * n) = n * 2 ^ 56 + 4 * n) by (unfold M; lia).
  assert (Hbelow : M * n < 2 ^ 53 * B).
  { destruct (Z.eq_dec s 0) as [Hs0|Hs0].
    - pose proof (Hexact Hs0). unfold B. rewrite Hs0. lia.
    - apply Hrange. lia. }
  split.
  - intros Hle. assert (q * B ≤ v * 2 ^ 56) by (rewrite <- HK; nia).
    assert (16 * B ≤ 2 ^ 56) by (rewrite <- HK; nia). lia.
  - intros Hle. destruct (Z.le_gt_cases q (v * C)) as [?|Hgt]; [done|]. exfalso.
    assert (v * 2 ^ 56 + B ≤ q * B) by (rewrite <- HK; nia).
    unfold M in *. lia.
Qed.

Lemma ceil_five_percent_le n v : ceil_five_percent n ≤ v ↔ n ≤ 20 * v.
Proof.
  unfold ceil_five_percent.
  pose proof (Z.div_mod (5 * n + 99) 100 ltac:(lia)).
  pose proof (Z.mod_pos_bound (5 * n + 99) 100 ltac:(lia)). lia.
Qed.

(** ** Counting the seeds of the samples *)

Lemma shard_lookup_insert {V} (sh : list (gmap string V)) key i j d v k :
  length sh = 256%nat → shard_of key = Ok i → slot 256 i = Some j →
  sh !! j = Some d →
  shard_lookup (<[j := <[key := v]> d]> sh) k
  = if decide (k = key) then Some v else shard_lookup sh k.
Proof.
  intros Hlen Hi Hj Hd. unfold shard_lookup. rewrite length_insert, Hlen.
  destruct (decide (k = key)) as [->|Hne].
  - rewrite Hi, Hj. simpl.
    rewrite list_lookup_insert_eq by (by apply lookup_lt_Some in Hd). simpl.
    apply lookup_insert_eq.
  - destruct (shard_of k) as [i'|]; [|done].
    destruct (slot 256 i') as [j'|]; [|done]. simpl.
    destruct (decide (j = j')) as [<-|Hj'].
    + rewrite list_lookup_insert_eq by (by apply lookup_lt_Some in Hd). simpl.
      rewrite Hd. simpl. by rewrite lookup_insert_ne.
    + by rewrite list_lookup_insert_ne.
Qed.

Lemma well_sharded_insert {V} (sh : list (gmap string V)) key i j d v :
  well_sharded sh → shard_of key = Ok i → slot 256 i = Some j →
  sh !! j = Some d → well_sharded (<[j := <[key := v]> d]> sh).
Proof.
  intros [Hlen Hws] Hi Hj Hd. split; [by rewrite length_insert|].
  intros j' d' k Hd' Hk. destruct (decide (j = j')) as [<-|Hne].
  - rewrite list_lookup_insert_eq in Hd' by (by apply lookup_lt_Some in Hd).
    injection Hd' as <-. destruct (decide (k = key)) as [->|Hk'].
    + by exists i.
    + rewrite lookup_insert_ne in Hk by done. by apply (Hws j d).
  - rewrite list_lookup_insert_ne in Hd' by done. by apply (Hws j' d').
Qed.

Lemma well_sharded_lookup {V} (sh : list (gmap string V)) j d key v :
  well_sharded sh → sh !! j = Some d → d !! key = Some v →
  shard_lookup sh key = Some v.
Proof.
  intros [Hlen Hws] Hd Hv. destruct (Hws j d key Hd ltac:(eauto)) as (i & Hi & Hj).
  unfold shard_lookup. rewrite Hi, Hlen, Hj. simpl. by rewrite Hd.
Qed.

Lemma shard_lookup_Some {V} (sh : list (gmap string V)) key v :
  shard_lookup sh key = Some v → ∃ j d, sh !! j = Some d ∧ d !! key = Some v.
Proof.
  unfold shard_lookup. destruct (shard_of key) as [i|]; [|done].
  destruct (slot _ i) as [j|]; [|done]. simpl.
  destruct (sh !! j) as [d|] eqn:Hd; [|done]. simpl. eauto.
Qed.

Lemma occurrences_cons amplicon line file :
  occurrences amplicon (line :: file)
  = (if decide (seed_of line = Some amplicon) then 1 else 0) + occurrences amplicon file.
Proof.
  unfold occurrences. rewrite filter_cons.
  destruct (decide _); [|lia]. rewrite length_cons. lia.
Qed.

Lemma occurrences_nonneg amplicon file : 0 ≤ occurrences amplicon file.
Proof. unfold occurrences. lia. Qed.

(** The state of the loop after the records [file]. *)
Lemma sample_loop_counts file : ∀ st st' (N : string → Z),
  well_sharded (per_sample_stats st) →
  (∀ key, 0 ≤ N key) →
  (∀ key, shard_lookup (per_sample_stats st) key = counted (N key)) →
  for_each sample_line st file = Ok st' →
  well_sharded (per_sample_stats st')
  ∧ (∀ key, shard_lookup (per_sample_stats st') key
            = counted (N key + occurrences key file))
  ∧ number_of_samples st'
    = number_of_samples st + sample_changes (previous_sample st) (sample_of <$> file).
Proof.
  induction file as [|line file IH]; intros st st' N Hws HN Hcount.
  - intros [= <-]. split; [done|]. split; [|simpl; lia].
    intros key. rewrite Hcount. unfold occurrences. simpl. by rewrite Z.add_0_r.
  - rewrite for_each_cons.
    destruct (sample_line st line) as [[st1|st1]|] eqn:Hline; [| |done].
    2:{ destruct (sample_line_total st line (proj1 Hws)) as [?|(? & ? & _)]; congruence. }
    destruct (fields line) as [|a [|b [|c [|d [|e' rest]]]]] eqn:Hf;
      try (rewrite sample_line_rejected in Hline; [done|left; rewrite Hf; simpl; lia]).
    rewrite (sample_line_long _ _ _ _ _ _ _ _ Hf) in Hline.
    destruct (shard_of d) as [i|] eqn:Hi; [|done]. simpl in Hline.
    destruct (shards_index _ _ _ (proj1 Hws) Hi) as (j & m & Hj & Hm & Hidx & Hset).
    rewrite Hidx in Hline. simpl in Hline. rewrite Hset in Hline. simpl in Hline.
    assert (Hm' : (match m !! d with
                   | Some n => <[d := n + 1]> m
                   | None => <[d := 1]> m
                   end) = <[d := N d + 1]> m).
    { pose proof (Hcount d) as Hd. unfold shard_lookup in Hd.
      rewrite Hi, (proj1 Hws), Hj in Hd. simpl in Hd. rewrite Hm in Hd. simpl in Hd.
      rewrite Hd. unfold counted. destruct (Z.ltb_spec 0 (N d)); [done|].
      pose proof (HN d). by replace (N d) with 0 by lia. }
    rewrite Hm' in Hline.
    assert (Hseed : seed_of line = Some d) by (unfold seed_of; by rewrite Hf).
    assert (Hsample : sample_of line = Some a) by (unfold sample_of; by rewrite Hf).
    intros Hrest.
    apply (IH st1 st' (λ key, N key + if decide (key = d) then 1 else 0)) in Hrest.
    + destruct Hrest as (Hws' & Hcount' & Hn'). split; [done|]. split.
      * intros key. rewrite Hcount', occurrences_cons, Hseed. f_equal.
        destruct (decide (key = d)) as [->|Hne].
        -- rewrite decide_True by done. lia.
        -- rewrite decide_False by congruence. lia.
      * rewrite Hn'. rewrite fmap_cons, Hsample. cbn [sample_changes].
        destruct (decide (Some a ≠ previous_sample st)) as [Hnew|Hsame];
          injection Hline as <-; cbn [number_of_samples previous_sample]; [lia|].
        apply dec_stable in Hsame. rewrite <- Hsame. lia.
    + destruct (decide _); injection Hline as <-; simpl;
        by apply (well_sharded_insert _ d i).
    + intros key. pose proof (HN key). destruct (decide (key = d)); lia.
    + intros key.
      assert (per_sample_stats st1 = <[j := <[d := N d + 1]> m]> (per_sample_stats st)) as ->
        by (destruct (decide _); by injection Hline as <-).
      rewrite (shard_lookup_insert _ d i j m _ key (proj1 Hws) Hi Hj Hm).
      destruct (decide (key = d)) as [->|Hne].
      * unfold counted. pose proof (HN d).
        by assert ((0 <? N d + 1) = true) as -> by (apply Z.ltb_lt; lia).
      * rewrite Hcount. f_equal. lia.
Qed.

Lemma new_shards_well_sharded {V} : well_sharded (@new_shards V).
Proof.
  split; [done|]. intros j d key Hd Hk.
  apply lookup_replicate in Hd as [-> _]. rewrite lookup_empty in Hk. by destruct Hk.
Qed.

Lemma new_shards_lookup {V} key : shard_lookup (@new_shards V) key = None.
Proof.
  unfold shard_lookup. destruct (shard_of key) as [i|]; [|done].
  destruct (slot _ i) as [j|]; [|done]. simpl.
  destruct (new_shards !! j) as [d|] eqn:Hd; [|done]. simpl.
  apply lookup_replicate in Hd as [-> _]. apply lookup_empty.
Qed.

Lemma sample_changes_nonneg previous samples : 0 ≤ sample_changes previous samples.
Proof.
  revert previous. induction samples as [|s samples IH]; intros previous; simpl; [lia|].
  specialize (IH s). destruct (decide _); lia.
Qed.

(** The candidates: the amplicons whose count is at least the threshold. *)
Lemma keep_frequent_keys threshold stats key :
  well_sharded stats →
  key ∈ keys_of (keep_frequent threshold <$> stats)
  ↔ ∃ n, shard_lookup stats key = Some n ∧ F64.int_ge n threshold = true.
Proof.
  intros Hws. unfold keys_of. rewrite elem_of_union_list. split.
  - intros (X & (d' & -> & (d & -> & Hin)%list_elem_of_fmap)%list_elem_of_fmap & Hk).
    apply elem_of_dom in Hk as [n Hn]. unfold keep_frequent in Hn.
    apply map_lookup_filter_Some in Hn as [Hn Hge]. simpl in Hge.
    apply list_elem_of_lookup in Hin as [j Hj].
    exists n. split; [|done]. by apply (well_sharded_lookup _ j d).
  - intros (n & (j & d & Hd & Hn)%shard_lookup_Some & Hge).
    exists (dom (keep_frequent threshold d)). split.
    + apply list_elem_of_fmap. exists (keep_frequent threshold d). split; [done|].
      apply list_elem_of_fmap. exists d. split; [done|].
      by apply list_elem_of_lookup_2 in Hd.
    + apply elem_of_dom. exists n. unfold keep_frequent.
      by apply map_lookup_filter_Some.
Qed.

(** ** Counting the samples *)

Lemma grouped_tail {A} (x : A) l : grouped (x :: l) → grouped l.
Proof. intros H i j k y Hij Hjk Hi Hk. apply (H (S i) (S j) (S k) y); simpl; (lia || done). Qed.

Lemma grouped_fresh {A} (p s : A) rest : grouped (p :: s :: rest) → s ≠ p → p ∉ rest.
Proof.
  intros H Hne [k Hk]%list_elem_of_lookup. apply Hne.
  specialize (H 0%nat 1%nat (S (S k)) p ltac:(lia) ltac:(lia) eq_refl Hk).
  by injection H.
Qed.

Lemma grouped_cons {A} (x : A) l : grouped l → x ∉ l → grouped (x :: l).
Proof.
  intros H Hx i j k y Hij Hjk Hi Hk. destruct i as [|i].
  - injection Hi as ->. destruct k as [|k].
    + by replace j with 0%nat by lia.
    + destruct Hx. simpl in Hk. by apply list_elem_of_lookup_2 in Hk.
  - destruct j as [|j]; [lia|]. destruct k as [|k]; [lia|].
    apply (H i j k y); (lia || done).
Qed.

Lemma sample_changes_grouped (l : list string) : ∀ p : option string,
  grouped (p :: (Some <$> l)) →
  sample_changes p (Some <$> l)
  = Z.of_nat (size (list_to_set l ∖ (if p is Some x then {[x]} else ∅) : gset string)).
Proof.
  induction l as [|s rest IH]; intros p Hgrouped.
  - simpl. by rewrite difference_disjoint_L, size_empty by set_solver.
  - rewrite fmap_cons. cbn [sample_changes].
    rewrite (IH (Some s)) by (by apply grouped_tail in Hgrouped).
    destruct (decide (Some s ≠ p)) as [Hne|Heq].
    + apply grouped_fresh in Hgrouped; [|done].
      assert (list_to_set (s :: rest) ∖ (if p is Some x then {[x]} else ∅)
              = ({[s]} ∪ list_to_set rest ∖ {[s]} : gset string)) as ->.
      { destruct p as [x|].
        - assert (x ≠ s) by congruence.
          assert (x ∉ rest).
          { intros Hin. apply Hgrouped. apply list_elem_of_fmap. by exists x. }
          apply set_eq. intros y. rewrite !elem_of_difference, !elem_of_union,
            elem_of_difference, !elem_of_list_to_set, !elem_of_singleton, elem_of_cons.
          destruct (decide (y = s)); naive_solver.
        - apply set_eq. intros y. rewrite !elem_of_difference, !elem_of_union,
            elem_of_difference, !elem_of_list_to_set, !elem_of_singleton, elem_of_cons.
          destruct (decide (y = s)); set_solver. }
      rewrite (size_union (C:=gset string) {[s]}) by set_solver.
      rewrite size_singleton. lia.
    + apply dec_stable in Heq as <-. rewrite Z.add_0_l. do 2 f_equal.
      apply set_eq. intros y. rewrite !elem_of_difference, !elem_of_list_to_set,
        !elem_of_singleton, elem_of_cons. naive_solver.
Qed.

Lemma sample_loop_samples file : ∀ st st',
  length (per_sample_stats st) = 256%nat →
  for_each sample_line st file = Ok st' →
  sample_of <$> file = Some <$> omap sample_of file.
Proof.
  induction file as [|line file IH]; intros st st' Hlen; [done|].
  rewrite for_each_cons.
  destruct (sample_line st line) as [[st1|st1]|] eqn:Hline; [| |done].
  2:{ destruct (sample_line_total st line Hlen) as [?|(? & ? & _)]; congruence. }
  assert (Hlen1 : length (per_sample_stats st1) = 256%nat).
  { destruct (sample_line_total st line Hlen) as [?|(? & ? & ?)]; congruence. }
  intros Hrest. destruct (sample_of line) as [s|] eqn:Hs.
  - rewrite fmap_cons, Hs. simpl. rewrite Hs. simpl. f_equal. by apply (IH st1 st').
  - rewrite sample_line_rejected in Hline; [done|].
    left. unfold sample_of in Hs. destruct (fields line); [simpl; lia|done].
Qed.

(** When the sample changes only at the boundary between two samples, the
    number of samples counted is the number of distinct samples. *)
Lemma samples_counted_distinct file st :
  for_each sample_line sample_init file = Ok st →
  samples_grouped file →
  samples_counted file = Z.of_nat (size (samples_of file)).
Proof.
  intros Hloop Hgrouped. unfold samples_counted, samples_of, samples_grouped in *.
  rewrite (sample_loop_samples file sample_init st) in * by done.
  rewrite sample_changes_grouped.
  - by rewrite difference_empty_L.
  - apply grouped_cons; [done|]. by intros (? & ? & _)%list_elem_of_fmap.
Qed.

Lemma sample_loop_starts line file st :
  for_each sample_line sample_init (line :: file) = Ok st →
  1 ≤ samples_counted (line :: file).
Proof.
  rewrite for_each_cons. intros Hrun. unfold samples_counted.
  rewrite fmap_cons. cbn [sample_changes].
  pose proof (sample_changes_nonneg (sample_of line) (sample_of <$> file)).
  destruct (fields line) as [|a rest] eqn:Hf.
  { rewrite sample_line_rejected in Hrun; [done|left; rewrite Hf; simpl; lia]. }
  destruct (decide (sample_of line ≠ None)) as [|Hnone]; [lia|].
  exfalso. apply Hnone. unfold sample_of. by rewrite Hf.
Qed.

(** The amplicons that remain once the file is read. *)
Lemma per_sample_stats_parse_keys file percentage threshold seeds :
  per_sample_stats_parse file percentage = Ok (threshold, seeds) →
  F64.mul_int percentage (samples_counted file) = Ok threshold
  ∧ ∀ amplicon,
      amplicon ∈ keys_of seeds
      ↔ 0 < occurrences amplicon file
        ∧ F64.int_ge (occurrences amplicon file) threshold = true.
Proof.
  unfold per_sample_stats_parse.
  intros (st & Hloop & (t & Ht & [= <- <-])%bind_Ok)%bind_Ok.
  destruct (sample_loop_counts file sample_init st (λ _, 0)) as (Hws & Hcount & Hn);
    [apply new_shards_well_sharded|done|intros key; apply new_shards_lookup|done|].
  simpl in Hn. fold (samples_counted file) in Hn. rewrite Hn in Ht.
  split; [done|]. intros amplicon. rewrite (keep_frequent_keys _ _ _ Hws).
  rewrite Hcount. cbn beta. rewrite Z.add_0_l. unfold counted. split.
  - intros (n & Hn' & Hge).
    revert Hn'. destruct (Z.ltb_spec 0 (occurrences amplicon file)); [|done].
    by intros [= <-].
  - intros [Hpos%Z.ltb_lt Hge]. exists (occurrences amplicon file). by rewrite Hpos.
Qed.

(** With one record per observation, the number of records that name an
    amplicon is the number of distinct samples in which it is a seed. *)
Lemma occurrences_distinct_samples file amplicon :
  one_record_per_observation file →
  occurrences amplicon file = Z.of_nat (size (samples_with amplicon file)).
Proof.
  unfold one_record_per_observation, occurrences, samples_with. intros Hnodup.
  f_equal. rewrite size_list_to_set.
  - clear Hnodup. induction file as [|line file IH]; [done|].
    rewrite filter_cons. destruct (decide _) as [Hseed|]; [|done].
    simpl. unfold seed_of, sample_of in *.
    destruct (fields line) as [|a rest]; [done|]. simpl. by rewrite IH.
  - induction file as [|line file IH]; [constructor|].
    rewrite fmap_cons in Hnodup. apply NoDup_cons in Hnodup as [Hnew Hnodup].
    rewrite filter_cons. destruct (decide _) as [Hseed|]; [|by apply IH].
    simpl. destruct (sample_of line) as [s|] eqn:Hs; [|by apply IH].
    apply NoDup_cons. split; [|by apply IH].
    intros (other & (Hseed' & Hin)%list_elem_of_filter & Hs')%list_elem_of_omap.
    apply Hnew. apply list_elem_of_fmap. exists other. split; [|done].
    cbn beta. congruence.
Qed.

(** C7. Threshold boundary.  On a file of records read without error, with
    [n] the number of samples counted (fewer than [2^53]) and the percentage
    [0.05], the threshold is the float product of [0.05] and [n], and an
    amplicon is retained in the candidates exactly when the number of
    records that name it as a seed is at least the ceiling of five
    hundredths of [n]: an amplicon with exactly that number of records is
    retained, and one with one record fewer is excluded.  With one record
    per (sample, seed) observation, that number of records is the number of
    distinct samples in which the amplicon is a seed; when the sample
    changes only at the boundary between two samples, [n] is the number of
    distinct samples of the file. *)
Theorem threshold_boundary file threshold seeds :
  per_sample_stats_parse file PERCENTAGE = Ok (threshold, seeds) →
  file ≠ [] →
  samples_counted file < 2 ^ 53 →
  F64.mul_int PERCENTAGE (samples_counted file) = Ok threshold
  ∧ (∀ amplicon,
       amplicon ∈ keys_of seeds
       ↔ ceil_five_percent (samples_counted file) ≤ occurrences amplicon file)
  ∧ (∀ amplicon,
       occurrences amplicon file = ceil_five_percent (samples_counted file) →
       amplicon ∈ keys_of seeds)
  ∧ (∀ amplicon,
       occurrences amplicon file = ceil_five_percent (samples_counted file) - 1 →
       amplicon ∉ keys_of seeds)
  ∧ (one_record_per_observation file →
     ∀ amplicon,
       occurrences amplicon file = Z.of_nat (size (samples_with amplicon file)))
  ∧ (samples_grouped file →
     samples_counted file = Z.of_nat (size (samples_of file))).
Proof.
  intros Hparse Hfile Hbound.
  pose proof Hparse as (st & Hloop & _)%bind_Ok.
  assert (Hone : 1 ≤ samples_counted file).
  { destruct file as [|line file]; [done|]. by apply (sample_loop_starts _ _ st). }
  destruct (per_sample_stats_parse_keys _ _ _ _ Hparse) as [Ht Hkeys].
  destruct (threshold_of_samples (samples_counted file) ltac:(lia)) as (t & Ht' & Hge).
  rewrite Ht in Ht'. injection Ht' as <-.
  assert (Hiff : ∀ amplicon,
    amplicon ∈ keys_of seeds
    ↔ ceil_five_percent (samples_counted file) ≤ occurrences amplicon file).
  { intros amplicon. rewrite Hkeys, Hge, ceil_five_percent_le. lia. }
  split; [done|]. split; [done|]. split; [|split; [|split]].
  - intros amplicon Heq. apply Hiff. lia.
  - intros amplicon Heq. rewrite Hiff. lia.
  - intros Hobs amplicon. by apply occurrences_distinct_samples.
  - by apply (samples_counted_distinct file st).
Qed.

Lemma threshold_boundary_witness :
  F64.mul_int PERCENTAGE (samples_counted (per_sample_stats_file example_followed))
  = Ok (F64.Fin 7205759403792794 (-56))
  ∧ (∀ amplicon,
       amplicon ∈ keys_of (shards_of_list [("A", 1); ("B", 2); ("1b", 2)])
       ↔ ceil_five_percent (samples_counted (per_sample_stats_file example_followed))
         ≤ occurrences amplicon (per_sample_stats_file example_followed))
  ∧ (∀ amplicon,
       occurrences amplicon (per_sample_stats_file example_followed)
       = ceil_five_percent (samples_counted (per_sample_stats_file example_followed)) →
       amplicon ∈ keys_of (shards_of_list [("A", 1); ("B", 2); ("1b", 2)]))
  ∧ (∀ amplicon,
       occurrences amplicon (per_sample_stats_file example_followed)
       = ceil_five_percent (samples_counted (per_sample_stats_file example_followed)) - 1 →
       amplicon ∉ keys_of (shards_of_list [("A", 1); ("B", 2); ("1b", 2)]))
  ∧ (one_record_per_observation (per_sample_stats_file example_followed) →
     ∀ amplicon,
       occurrences amplicon (per_sample_stats_file example_followed)
       = Z.of_nat (size (samples_with amplicon (per_sample_stats_file example_followed))))
  ∧ (samples_grouped (per_sample_stats_file example_followed) →
     samples_counted (per_sample_stats_file example_followed)
     = Z.of_nat (size (samples_of (per_sample_stats_file example_followed)))).
Proof.
  apply threshold_boundary.
  - by_compute.
  - done.
  - by vm_compute.
Defined.

(** * Further properties of the stages *)


(** * Further properties of the stages *)

(** ** Loops that read a whole list *)

Lemma runs_through_invariant {S A} (body : S → A → result (flow S)) (P : S → Prop) :
  (∀ s x f, P s → body s x = Ok f → P (flow_state f)) →
  ∀ l st st', P st → runs_through body st l = Some st' → P st'.
Proof.
  intros Hbody. induction l as [|x l IH]; intros st st' Hst; simpl.
  - by intros [= <-].
  - destruct (body st x) as [[s|s]|e] eqn:Hx; try done.
    apply IH. by apply (Hbody _ _ _ Hst Hx).
Qed.

(** ** [stats_parse]: the candidates that remain *)

Lemma eliminate_submaps seeds seed seeds' :
  eliminate seeds seed = Ok seeds' → Forall2 (⊆) seeds' seeds.
Proof.
  unfold eliminate.
  intros (i & Hi & (d & (j & Hj & Hd)%index_Ok & H)%bind_Ok)%bind_Ok.
  destruct (d !! seed) as [n|] eqn:Hlookup.
  - apply set_index_Ok in H as (j' & Hj' & ->).
    rewrite Hj in Hj'. injection Hj' as <-.
    apply Forall2_same_length_lookup. split; [by rewrite length_insert|].
    intros k d1 d2 H1 H2. destruct (decide (j = k)) as [<-|Hne].
    + rewrite list_lookup_insert_eq in H1 by (by apply lookup_lt_Some in Hd).
      injection H1 as <-. rewrite Hd in H2. injection H2 as <-. apply delete_subseteq.
    + rewrite list_lookup_insert_ne in H1 by done. by rewrite H1 in H2; injection H2 as <-.
  - injection H as <-. by apply Forall_Forall2_diag, Forall_forall.
Qed.

Lemma stats_line_submaps t seeds line f :
  stats_line t seeds line = Ok f → Forall2 (⊆) (flow_state f) seeds.
Proof.
  assert (Hrefl : Forall2 (⊆) seeds seeds) by (by apply Forall_Forall2_diag, Forall_forall).
  unfold stats_line.
  intros ([[[[cloud mass] seed] ab] sing] & _ & (a & _ & H)%bind_Ok)%bind_Ok.
  destruct (F64.int_lt a t); [by injection H as <-|].
  apply bind_Ok in H as ([] & _ & H).
  - apply bind_Ok in H as (seeds' & Hel & [= <-]). by apply eliminate_submaps in Hel.
  - by injection H as <-.
Qed.

Lemma submaps_trans (s1 s2 s3 : list (gmap string Z)) :
  Forall2 (⊆) s1 s2 → Forall2 (⊆) s2 s3 → Forall2 (⊆) s1 s3.
Proof.
  intros H12 H23. revert s3 H23.
  induction H12 as [|d1 d2 s1 s2 Hd _ IH]; intros s3 H23.
  - by apply Forall2_nil_inv_l in H23 as ->.
  - apply Forall2_cons_inv_l in H23 as (d3 & s3' & Hd' & H23 & ->).
    constructor; [by etrans|by apply IH].
Qed.

Lemma stats_scan_submaps t file seeds result :
  for_each (stats_line t) seeds file = Ok result → Forall2 (⊆) result seeds.
Proof.
  apply (for_each_invariant (stats_line t) (λ s, Forall2 (⊆) s seeds)).
  - intros s x f Hs Hx. apply stats_line_submaps in Hx. by apply (submaps_trans _ s).
  - by apply Forall_Forall2_diag, Forall_forall.
Qed.

Lemma submaps_lookup (s1 s2 : list (gmap string Z)) k n :
  Forall2 (⊆) s1 s2 → shard_lookup s1 k = Some n → shard_lookup s2 k = Some n.
Proof.
  intros H. unfold shard_lookup. rewrite (Forall2_length _ _ _ H).
  destruct (shard_of k) as [i|]; [|done].
  destruct (slot _ i) as [j|]; [|done]. simpl.
  destruct (s1 !! j) as [d1|] eqn:H1; [|done]. simpl.
  destruct (Forall2_lookup_l _ _ _ _ _ H H1) as (d2 & -> & Hsub). simpl.
  intros Hn. by apply (lookup_weaken d1).
Qed.

Lemma submaps_keys (s1 s2 : list (gmap string Z)) :
  Forall2 (⊆) s1 s2 → keys_of s1 ⊆ keys_of s2.
Proof.
  intros H k (X & (d1 & -> & Hin)%list_elem_of_fmap & Hk)%elem_of_union_list.
  apply list_elem_of_lookup in Hin as [j H1].
  destruct (Forall2_lookup_l _ _ _ _ _ H H1) as (d2 & H2 & Hsub).
  apply (keys_of_lookup _ j d2); [done|].
  apply elem_of_dom in Hk as [n Hn]. exists n. by apply (lookup_weaken d1).
Qed.

Lemma submaps_well_sharded (s1 s2 : list (gmap string Z)) :
  Forall2 (⊆) s1 s2 → well_sharded s2 → well_sharded s1.
Proof.
  intros H [Hlen Hws]. split; [by rewrite (Forall2_length _ _ _ H)|].
  intros j d1 k H1 [n Hn].
  destruct (Forall2_lookup_l _ _ _ _ _ H H1) as (d2 & H2 & Hsub).
  apply (Hws j d2 k H2). exists n. by apply (lookup_weaken d1).
Qed.

(** X1.  The scan of the global statistics only prunes.  Whatever the file
    holds, a candidate of the result was a candidate before the scan, with
    the same number of samples; the scan adds none, and it keeps every
    candidate in the dictionary that its prefix designates. *)
Theorem stats_parse_only_prunes (file : list string) (threshold : F64.t)
    (seeds result : list (gmap string Z)) :
  stats_parse file threshold seeds = Ok result →
  length result = length seeds
  ∧ keys_of result ⊆ keys_of seeds
  ∧ (∀ seed n, shard_lookup result seed = Some n → shard_lookup seeds seed = Some n)
  ∧ (well_sharded seeds → well_sharded result).
Proof.
  intros Hsub%stats_scan_submaps. split; [by apply Forall2_length in Hsub|].
  split; [by apply submaps_keys|]. split.
  - intros seed n. by apply submaps_lookup.
  - by apply submaps_well_sharded.
Qed.

Lemma stats_parse_only_prunes_witness :
  length (shards_of_list [("B", 6)]) = length (shards_of_list [("A", 5); ("B", 6)])
  ∧ keys_of (shards_of_list [("B", 6)]) ⊆ keys_of (shards_of_list [("A", 5); ("B", 6)])
  ∧ (∀ seed n, shard_lookup (shards_of_list [("B", 6)]) seed = Some n →
               shard_lookup (shards_of_list [("A", 5); ("B", 6)]) seed = Some n)
  ∧ (well_sharded (shards_of_list [("A", 5); ("B", 6)]) →
     well_sharded (shards_of_list [("B", 6)])).
Proof.
  apply (stats_parse_only_prunes (global_stats_file example_followed) low_seed_threshold).
  by_compute.
Defined.


Lemma stats_line_long t seeds line cloud mass seed ab sing rest :
  fields line = cloud :: mass :: seed :: ab :: sing :: rest →
  stats_line t seeds line
  = (abundance ← Py.int 10 ab;
     if F64.int_lt abundance t then Ok (Break seeds)
     else
       check ← may_host_secondary_seed t cloud mass sing;
       if check : bool then seeds' ← eliminate seeds seed; Ok (Next seeds')
       else Ok (Next seeds)).
Proof. unfold stats_line. fold (fields line). by intros ->. Qed.

Lemma eliminate_removes seeds seed seeds' :
  well_sharded seeds → eliminate seeds seed = Ok seeds' → seed ∉ keys_of seeds'.
Proof.
  intros [Hlen Hws]. unfold eliminate.
  intros (i & Hi & (d & (j & Hj & Hd)%index_Ok & H)%bind_Ok)%bind_Ok.
  rewrite Hlen in Hj.
  assert (Hother : ∀ j' d', seeds !! j' = Some d' → j' ≠ j → d' !! seed = None).
  { intros j' d' Hd' Hne. destruct (d' !! seed) as [n|] eqn:Hn; [|done].
    destruct (Hws j' d' seed Hd' ltac:(eauto)) as (i' & Hi' & Hj'). congruence. }
  intros (X & (d' & -> & Hin)%list_elem_of_fmap & [n Hn]%elem_of_dom)%elem_of_union_list.
  apply list_elem_of_lookup in Hin as [j' Hin].
  destruct (d !! seed) as [m|] eqn:Hlookup.
  - apply set_index_Ok in H as (j0 & Hj0 & ->). rewrite Hlen, Hj in Hj0. injection Hj0 as <-.
    destruct (decide (j = j')) as [<-|Hne].
    + rewrite list_lookup_insert_eq in Hin by (by apply lookup_lt_Some in Hd).
      injection Hin as <-. by rewrite lookup_delete_eq in Hn.
    + rewrite list_lookup_insert_ne in Hin by done.
      rewrite (Hother j' d' Hin) in Hn; [done|congruence].
  - injection H as <-. destruct (decide (j = j')) as [<-|Hne].
    + congruence.
    + rewrite (Hother j' d' Hin) in Hn; [done|congruence].
Qed.

Lemma shards_of_list_well_sharded {V} (l : list (string * V)) :
  well_sharded (shards_of_list l).
Proof.
  unfold shards_of_list.
  assert (H : ∀ sh : list (gmap string V), well_sharded sh →
            well_sharded (foldl (λ sh '(k, v),
              match (i ← shard_of k; d ← Py.index sh i;
                     Py.set_index sh i (<[k := v]> d)) with
              | Ok sh' => sh'
              | Raise _ => sh
              end) sh l)).
  { induction l as [|[k v] l IH]; intros sh Hws; [done|]. simpl. apply IH.
    destruct (shard_of k) as [i|] eqn:Hi; [|done]. simpl.
    destruct (shards_index sh k i (proj1 Hws) Hi) as (j & d & Hj & Hd & -> & Hset).
    simpl. rewrite Hset. by apply (well_sharded_insert _ k i). }
  apply H, new_shards_well_sharded.
Qed.

(** X2.  A global seed is no candidate.  When the scan reads a record whose
    seed abundance is not below the threshold and whose cluster passes the
    size test, the seed of the record is not among the candidates that the
    scan returns, whatever the records that follow. *)
Theorem stats_parse_removes_global_seed (before after : list string) (line : string)
    (threshold : F64.t) (seeds seeds1 result : list (gmap string Z))
    (cloud mass seed seed_abundance singletons : string) (rest : list string) (a : Z) :
  well_sharded seeds →
  runs_through (stats_line threshold) seeds before = Some seeds1 →
  fields line = cloud :: mass :: seed :: seed_abundance :: singletons :: rest →
  Py.int 10 seed_abundance = Ok a →
  F64.int_lt a threshold = false →
  may_host_secondary_seed threshold cloud mass singletons = Ok true →
  stats_parse (before ++ line :: after) threshold seeds = Ok result →
  seed ∉ keys_of result.
Proof.
  intros Hws Hbefore Hf Ha Hlt Hcheck. unfold stats_parse.
  rewrite (for_each_runs_through _ _ _ _ _ Hbefore), for_each_cons.
  rewrite (stats_line_long _ _ _ _ _ _ _ _ _ Hf), Ha. simpl. rewrite Hlt, Hcheck. simpl.
  assert (Hws1 : well_sharded seeds1).
  { revert Hbefore. apply (runs_through_invariant (stats_line threshold)); [|done].
    intros s x f Hs Hx%stats_line_submaps. by apply (submaps_well_sharded _ s). }
  destruct (eliminate seeds1 seed) as [seeds2|] eqn:Hel; [|done]. simpl.
  intros Hrest%stats_scan_submaps%submaps_keys Hin.
  by apply (eliminate_removes _ _ _ Hws1 Hel), Hrest.
Qed.

Lemma stats_parse_removes_global_seed_witness :
  well_sharded (shards_of_list [("A", 5); ("B", 6)])
  ∧ "A" ∉ keys_of (shards_of_list [("B", 6)]).
Proof.
  split; [apply shards_of_list_well_sharded|].
  apply (stats_parse_removes_global_seed [] (drop 1 (global_stats_file example_followed))
           (row ["5"; "186"; "A"; "100"; "1"; "2"; "2"]) low_seed_threshold
           (shards_of_list [("A", 5); ("B", 6)]) (shards_of_list [("A", 5); ("B", 6)])
           (shards_of_list [("B", 6)]) "5" "186" "A" "100" "1" ["2"; "2"] 100).
  - apply shards_of_list_well_sharded.
  - reflexivity.
  - by_compute.
  - by_compute.
  - by_compute.
  - by_compute.
  - by_compute.
Defined.

(** X3.  The scan stops at the first record whose seed abundance is below
    the threshold: it returns the candidates it had when it reached the
    record, and what follows the record in the file is not read, well-formed
    or not. *)
Theorem stats_parse_stops_at_low_record (before after : list string) (low : string)
    (threshold : F64.t) (seeds seeds1 : list (gmap string Z)) (a : Z) :
  runs_through (stats_line threshold) seeds before = Some seeds1 →
  (5 ≤ length (fields low))%nat →
  seed_abundance_of low = Ok a →
  F64.int_lt a threshold = true →
  stats_parse (before ++ low :: after) threshold seeds = Ok seeds1.
Proof.
  intros Hbefore Hlen Ha Hlt. unfold stats_parse.
  rewrite (for_each_runs_through _ _ _ _ _ Hbefore), for_each_cons.
  unfold seed_abundance_of in Ha.
  destruct (fields low) as [|cloud [|mass [|seed [|ab [|sing rest]]]]] eqn:Hf;
    simpl in Hlen; try lia.
  simpl in Ha. by rewrite (stats_line_long _ _ _ _ _ _ _ _ _ Hf), Ha; simpl; rewrite Hlt.
Qed.

Lemma stats_parse_stops_at_low_record_witness :
  stats_parse
    (take 2 (global_stats_file example_followed)
     ++ row ["2"; "2"; "zz"; "1"; "2"; "1"; "1"] :: ["not a record"])
    low_seed_threshold (shards_of_list [("A", 5); ("B", 6)])
  = Ok (shards_of_list [("B", 6)]).
Proof.
  apply (stats_parse_stops_at_low_record _ _ _ _ _ _ 1).
  - by_compute.
  - vm_compute. lia.
  - by_compute.
  - by_compute.
Defined.


(** ** [swarms_parse]: the fields of a line *)

Lemma split_go_nonempty skip s : Re.split_go skip s ≠ [].
Proof.
  revert skip. induction s as [|c s IH]; intros skip; [done|]. simpl.
  destruct skip; [|apply IH].
  destruct (Re.separator_length _); [|done].
  by destruct (Re.split_go 0 s).
Qed.

Lemma split_go_unbroken f rest :
  unbroken f = true →
  Re.split_go 0 (f +:+ rest)
  = match Re.split_go 0 rest with
    | g :: fs => (f +:+ g) :: fs
    | [] => [f]
    end.
Proof.
  induction f as [|c f IH]; intros Hf.
  - change ("" +:+ rest) with rest. pose proof (split_go_nonempty 0 rest) as Hne.
    destruct (Re.split_go 0 rest); [by destruct Hne|done].
  - simpl in Hf. apply andb_true_iff in Hf as [Hc Hf].
    apply negb_true_iff, orb_false_iff in Hc as [[Hu Hs]%orb_false_iff Hsp].
    change (String c f +:+ rest) with (String c (f +:+ rest)).
    assert (Hsep : Re.separator_length (String c (f +:+ rest)) = 0%nat).
    { unfold Re.separator_length. cbn [String.prefix].
      repeat (destruct (ascii_dec _ c) as [<-|_]; [by vm_compute in Hu, Hs, Hsp|]).
      done. }
    cbn [Re.split_go]. rewrite Hsep, (IH Hf).
    by destruct (Re.split_go 0 rest).
Qed.

Lemma prefix_empty s : String.prefix "" s = true.
Proof. by destruct s. Qed.

Ltac decide_chars :=
  repeat match goal with
         | |- context [ascii_dec ?a ?b] =>
             destruct (ascii_dec a b) as [?|?]; [try discriminate|try done]
         end.

Lemma split_go_inner sep rest :
  sep = "_" ∨ sep = ";size=" ∨ sep = " " ∨ sep = "; " →
  Re.split_go 0 (sep +:+ rest) = "" :: Re.split_go 0 rest.
Proof.
  intros [-> | [-> | [-> | ->]]].
  - change ("_" +:+ rest) with (String "_" rest).
    cbn [Re.split_go]. unfold Re.separator_length. cbn [String.prefix].
    decide_chars. by rewrite prefix_empty.
  - change (";size=" +:+ rest)
      with (String ";" (String "s" (String "i" (String "z" (String "e" (String "=" rest)))))).
    cbn [Re.split_go]. unfold Re.separator_length at 1. cbn [String.prefix].
    decide_chars. by rewrite prefix_empty.
  - change (" " +:+ rest) with (String " " rest).
    cbn [Re.split_go]. unfold Re.separator_length. cbn [String.prefix].
    decide_chars. by rewrite prefix_empty.
  - change ("; " +:+ rest) with (String ";" (String " " rest)).
    cbn [Re.split_go]. unfold Re.separator_length at 1. cbn [String.prefix].
    decide_chars. by rewrite prefix_empty.
Qed.

Lemma append_String c s r : String c s +:+ r = String c (s +:+ r).
Proof. reflexivity. Qed.

Lemma append_empty_r s : s +:+ "" = s.
Proof. induction s as [|c s IH]; [done|]. by rewrite append_String, IH. Qed.

Lemma split_go_last f : unbroken f = true → Re.split_go 0 f = [f].
Proof.
  intros Hf. rewrite <- (append_empty_r f) at 1.
  rewrite (split_go_unbroken f "" Hf). simpl. by rewrite append_empty_r.
Qed.

Lemma split_go_field f sep rest :
  unbroken f = true →
  sep = "_" ∨ sep = ";size=" ∨ sep = " " ∨ sep = "; " →
  Re.split_go 0 (f +:+ sep +:+ rest) = f :: Re.split_go 0 rest.
Proof.
  intros Hf Hsep.
  by rewrite (split_go_unbroken f _ Hf), (split_go_inner sep rest Hsep), append_empty_r.
Qed.

Lemma membership_split tokens :
  tokens ≠ [] → Forall well_annotated tokens →
  Re.split (membership tokens)
  = flat_map (λ t, [amplicon_text t; abundance_text t]) tokens.
Proof.
  unfold Re.split. induction tokens as [|t tokens IH]; [done|]. intros _ Hall.
  apply Forall_cons in Hall as [(Ha & Hi & Hn & Ho) Hall].
  destruct tokens as [|t' tokens].
  - cbn [membership flat_map]. rewrite split_go_field; [|done|tauto].
    by rewrite (split_go_last _ Hn).
  - change (membership (t :: t' :: tokens))
      with (amplicon_text t +:+ inner t +:+ abundance_text t +:+ outer t
            +:+ membership (t' :: tokens)).
    rewrite split_go_field; [|done|tauto].
    rewrite split_go_field; [|done|tauto].
    rewrite IH by done. done.
Qed.

Lemma evens_pairs {A B} (f g : A → B) l :
  evens (flat_map (λ t, [f t; g t]) l) = f <$> l
  ∧ odds (flat_map (λ t, [f t; g t]) l) = g <$> l.
Proof.
  induction l as [|t l [IH1 IH2]]; [done|]. split.
  - cbn [flat_map app evens]. simpl. by rewrite IH1.
  - cbn [flat_map app odds]. simpl. destruct l as [|t' l]; [done|].
    simpl in *. by rewrite <- IH2.
Qed.

Lemma membership_line_fields_of (line : string) (tokens : list annotated) :
  tokens ≠ [] →
  Forall well_annotated tokens →
  Py.strip line = membership tokens →
  amplicons_of line = amplicon_text <$> tokens
  ∧ abundances_of line = abundance_text <$> tokens
  ∧ zip (amplicons_of line) (abundances_of line)
    = (λ t, (amplicon_text t, abundance_text t)) <$> tokens.
Proof.
  intros Hne Hall Hline. unfold amplicons_of, abundances_of.
  rewrite Hline, (membership_split tokens Hne Hall).
  destruct (evens_pairs amplicon_text abundance_text tokens) as [-> ->].
  split; [done|]. split; [done|].
  clear. induction tokens as [|t tokens IH]; [done|]. rewrite !fmap_cons. simpl. by rewrite IH.
Qed.

(** X4.  The separator of the membership file reads both annotation styles.
    On a line that lists amplicons with their abundance after an underscore
    or after [;size=], separated by a space that a semicolon may precede,
    [swarms_parse] reads the amplicons and the abundances in the order of
    the line, when the names and the abundances hold no underscore, no
    semicolon and no white space. *)
Theorem membership_line_fields (line : string) (tokens : list annotated) :
  tokens ≠ [] →
  Forall well_annotated tokens →
  Py.strip line = membership tokens →
  amplicons_of line = amplicon_text <$> tokens
  ∧ abundances_of line = abundance_text <$> tokens
  ∧ zip (amplicons_of line) (abundances_of line)
    = (λ t, (amplicon_text t, abundance_text t)) <$> tokens.
Proof. apply membership_line_fields_of. Qed.

Lemma membership_line_fields_witness :
  amplicons_of (row ["aa_3 bb;size=2; cc;size=1"]) = ["aa"; "bb"; "cc"]
  ∧ abundances_of (row ["aa_3 bb;size=2; cc;size=1"]) = ["3"; "2"; "1"]
  ∧ zip (amplicons_of (row ["aa_3 bb;size=2; cc;size=1"]))
        (abundances_of (row ["aa_3 bb;size=2; cc;size=1"]))
    = [("aa", "3"); ("bb", "2"); ("cc", "1")].
Proof.
  apply (membership_line_fields (row ["aa_3 bb;size=2; cc;size=1"])
           [{| amplicon_text := "aa"; inner := "_"; abundance_text := "3"; outer := " " |};
            {| amplicon_text := "bb"; inner := ";size="; abundance_text := "2";
               outer := "; " |};
            {| amplicon_text := "cc"; inner := ";size="; abundance_text := "1";
               outer := " " |}]).
  - done.
  - repeat (apply Forall_cons; split; [by repeat split; simpl; auto|]). apply Forall_nil_2.
  - reflexivity.
Defined.


(** ** [swarms_parse]: the two indexes *)

Lemma for_each_invariant_in {S A} (body : S → A → result (flow S)) (P : S → Prop) l :
  (∀ s x f, x ∈ l → P s → body s x = Ok f → P (flow_state f)) →
  ∀ st st', P st → for_each body st l = Ok st' → P st'.
Proof.
  induction l as [|x l IH]; intros Hbody st st' Hst; simpl.
  - by intros [= <-].
  - destruct (body st x) as [[s|s]|e] eqn:Hx; [| |done].
    + apply IH; [|by apply (Hbody _ _ _ ltac:(left) Hst Hx)].
      intros s0 x0 f Hin. apply Hbody. by right.
    + intros [= <-]. by apply (Hbody _ _ _ ltac:(left) Hst Hx).
Qed.

Lemma record_abundance_Ok sw amplicon abundance f :
  record_abundance sw (amplicon, abundance) = Ok f ↔
  ∃ i j d n, shard_of amplicon = Ok i ∧ slot (length sw) i = Some j ∧ sw !! j = Some d
             ∧ Py.int 10 abundance = Ok n
             ∧ f = Next (<[j := <[amplicon := n]> d]> sw).
Proof.
  unfold record_abundance. split.
  - intros (i & Hi & (n & Hn & (d & (j & Hj & Hd)%index_Ok
        & (sw' & (j' & Hj' & ->)%set_index_Ok & [= <-])%bind_Ok)%bind_Ok)%bind_Ok)%bind_Ok.
    exists i, j, d, n. rewrite Hj in Hj'. by injection Hj' as <-.
  - intros (i & j & d & n & Hi & Hj & Hd & Hn & ->).
    rewrite Hi. simpl. rewrite Hn. simpl.
    assert (Py.index sw i = Ok d) as -> by (apply index_Ok; eauto). simpl.
    assert (Py.set_index sw i (<[amplicon:=n]> d) = Ok (<[j := <[amplicon:=n]> d]> sw)) as ->
      by (apply set_index_Ok; eauto).
    done.
Qed.

(** What the loop over the pairs of a line leaves in [swarms]. *)
Lemma record_abundance_loop_lookup pairs : ∀ sw sw',
  length sw = 256%nat →
  for_each record_abundance sw pairs = Ok sw' →
  length sw' = 256%nat
  ∧ (∀ a n, shard_lookup sw' a = Some n →
       shard_lookup sw a = Some n
       ∨ ∃ abundance, (a, abundance) ∈ pairs ∧ Py.int 10 abundance = Ok n)
  ∧ (∀ a, is_Some (shard_lookup sw a) ∨ a ∈ pairs.*1 → is_Some (shard_lookup sw' a)).
Proof.
  induction pairs as [|[a0 ab0] pairs IH]; intros sw sw' Hlen.
  - intros [= <-]. split; [done|]. split; [by left|].
    intros a [?|Hin]; [done|]. by apply elem_of_nil in Hin.
  - rewrite for_each_cons.
    destruct (record_abundance sw (a0, ab0)) as [f|] eqn:Hf; [|done].
    apply record_abundance_Ok in Hf as (i & j & d & n0 & Hi & Hj & Hd & Hn0 & ->).
    rewrite Hlen in Hj. intros Hrest.
    destruct (IH _ _ ltac:(by rewrite length_insert) Hrest) as (Hlen' & Hsound & Hcomplete).
    split; [done|]. split.
    + intros a n [Hn|(ab & Hin & Hab)]%Hsound.
      * rewrite (shard_lookup_insert _ a0 i j d _ a Hlen Hi Hj Hd) in Hn.
        destruct (decide (a = a0)) as [->|_]; [|by left].
        injection Hn as <-. right. exists ab0. split; [left|done].
      * right. exists ab. split; [by right|done].
    + intros a Ha. apply Hcomplete.
      rewrite (shard_lookup_insert _ a0 i j d _ a Hlen Hi Hj Hd).
      destruct (decide (a = a0)) as [->|Hne]; [by left|].
      destruct Ha as [?|Hin]; [by left|]. right.
      rewrite fmap_cons in Hin. by apply elem_of_cons in Hin as [?|?].
Qed.

(** What the loop over the candidates of a line leaves in [global_seeds]. *)
Lemma record_global_seed_loop_lookup seed l : ∀ gs gs',
  length gs = 256%nat →
  for_each (record_global_seed seed) gs l = Ok gs' →
  length gs' = 256%nat
  ∧ (∀ c g, shard_lookup gs' c = Some g →
       shard_lookup gs c = Some g ∨ (c ∈ l ∧ g = seed))
  ∧ (∀ c, is_Some (shard_lookup gs c) ∨ c ∈ l → is_Some (shard_lookup gs' c)).
Proof.
  induction l as [|c0 l IH]; intros gs gs' Hlen.
  - intros [= <-]. split; [done|]. split; [by left|].
    intros c [?|Hin]; [done|]. by apply elem_of_nil in Hin.
  - rewrite for_each_cons.
    destruct (record_global_seed seed gs c0) as [f|] eqn:Hf; [|done].
    apply record_global_seed_Ok in Hf as (i & j & d & Hi & Hj & Hd & ->).
    rewrite Hlen in Hj. intros Hrest.
    destruct (IH _ _ ltac:(by rewrite length_insert) Hrest) as (Hlen' & Hsound & Hcomplete).
    split; [done|]. split.
    + intros c g [Hg|[Hin ->]]%Hsound.
      * rewrite (shard_lookup_insert _ c0 i j d _ c Hlen Hi Hj Hd) in Hg.
        destruct (decide (c = c0)) as [->|_]; [|by left].
        injection Hg as <-. right. split; [left|done].
      * right. split; [by right|done].
    + intros c Hc. apply Hcomplete.
      rewrite (shard_lookup_insert _ c0 i j d _ c Hlen Hi Hj Hd).
      destruct (decide (c = c0)) as [->|Hne]; [by left|].
      destruct Hc as [?|Hin]; [by left|]. right.
      by apply elem_of_cons in Hin as [?|?].
Qed.

(** One line of the membership file. *)
Lemma swarms_line_Ok iter seeds_set st line f :
  swarms_line iter seeds_set st line = Ok f →
  ∃ seed st',
    head (amplicons_of line) = Some seed
    ∧ f = (if seeds_to_find st' =? 0 then Break st' else Next st')
    ∧ ((seeds_set ∩ list_to_set (amplicons_of line) = ∅ ∧ st' = st)
       ∨ (seeds_set ∩ list_to_set (amplicons_of line) ≠ ∅
          ∧ for_each record_abundance (swarms st)
              (zip (amplicons_of line) (abundances_of line)) = Ok (swarms st')
          ∧ for_each (record_global_seed seed) (global_seeds st)
              (iter (seeds_set ∩ list_to_set (amplicons_of line))) = Ok (global_seeds st')
          ∧ seeds_to_find st'
            = seeds_to_find st
              - Z.of_nat (size (seeds_set ∩ list_to_set (amplicons_of line))))).
Proof.
  unfold swarms_line. fold (amplicons_of line) (abundances_of line).
  intros (seed & Hseed%index_head & (st' & Hst' & Hf)%bind_Ok)%bind_Ok.
  exists seed, st'. split; [done|]. split.
  { by destruct (seeds_to_find st' =? 0); injection Hf as <-. }
  destruct (decide _) as [Hcommon|Hcommon].
  - right. split; [done|].
    apply bind_Ok in Hst' as (sw & Hsw & (gs & Hgs & [= <-])%bind_Ok). by simpl.
  - left. apply dec_stable in Hcommon. split; [done|]. by injection Hst' as <-.
Qed.


Lemma amplicons_of_nonempty line : ∃ seed, head (amplicons_of line) = Some seed.
Proof.
  unfold amplicons_of, Re.split.
  pose proof (split_go_nonempty 0 (Py.strip line)) as Hne.
  destruct (Re.split_go 0 (Py.strip line)) as [|a [|b l]]; [done| |]; by exists a.
Qed.

(** X5.  Only the clusters that hold a candidate are indexed.  An abundance
    in [swarms] was read on a line of the membership file that names a
    candidate; a key of [global_seeds] is a candidate, and its value is the
    first amplicon of a line that names it. *)
Theorem swarms_parse_indexes_candidate_lines (iter : gset string → list string)
    (file : list string) (seeds sw : list (gmap string Z))
    (gs : list (gmap string string)) :
  iteration_order iter →
  swarms_parse iter file seeds = Ok (sw, gs) →
  (∀ a n, shard_lookup sw a = Some n →
     ∃ line abundance,
       line ∈ file
       ∧ keys_of seeds ∩ list_to_set (amplicons_of line) ≠ ∅
       ∧ (a, abundance) ∈ zip (amplicons_of line) (abundances_of line)
       ∧ Py.int 10 abundance = Ok n)
  ∧ (∀ c g, shard_lookup gs c = Some g →
       c ∈ keys_of seeds
       ∧ ∃ line, line ∈ file ∧ head (amplicons_of line) = Some g ∧ c ∈ amplicons_of line).
Proof.
  intros Horder. unfold swarms_parse.
  intros (st & Hloop & [= <- <-])%bind_Ok.
  set (P := λ st : swarms_state,
    length (swarms st) = 256%nat ∧ length (global_seeds st) = 256%nat
    ∧ (∀ a n, shard_lookup (swarms st) a = Some n →
         ∃ line abundance,
           line ∈ file
           ∧ keys_of seeds ∩ list_to_set (amplicons_of line) ≠ ∅
           ∧ (a, abundance) ∈ zip (amplicons_of line) (abundances_of line)
           ∧ Py.int 10 abundance = Ok n)
    ∧ (∀ c g, shard_lookup (global_seeds st) c = Some g →
         c ∈ keys_of seeds
         ∧ ∃ line, line ∈ file ∧ head (amplicons_of line) = Some g
                   ∧ c ∈ amplicons_of line)).
  assert (HP : P st); [|by destruct HP as (_ & _ & ? & ?)].
  revert Hloop. apply (for_each_invariant_in _ P).
  - intros s line f Hin (Hlen1 & Hlen2 & Hsw & Hgs) Hf.
    apply swarms_line_Ok in Hf as (seed & st' & Hseed & -> & Hcase).
    assert (P st') as HP'; [|by destruct (_ =? _)].
    destruct Hcase as [[_ ->]|(Hcommon & Hab & Hg & _)]; [done|].
    destruct (record_abundance_loop_lookup _ _ _ Hlen1 Hab) as (Hlen1' & Hsound1 & _).
    destruct (record_global_seed_loop_lookup _ _ _ _ Hlen2 Hg) as (Hlen2' & Hsound2 & _).
    split; [done|]. split; [done|]. split.
    + intros a n [Hold|(ab & Hpair & Hn)]%Hsound1; [by apply Hsw|].
      by exists line, ab.
    + intros c g [Hold|[Hc ->]]%Hsound2; [by apply Hgs|].
      rewrite (Horder _) in Hc. apply elem_of_elements, elem_of_intersection in Hc as [Hc Hc'].
      split; [done|]. exists line. split; [done|]. split; [done|].
      by apply elem_of_list_to_set in Hc'.
  - split; [done|]. split; [done|]. simpl. split.
    + intros a n. by rewrite new_shards_lookup.
    + intros c g. by rewrite new_shards_lookup.
Qed.

Lemma swarms_parse_indexes_candidate_lines_witness :
  (∀ a n, shard_lookup
            (shards_of_list [("A", 100); ("B", 40); ("C", 40); ("D", 5); ("E", 1);
                             ("1a", 30); ("1b", 10)]) a = Some n →
     ∃ line abundance,
       line ∈ swarms_file example_followed
       ∧ keys_of followed_seeds ∩ list_to_set (amplicons_of line) ≠ ∅
       ∧ (a, abundance) ∈ zip (amplicons_of line) (abundances_of line)
       ∧ Py.int 10 abundance = Ok n)
  ∧ (∀ c g, shard_lookup followed_global_seeds c = Some g →
       c ∈ keys_of followed_seeds
       ∧ ∃ line, line ∈ swarms_file example_followed
                 ∧ head (amplicons_of line) = Some g ∧ c ∈ amplicons_of line).
Proof.
  apply (swarms_parse_indexes_candidate_lines elements).
  - intros s. reflexivity.
  - by_compute.
Defined.

Lemma swarms_line_keeps iter seeds_set st line f :
  length (swarms st) = 256%nat → length (global_seeds st) = 256%nat →
  swarms_line iter seeds_set st line = Ok f →
  length (swarms (flow_state f)) = 256%nat
  ∧ length (global_seeds (flow_state f)) = 256%nat
  ∧ (∀ a, is_Some (shard_lookup (swarms st) a) →
          is_Some (shard_lookup (swarms (flow_state f)) a))
  ∧ (∀ c, is_Some (shard_lookup (global_seeds st) c) →
          is_Some (shard_lookup (global_seeds (flow_state f)) c)).
Proof.
  intros Hlen1 Hlen2 (seed & st' & Hseed & -> & Hcase)%swarms_line_Ok.
  assert (flow_state (if seeds_to_find st' =? 0 then Break st' else Next st') = st') as ->
    by (by destruct (_ =? _)).
  destruct Hcase as [[_ ->]|(Hcommon & Hab & Hg & _)]; [done|].
  destruct (record_abundance_loop_lookup _ _ _ Hlen1 Hab) as (Hlen1' & _ & Hc1).
  destruct (record_global_seed_loop_lookup _ _ _ _ Hlen2 Hg) as (Hlen2' & _ & Hc2).
  split; [done|]. split; [done|]. split; intros; [apply Hc1|apply Hc2]; by left.
Qed.

(** X6.  A line that names a candidate is indexed when the scan reads it:
    in the result every amplicon of the line that has an abundance on it is
    a key of [swarms], and every candidate of the line a key of
    [global_seeds], whatever the lines that follow. *)
Theorem swarms_parse_indexes_read_line (iter : gset string → list string)
    (before after : list string) (line : string) (seeds sw : list (gmap string Z))
    (gs : list (gmap string string)) (st : swarms_state) :
  iteration_order iter →
  runs_through (swarms_line iter (keys_of seeds)) (swarms_init seeds) before = Some st →
  keys_of seeds ∩ list_to_set (amplicons_of line) ≠ ∅ →
  swarms_parse iter (before ++ line :: after) seeds = Ok (sw, gs) →
  (∀ a, a ∈ (zip (amplicons_of line) (abundances_of line)).*1 →
        is_Some (shard_lookup sw a))
  ∧ (∀ c, c ∈ keys_of seeds → c ∈ amplicons_of line → is_Some (shard_lookup gs c)).
Proof.
  intros Horder Hbefore Hcommon. unfold swarms_parse.
  intros (final & Hloop & [= <- <-])%bind_Ok.
  change {| swarms := new_shards; global_seeds := new_shards;
            seeds_to_find := Z.of_nat (size (keys_of seeds)) |}
    with (swarms_init seeds) in Hloop.
  rewrite (for_each_runs_through _ _ _ _ _ Hbefore), for_each_cons in Hloop.
  assert (Hst : length (swarms st) = 256%nat ∧ length (global_seeds st) = 256%nat).
  { apply (runs_through_invariant (swarms_line iter (keys_of seeds))
             (λ s, length (swarms s) = 256%nat ∧ length (global_seeds s) = 256%nat))
      with (l := before) (st := swarms_init seeds); [|done|done].
    intros s x f [H1 H2] Hx. by destruct (swarms_line_keeps _ _ _ _ _ H1 H2 Hx) as (? & ? & _). }
  destruct Hst as [Hlen1 Hlen2].
  destruct (swarms_line iter (keys_of seeds) st line) as [f|] eqn:Hline; [|done].
  apply swarms_line_Ok in Hline as (seed & st' & Hseed & -> & Hcase).
  destruct Hcase as [[Hempty _]|(_ & Hab & Hg & _)]; [done|].
  destruct (record_abundance_loop_lookup _ _ _ Hlen1 Hab) as (Hlen1' & _ & Hc1).
  destruct (record_global_seed_loop_lookup _ _ _ _ Hlen2 Hg) as (Hlen2' & _ & Hc2).
  assert (Hfinal : length (swarms final) = 256%nat ∧ length (global_seeds final) = 256%nat
           ∧ (∀ a, is_Some (shard_lookup (swarms st') a) →
                   is_Some (shard_lookup (swarms final) a))
           ∧ (∀ c, is_Some (shard_lookup (global_seeds st') c) →
                   is_Some (shard_lookup (global_seeds final) c))).
  { destruct (seeds_to_find st' =? 0).
    - injection Hloop as <-. done.
    - apply (for_each_invariant (swarms_line iter (keys_of seeds))
               (λ s, length (swarms s) = 256%nat ∧ length (global_seeds s) = 256%nat
                     ∧ (∀ a, is_Some (shard_lookup (swarms st') a) →
                             is_Some (shard_lookup (swarms s) a))
                     ∧ (∀ c, is_Some (shard_lookup (global_seeds st') c) →
                             is_Some (shard_lookup (global_seeds s) c))))
        with (l := after) (st := st'); [|done|done].
      intros s x f (H1 & H2 & H3 & H4) Hx.
      destruct (swarms_line_keeps _ _ _ _ _ H1 H2 Hx) as (? & ? & H5 & H6).
      split; [done|]. split; [done|]. split; intros; [apply H5, H3|apply H6, H4]; done. }
  destruct Hfinal as (_ & _ & H3 & H4). split.
  - intros a Ha. apply H3, Hc1. by right.
  - intros c Hc Hin. apply H4, Hc2. right.
    rewrite (Horder _). apply elem_of_elements, elem_of_intersection.
    split; [done|]. by apply elem_of_list_to_set.
Qed.

Lemma swarms_parse_indexes_read_line_witness :
  (∀ a, a ∈ (zip (amplicons_of (row ["A_100 B_40 C_40 D_5 E_1"]))
                 (abundances_of (row ["A_100 B_40 C_40 D_5 E_1"]))).*1 →
        is_Some (shard_lookup
                   (shards_of_list [("A", 100); ("B", 40); ("C", 40); ("D", 5); ("E", 1);
                                    ("1a", 30); ("1b", 10)]) a))
  ∧ (∀ c, c ∈ keys_of followed_seeds → c ∈ amplicons_of (row ["A_100 B_40 C_40 D_5 E_1"]) →
          is_Some (shard_lookup followed_global_seeds c)).
Proof.
  apply (swarms_parse_indexes_read_line elements [] (drop 1 (swarms_file example_followed))
           (row ["A_100 B_40 C_40 D_5 E_1"]) followed_seeds _ _ (swarms_init followed_seeds)).
  - intros s. reflexivity.
  - reflexivity.
  - by_compute.
  - by_compute.
Defined.


(** X7.  Without a candidate nothing is indexed: the two indexes are empty,
    whatever the membership file holds; the scan reads its first line at
    most. *)
Theorem swarms_parse_without_candidate (iter : gset string → list string)
    (file : list string) (seeds : list (gmap string Z)) :
  keys_of seeds = ∅ →
  swarms_parse iter file seeds = Ok (new_shards, new_shards).
Proof.
  intros Hnone. unfold swarms_parse. rewrite Hnone.
  destruct file as [|line file]; [done|].
  rewrite for_each_cons. unfold swarms_line.
  fold (amplicons_of line) (abundances_of line).
  destruct (amplicons_of_nonempty line) as [seed Hseed%index_head]. rewrite Hseed. simpl.
  rewrite decide_False; [done|]. intros Hne. apply Hne. set_solver.
Qed.

Lemma swarms_parse_without_candidate_witness :
  swarms_parse elements ["not;size= a line"; "aa_1"] new_shards
  = Ok (new_shards, new_shards).
Proof. apply swarms_parse_without_candidate. by_compute. Defined.

Lemma for_each_stopped {S A} (body : S → A → result (flow S)) (stop : S → Prop) l1 l2 :
  (∀ s x s', body s x = Ok (Next s') → ¬ stop s') →
  l1 ≠ [] →
  ∀ st st', for_each body st l1 = Ok st' → stop st' →
            for_each body st (l1 ++ l2) = Ok st'.
Proof.
  intros Hnext. induction l1 as [|x l1 IH]; [done|]. intros _ st st'.
  rewrite <- app_comm_cons, !for_each_cons.
  destruct (body st x) as [[s|s]|e] eqn:Hx; [|done|done].
  destruct l1 as [|y l1].
  - intros [= <-] Hstop. by destruct (Hnext _ _ _ Hx).
  - by apply IH.
Qed.

(** X8.  The scan of the membership file stops as soon as the count of the
    candidates still to find is zero: when it is zero after the lines
    [before], what follows them is not read. *)
Theorem swarms_parse_stops_when_all_found (iter : gset string → list string)
    (before after : list string) (seeds : list (gmap string Z)) (st : swarms_state) :
  for_each (swarms_line iter (keys_of seeds)) (swarms_init seeds) before = Ok st →
  seeds_to_find st = 0 →
  swarms_parse iter (before ++ after) seeds = Ok (swarms st, global_seeds st).
Proof.
  intros Hbefore Hzero.
  destruct before as [|line before].
  - injection Hbefore as <-. simpl in Hzero.
    rewrite swarms_parse_without_candidate; [done|].
    apply leibniz_equiv, size_empty_inv. lia.
  - unfold swarms_parse.
    change {| swarms := new_shards; global_seeds := new_shards;
              seeds_to_find := Z.of_nat (size (keys_of seeds)) |}
      with (swarms_init seeds).
    rewrite (for_each_stopped _ (λ s, seeds_to_find s = 0) _ after) with (st' := st); try done.
    intros s x s' (seed & st' & _ & Hf & _)%swarms_line_Ok.
    destruct (Z.eqb_spec (seeds_to_find st') 0); [done|]. by injection Hf as ->.
Qed.

Lemma swarms_parse_stops_when_all_found_witness :
  swarms_parse elements (swarms_file example_followed ++ ["B_x"])
    followed_seeds
  = Ok (shards_of_list [("A", 100); ("B", 40); ("C", 40); ("D", 5); ("E", 1);
                        ("1a", 30); ("1b", 10)],
        followed_global_seeds).
Proof.
  apply (swarms_parse_stops_when_all_found elements _ _ _
           {| swarms := shards_of_list [("A", 100); ("B", 40); ("C", 40); ("D", 5);
                                        ("E", 1); ("1a", 30); ("1b", 10)];
              global_seeds := followed_global_seeds;
              seeds_to_find := 0 |}).
  - by_compute.
  - reflexivity.
Defined.


(** ** [struct_parse]: records and emitted sub-clusters *)

Lemma count_seeds_nonneg (seeds : list (gmap string Z)) : 0 ≤ count_seeds seeds.
Proof.
  unfold count_seeds. induction seeds as [|d seeds IH]; [done|].
  cbn [foldr]. lia.
Qed.

Lemma count_seeds_zero (seeds : list (gmap string Z)) :
  count_seeds seeds = 0 ↔ keys_of seeds = ∅.
Proof.
  unfold keys_of. induction seeds as [|d seeds IH]; [done|].
  pose proof (count_seeds_nonneg seeds) as Hpos. unfold count_seeds in *.
  rewrite fmap_cons. cbn [foldr union_list]. split.
  - intros H. assert (size d = 0%nat) as Hd by lia.
    apply map_size_empty_inv in Hd.
    rewrite Hd, dom_empty_L, (proj1 IH) by lia. set_solver.
  - intros [Hd Hrest]%empty_union_L.
    apply dom_empty_inv_L in Hd. rewrite Hd, map_size_empty, (proj2 IH Hrest). done.
Qed.

Lemma struct_line_record seeds gss st line father son diffs cluster_id steps id :
  fields line = [father; son; diffs; cluster_id; steps] →
  Py.int 10 cluster_id = Ok id →
  struct_line seeds gss st line
  = (let st := if decide (id ≠ previous_cluster_id st)
               then start_cluster gss st father id else st in
     if number_of_seeds st =? 0 then Ok (Break st)
     else match has_a_local_seed st with
          | None => Raise UnboundLocalError
          | Some false => Ok (Next st)
          | Some true =>
              index ← shard_of son;
              d ← Py.index seeds index;
              match d !! son with
              | Some _ =>
                  Ok (Next {| number_of_seeds := number_of_seeds st - 1;
                              previous_cluster_id := previous_cluster_id st;
                              clusters := dict_set (clusters st) son {[son]};
                              new_clusters := new_clusters st;
                              has_a_local_seed := has_a_local_seed st |})
              | None =>
                  Ok (Next {| number_of_seeds := number_of_seeds st;
                              previous_cluster_id := previous_cluster_id st;
                              clusters := populate father son (clusters st);
                              new_clusters := new_clusters st;
                              has_a_local_seed := has_a_local_seed st |})
              end
          end).
Proof.
  intros Hf Hid. unfold struct_line. fold (fields line). rewrite Hf. simpl.
  by rewrite Hid.
Qed.

Lemma unpack5_not_five {A} (l : list A) :
  length l ≠ 5%nat → Py.unpack5 l = Raise ValueError.
Proof. by destruct l as [|a [|b [|c [|d [|e [|x l]]]]]]. Qed.

Lemma struct_line_malformed seeds gss st line :
  length (fields line) ≠ 5%nat
  ∨ (∃ cluster_id, fields line !! 3%nat = Some cluster_id
                   ∧ is_raise (Py.int 10 cluster_id)) →
  struct_line seeds gss st line = Raise ValueError.
Proof.
  unfold struct_line. fold (fields line). intros [Hlen|(cluster_id & Hid & e & He)].
  - by rewrite unpack5_not_five.
  - destruct (fields line) as [|a [|b [|c [|d [|e' [|x l]]]]]]; try done.
    simpl in Hid. injection Hid as ->. simpl. rewrite He. simpl.
    by apply int_error in He as ->.
Qed.

(** X9.  A record of the merge log is stripped of the white space around
    it and split at the tabs; it must then have exactly five fields, the
    fourth an integer.  When the scan reads a record with fewer than five
    tab-separated fields, a record that has fewer or more than five fields
    once stripped, or a record whose cluster identifier is no integer, the
    run of [struct_parse] ends with [ValueError].  The first record of the
    file is always read, also when no candidate is left. *)
Theorem struct_parse_rejects_malformed_record (before after : list string)
    (line : string) (seeds : list (gmap string Z))
    (global_seeds : list (gmap string string)) (st : struct_state) :
  runs_through (struct_line seeds (values_of global_seeds)) (struct_init seeds) before
    = Some st →
  (length (tab_separated line) < 5)%nat
  ∨ length (fields line) ≠ 5%nat
  ∨ (∃ cluster_id, fields line !! 3%nat = Some cluster_id
                   ∧ is_raise (Py.int 10 cluster_id)) →
  struct_parse (before ++ line :: after) seeds global_seeds = Raise ValueError.
Proof.
  intros Hbefore Hbad. unfold struct_parse.
  rewrite (for_each_runs_through _ _ _ _ _ Hbefore), for_each_cons.
  rewrite (struct_line_malformed seeds (values_of global_seeds) st line); [done|].
  destruct Hbad as [Hshort|[Hlen|Hid]]; [|by left|by right].
  left. pose proof (fields_length line). lia.
Qed.

Lemma struct_parse_rejects_malformed_record_witness :
  struct_parse ([] ++ row ["A"; "B"; "1"; "1"; "1"; "0"] :: []) new_shards new_shards
  = Raise ValueError.
Proof.
  apply (struct_parse_rejects_malformed_record [] [] _ _ _ (struct_init new_shards)).
  - reflexivity.
  - right. left. vm_compute. lia.
Defined.

(** X10.  Without a candidate no cluster is cleaved: the scan of the merge
    log stops on its first record, and returns the empty list when this
    record is well-formed, whatever follows it. *)
Theorem struct_parse_without_candidate (line : string) (rest : list string)
    (seeds : list (gmap string Z)) (global_seeds : list (gmap string string))
    (id : Z) (edge : string * string) :
  keys_of seeds = ∅ →
  edge_line id line edge →
  struct_parse [] seeds global_seeds = Ok []
  ∧ struct_parse (line :: rest) seeds global_seeds = Ok [].
Proof.
  intros Hnone%count_seeds_zero (diffs & cluster_id & steps & Hf & Hid).
  split; [done|]. unfold struct_parse. rewrite for_each_cons.
  rewrite (struct_line_record _ _ _ _ _ _ _ _ _ _ Hf Hid). cbn zeta.
  destruct (decide _); simpl; by rewrite Hnone.
Qed.

Lemma struct_parse_without_candidate_witness :
  struct_parse [] new_shards followed_global_seeds = Ok []
  ∧ struct_parse (row ["A"; "B"; "1"; "1"; "1"] :: ["not a record"]) new_shards
      followed_global_seeds = Ok [].
Proof.
  apply (struct_parse_without_candidate _ _ _ _ 1 ("A", "B")).
  - by_compute.
  - exists "1", "1", "1". split; by_compute.
Defined.


Lemma attach_son_grows father son cl cl' :
  attach_son father son cl = Some cl' →
  Forall2 (λ e e' : string * gset string, e'.1 = e.1 ∧ e.2 ⊆ e'.2) cl cl'.
Proof.
  revert cl'. induction cl as [|[d members] cl IH]; intros cl'; simpl; [done|].
  destruct (decide _).
  - intros [= <-]. constructor; [split; [done|set_solver]|].
    by apply Forall_Forall2_diag, Forall_forall.
  - destruct (attach_son father son cl) as [cl''|]; [|done].
    intros [= <-]. constructor; [done|]. by apply IH.
Qed.

Lemma populate_grows father son cl :
  Forall2 (λ e e' : string * gset string, e'.1 = e.1 ∧ e.2 ⊆ e'.2) cl
    (populate father son cl).
Proof.
  unfold populate. destruct (attach_son father son cl) eqn:H.
  - by apply attach_son_grows in H.
  - unfold attach_father. apply Forall2_fmap_r, Forall_Forall2_diag, Forall_forall.
    intros [d members] _. simpl.
    destruct (decide (son ∈ members)); simpl; (split; [done|set_solver]).
Qed.

Lemma carved_populate seeds gss father son cl :
  carved seeds gss cl → carved seeds gss (populate father son cl).
Proof.
  intros (Hok & Hrooted & g & members & rest & -> & Hg & Hrest).
  pose proof (populate_grows father son ((g, members) :: rest)) as Hgrow.
  pose proof (populate_keys father son ((g, members) :: rest)) as Hkeys.
  split; [unfold dict_ok; by rewrite Hkeys|]. split.
  - intros root m' [i Hi]%list_elem_of_lookup.
    destruct (Forall2_lookup_r _ _ _ _ _ Hgrow Hi) as ([root0 m0] & H0 & Hroot & Hsub).
    simpl in *. subst root0. apply Hsub, (Hrooted root). by apply list_elem_of_lookup_2 in H0.
  - destruct (populate father son ((g, members) :: rest)) as [|[g' members'] rest'];
      [done|].
    rewrite !fmap_cons in Hkeys. simpl in Hkeys. injection Hkeys as -> Hkeys.
    exists g, members', rest'. split; [done|]. split; [done|]. by rewrite Hkeys.
Qed.

Lemma carved_candidate seeds gss son cl :
  is_candidate seeds son = true →
  carved seeds gss cl → carved seeds gss (dict_set cl son {[son]}).
Proof.
  intros Hson (Hok & Hrooted & g & members & rest & -> & Hg & Hrest).
  split; [by apply dict_set_ok|]. split.
  - intros root m [[-> ->]|[Hin _]]%elem_of_dict_set; [set_solver| by apply Hrooted|done].
  - simpl. destruct (decide (son = g)) as [->|Hne].
    + by exists g, {[g]}, rest.
    + exists g, members, (dict_set rest son {[son]}). split; [done|]. split; [done|].
      rewrite dict_set_keys. destruct (decide _); [done|].
      apply Forall_app. split; [done|]. by constructor.
Qed.

Lemma is_candidate_index (seeds : list (gmap string Z)) son i d n :
  shard_of son = Ok i → Py.index seeds i = Ok d → d !! son = Some n →
  is_candidate seeds son = true.
Proof.
  intros Hi (j & Hj & Hd)%index_Ok Hn. unfold is_candidate. apply bool_decide_eq_true.
  exists n. unfold shard_lookup. rewrite Hi, Hj. simpl. by rewrite Hd.
Qed.

Lemma struct_line_carved seeds gss st line f :
  match has_a_local_seed st with
  | Some true => carved seeds gss (clusters st)
  | _ => clusters st = []
  end →
  Forall (carved seeds gss) (new_clusters st) →
  struct_line seeds gss st line = Ok f →
  match has_a_local_seed (flow_state f) with
  | Some true => carved seeds gss (clusters (flow_state f))
  | _ => clusters (flow_state f) = []
  end
  ∧ Forall (carved seeds gss) (new_clusters (flow_state f)).
Proof.
  intros Hcl Hnew. unfold struct_line. intros H.
  apply bind_Ok in H as ([[[[father son] diffs] cluster_id] steps] & _ & H).
  apply bind_Ok in H as (id & _ & H).
  set (st1 := if decide (id ≠ previous_cluster_id st) then _ else st) in H.
  assert (H1 : match has_a_local_seed st1 with
               | Some true => carved seeds gss (clusters st1)
               | _ => clusters st1 = []
               end ∧ Forall (carved seeds gss) (new_clusters st1)).
  { unfold st1. destruct (decide _); [|done]. simpl. split.
    - destruct (bool_decide_reflect (father ∈ gss)) as [Hin|]; [|done].
      split; [apply NoDup_singleton|]. split.
      + intros root m [[= -> ->]|[]%elem_of_nil]%elem_of_cons. set_solver.
      + exists father, {[father]}, []. by repeat split.
    - destruct (clusters st) as [|e cl] eqn:Heq; [done|].
      apply Forall_app. split; [done|]. constructor; [|done].
      destruct (has_a_local_seed st) as [[]|]; done. }
  clearbody st1. destruct H1 as [Hcl1 Hnew1].
  destruct (number_of_seeds st1 =? 0); [by inversion H; subst|].
  destruct (has_a_local_seed st1) as [[]|] eqn:Hflag; [| by inversion H; subst; simpl; rewrite Hflag | done].
  apply bind_Ok in H as (i & Hi & H). apply bind_Ok in H as (d & Hd & H).
  destruct (d !! son) as [n|] eqn:Hn; inversion H; subst; simpl; (split; [|done]).
  - apply carved_candidate; [|done]. by apply (is_candidate_index _ _ i d n).
  - by apply carved_populate.
Qed.

(** X11.  The shape of what [struct_parse] returns.  Every emitted cluster
    is a non-empty list of sub-clusters with distinct roots; the first
    sub-cluster is rooted at a global seed of a candidate, the others at
    candidates, and every root is a member of its sub-cluster. *)
Theorem struct_parse_emits_carved_clusters (file : list string)
    (seeds : list (gmap string Z)) (global_seeds : list (gmap string string))
    (ncs : list (list (string * gset string))) :
  struct_parse file seeds global_seeds = Ok ncs →
  Forall (carved seeds (values_of global_seeds)) ncs.
Proof.
  unfold struct_parse. intros (st & Hst & [= <-])%bind_Ok.
  apply (for_each_invariant (struct_line seeds (values_of global_seeds))
           (λ st, match has_a_local_seed st with
                  | Some true => carved seeds (values_of global_seeds) (clusters st)
                  | _ => clusters st = []
                  end
                  ∧ Forall (carved seeds (values_of global_seeds)) (new_clusters st)))
    with (l := file) (st := struct_init seeds) in Hst; [by destruct Hst| |done].
  intros s x f [? ?] Hx. by apply (struct_line_carved _ _ _ _ _ ltac:(done) ltac:(done) Hx).
Qed.

Lemma struct_parse_emits_carved_clusters_witness :
  Forall (carved followed_seeds (values_of followed_global_seeds))
    [[("A", {["A"; "D"; "E"]}); ("B", {["B"; "C"]})]].
Proof.
  apply (struct_parse_emits_carved_clusters (struct_file example_followed)).
  by_compute.
Defined.


(** ** [add_abundance_values]: the members and their abundance *)

Lemma with_abundance_names sw l r : with_abundance sw l = Ok r → r.*1 = l.
Proof.
  intros H%with_abundance_Ok. induction H as [|a p l r [Hp _] _ IH]; [done|].
  rewrite fmap_cons. by f_equal.
Qed.

Lemma with_abundance_values sw l r a n :
  with_abundance sw l = Ok r → (a, n) ∈ r → abundance_of sw a = Ok n.
Proof.
  intros H%with_abundance_Ok. induction H as [|a' p l r [Hp Hn] _ IH]; [by intros ?%elem_of_nil|].
  intros [Heq|Hin]%elem_of_cons; [|by apply IH]. subst p. simpl in *. by subst.
Qed.

Lemma sorted_head_is_top (l : list (string * Z)) key :
  StronglySorted precedes l → head l.*1 = Some key →
  ∃ top, head l = Some (key, top) ∧ ∀ a n, (a, n) ∈ l → n ≤ top.
Proof.
  destruct l as [|[k top] l]; [done|]. intros [Hs Hall]%StronglySorted_inv [= ->].
  exists top. split; [done|]. intros a n [[= -> ->]|Hin]%elem_of_cons; [done|].
  rewrite Forall_forall in Hall. destruct (Hall _ Hin) as [?|[? _]]; simpl in *; lia.
Qed.

(** X12.  Sorting neither loses nor invents a member.  The list stored for
    an emitted sub-cluster holds the members of one sub-cluster of the
    cluster, each once, with the abundance that [swarms] records for it;
    its key is one of these members, and no member has more reads than the
    key. *)
Theorem add_abundance_values_keeps_members (iter : gset string → list string)
    (sw : list (gmap string Z)) (ncs : list (list (string * gset string)))
    (result : list (list (string * entry))) :
  iteration_order iter →
  Forall dict_ok ncs →
  add_abundance_values iter ncs sw = Ok result →
  Forall2 (λ super_cluster emitted,
             ∀ key value, (key, value) ∈ emitted →
               ∃ l cluster members top,
                 value = Swarm l
                 ∧ (cluster, members) ∈ super_cluster
                 ∧ l.*1 ≡ₚ elements members
                 ∧ key ∈ members
                 ∧ abundance_of sw key = Ok top
                 ∧ ∀ a n, (a, n) ∈ l → abundance_of sw a = Ok n ∧ n ≤ top)
          ncs result.
Proof.
  intros Horder Hok Hrun.
  eapply Forall2_impl; [by apply (add_abundance_values_sorted iter sw)|].
  intros sc emitted [_ Hel] key value Hin.
  destruct (Hel key value Hin)
    as (l & -> & (cluster & members & l0 & Hsc & Hl0 & -> & _) & Hsorted & Hhead).
  destruct (sorted_head_is_top _ _ Hsorted Hhead) as (top & Htop & Hmax).
  assert (Hperm : stable_sort swarm_le l0 ≡ₚ l0) by apply stable_sort_perm.
  assert (Hnames : (stable_sort swarm_le l0).*1 ≡ₚ elements members).
  { by rewrite Hperm, (with_abundance_names _ _ _ Hl0). }
  assert (Hvalue : ∀ a n, (a, n) ∈ stable_sort swarm_le l0 → abundance_of sw a = Ok n).
  { intros a n Ha. apply (with_abundance_values _ _ _ _ _ Hl0). by rewrite <- Hperm. }
  assert (Hkey : (key, top) ∈ stable_sort swarm_le l0) by (by apply head_Some_elem_of).
  exists (stable_sort swarm_le l0), cluster, members, top.
  split; [done|]. split; [done|]. split; [done|]. split.
  - apply elem_of_elements. rewrite <- Hnames. apply list_elem_of_fmap.
    by exists (key, top).
  - split; [by apply Hvalue|]. intros a n Ha. split; [by apply Hvalue|by apply (Hmax a)].
Qed.

Lemma add_abundance_values_keeps_members_witness :
  Forall2 (λ super_cluster emitted,
             ∀ key value, (key, value) ∈ emitted →
               ∃ l cluster members top,
                 value = Swarm l
                 ∧ (cluster, members) ∈ super_cluster
                 ∧ l.*1 ≡ₚ elements members
                 ∧ key ∈ members
                 ∧ abundance_of tied_swarms key = Ok top
                 ∧ ∀ a n, (a, n) ∈ l → abundance_of tied_swarms a = Ok n ∧ n ≤ top)
          [[("bb", ({["bb"; "aa"]} : gset string))]]
          [[("aa", Swarm [("aa", 10); ("bb", 10)])]].
Proof.
  apply (add_abundance_values_keeps_members elements).
  - intros s. reflexivity.
  - repeat constructor. set_solver.
  - by_compute.
Defined.


Lemma abundance_of_lookup sw a n :
  abundance_of sw a = Ok n → shard_lookup sw a = Some n.
Proof.
  unfold abundance_of, shard_lookup.
  intros (i & -> & (d & (j & -> & Hd)%index_Ok & H)%bind_Ok)%bind_Ok.
  simpl. rewrite Hd. simpl. by destruct (d !! a) as [m|]; [injection H as ->|].
Qed.

Lemma abundance_of_error sw a e :
  length sw = 256%nat → is_ok (shard_of a) →
  abundance_of sw a = Raise e → e = KeyError.
Proof.
  intros Hlen [i Hi]. unfold abundance_of. rewrite Hi. simpl.
  destruct (shards_index sw a i Hlen Hi) as (j & d & _ & _ & -> & _). simpl.
  destruct (d !! a); [done|]. by intros [= <-].
Qed.

Lemma with_abundance_error sw l e :
  length sw = 256%nat → Forall (λ a, is_ok (shard_of a)) l →
  with_abundance sw l = Raise e → e = KeyError.
Proof.
  intros Hlen Hall. induction Hall as [|a l Ha _ IH]; [done|]. simpl.
  intros [H|(n & _ & [H|(r & _ & [=])]%bind_Raise)]%bind_Raise.
  - by apply (abundance_of_error sw a).
  - by apply IH.
Qed.

Lemma dict_del_error {V} (d : list (string * V)) k e :
  dict_del d k = Raise e → e = KeyError.
Proof.
  induction d as [|[k' v] d IH]; simpl; [by intros [= <-]|].
  destruct (decide (k = k')); [done|].
  intros [H|(? & _ & [=])]%bind_Raise. by apply IH.
Qed.

Section missing_abundance.

Variable iter : gset string → list string.
Variable sw : list (gmap string Z).
Hypothesis order : iteration_order iter.
Hypothesis length_sw : length sw = 256%nat.

(** The members of a sub-cluster: there is one at least, and the prefix of
    each is a hexadecimal number. *)
Let sound (entry : string * gset string) : Prop :=
  entry.2 ≠ ∅ ∧ ∀ a, a ∈ entry.2 → is_ok (shard_of a).

Lemma finalize_error copy entry e :
  sound entry → finalize iter sw copy entry = Raise e → e = KeyError.
Proof.
  destruct entry as [cluster members]. intros [Hne Hhex]. unfold finalize.
  intros [H|(l0 & Hl0 & H)]%bind_Raise.
  - apply (with_abundance_error sw (iter members)); [done| |done].
    apply Forall_forall. intros a Ha. apply Hhex. rewrite (order members) in Ha.
    by apply elem_of_elements in Ha.
  - apply bind_Raise in H as [H|(first & _ & H)].
    + exfalso. apply with_abundance_names in Hl0.
      assert (stable_sort swarm_le l0 ≠ []) as Hnil.
      { intros Hnil. apply Hne. apply leibniz_equiv, elements_empty_inv.
        apply Permutation_nil_r.
        by rewrite <- (order members), <- Hl0, <- (stable_sort_perm swarm_le l0), Hnil. }
      destruct (stable_sort swarm_le l0) as [|x l]; [done|].
      assert (Py.index (x :: l) 0 = Ok x) by (by apply index_head). congruence.
    + destruct (decide _); [|done].
      apply bind_Raise in H as [H|(? & _ & [=])]. by apply dict_del_error in H.
Qed.

Lemma finalize_loop_error items : ∀ copy e,
  Forall sound items →
  for_each (finalize iter sw) copy items = Raise e → e = KeyError.
Proof.
  induction items as [|entry items IH]; intros copy e Hall; [done|].
  apply Forall_cons in Hall as [Hentry Hall]. rewrite for_each_cons.
  destruct (finalize iter sw copy entry) as [[copy1|copy1]|e1] eqn:Hstep; [|done|].
  - by apply IH.
  - intros [= <-]. by apply (finalize_error copy entry).
Qed.

Lemma finalize_loop_members items : ∀ copy result,
  for_each (finalize iter sw) copy items = Ok result →
  ∀ entry a, entry ∈ items → a ∈ entry.2 → is_Some (shard_lookup sw a).
Proof.
  induction items as [|[cluster members] items IH]; intros copy result;
    [by intros _ ? ? ?%elem_of_nil|].
  rewrite for_each_cons.
  destruct (finalize iter sw copy (cluster, members)) as [[copy1|copy1]|e1] eqn:Hstep;
    [| |done].
  2:{ apply finalize_Ok in Hstep as (? & ? & _ & _ & [(_ & ? & _ & [=])|(_ & [=])]). }
  intros Hrest entry a [->|Hin]%elem_of_cons Ha; [|by apply (IH _ _ Hrest entry)].
  apply finalize_Ok in Hstep as (l0 & first & Hl0 & _). simpl in Ha.
  assert (a ∈ l0.*1) as ([a' n] & -> & Hin)%list_elem_of_fmap.
  { rewrite (with_abundance_names _ _ _ Hl0), (order members). by apply elem_of_elements. }
  exists n. by apply abundance_of_lookup, (with_abundance_values _ _ _ _ _ Hl0).
Qed.

End missing_abundance.

(** X13.  A member without abundance is an error.  When the members of the
    sub-clusters have a hexadecimal prefix and one of them is no key of
    [swarms], an amplicon of the merge log that the indexed lines of the
    membership file do not list, [add_abundance_values] raises
    [KeyError]. *)
Theorem add_abundance_values_missing_abundance (iter : gset string → list string)
    (sw : list (gmap string Z)) (ncs : list (list (string * gset string))) :
  iteration_order iter →
  length sw = 256%nat →
  Forall (Forall (λ entry, entry.2 ≠ ∅ ∧ ∀ a, a ∈ entry.2 → is_ok (shard_of a))) ncs →
  (∃ super_cluster entry a,
     super_cluster ∈ ncs ∧ entry ∈ super_cluster ∧ a ∈ entry.2
     ∧ shard_lookup sw a = None) →
  add_abundance_values iter ncs sw = Raise KeyError.
Proof.
  intros Horder Hlen Hall (sc & entry & a & Hsc & Hentry & Ha & Hnone).
  induction Hall as [|sc0 ncs Hsc0 Hall IH]; [by apply elem_of_nil in Hsc|].
  simpl. unfold finalize_cluster.
  destruct (for_each (finalize iter sw) (prod_map id Members <$> sc0) sc0)
    as [c|e] eqn:Hc; simpl.
  - apply elem_of_cons in Hsc as [->|Hsc].
    + destruct (finalize_loop_members iter sw Horder _ _ _ Hc entry a Hentry Ha) as [n Hn].
      congruence.
    + by rewrite (IH Hsc).
  - f_equal. by apply (finalize_loop_error iter sw Horder Hlen sc0 _ e Hsc0 Hc).
Qed.

Lemma add_abundance_values_missing_abundance_witness :
  add_abundance_values elements [[("aa", ({["aa"; "cc"]} : gset string))]] tied_swarms
  = Raise KeyError.
Proof.
  apply add_abundance_values_missing_abundance.
  - intros s. reflexivity.
  - reflexivity.
  - repeat constructor; simpl; [set_solver|].
    intros a Ha. assert (a = "aa" ∨ a = "cc") as [-> | ->] by set_solver;
      eexists; vm_compute; reflexivity.
  - exists [("aa", {["aa"; "cc"]})], ("aa", {["aa"; "cc"]}), "cc".
    split; [left|]. split; [left|]. split; [set_solver|]. by_compute.
Defined.


(** ** [per_cluster_stats]: the records *)

Lemma tally_spec (l : list (string * Z)) : tally l = (reads l, singletons_in l).
Proof.
  unfold tally.
  assert (H : ∀ t o,
    foldl (λ '(total, ones) '(amplicon, abundance),
             (total + abundance, if abundance =? 1 then ones + 1 else ones)) (t, o) l
    = (t + reads l, o + singletons_in l)).
  { induction l as [|[a n] l IH]; intros t o.
    - unfold reads, singletons_in. simpl. f_equal; lia.
    - cbn [foldl]. rewrite IH. unfold reads, singletons_in, total.
      rewrite filter_cons. cbn [foldr snd]. simpl.
      destruct (Z.eqb_spec n 1) as [->|Hne].
      + rewrite decide_True by done. rewrite length_cons, Nat2Z.inj_succ. f_equal; lia.
      + rewrite decide_False by done. f_equal; lia. }
  by rewrite H.
Qed.

Lemma stat_of_Ok item s : stat_of item = Ok s → summarises item s.
Proof.
  destruct item as [cluster [members|l]]; [done|]. simpl.
  intros (first & Hfirst%index_head & H)%bind_Ok.
  rewrite tally_spec in H. injection H as <-. by exists l, first.
Qed.

Lemma stats_of_Ok items stats :
  stats_of items = Ok stats → Forall2 summarises items stats.
Proof.
  revert stats. induction items as [|item items IH]; intros stats; simpl.
  - intros [= <-]. constructor.
  - intros (s & Hs%stat_of_Ok & (l & Hl & [= <-])%bind_Ok)%bind_Ok.
    constructor; [done|by apply IH].
Qed.

(** X14.  One record of statistics per emitted sub-cluster.  The records
    that [per_cluster_stats] writes are, in another order, the records of
    the emitted sub-clusters: the number of amplicons of the sub-cluster,
    the sum of their reads, its key, the reads of its first amplicon and the
    number of its amplicons with one read. *)
Theorem per_cluster_stats_records (c : list (list (string * entry)))
    (new_stats : list stat) :
  per_cluster_stats c = Ok new_stats →
  ∃ records, Forall2 summarises (concat c) records ∧ new_stats ≡ₚ records.
Proof.
  unfold per_cluster_stats. intros (records & Hrecords%stats_of_Ok & [= <-])%bind_Ok.
  exists records. split; [done|]. by rewrite !stable_sort_perm.
Qed.

Lemma per_cluster_stats_records_witness :
  ∃ records,
    Forall2 summarises
      (concat [[("A", Swarm [("A", 100); ("D", 5); ("E", 1)]);
                ("B", Swarm [("B", 40); ("C", 40)])]]) records
    ∧ [ {| uniques := 3; total_abundance := 106; seed_label := "A";
           seed_abundance := 100; singletons := 1 |};
        {| uniques := 2; total_abundance := 80; seed_label := "B";
           seed_abundance := 40; singletons := 0 |} ] ≡ₚ records.
Proof. apply per_cluster_stats_records. by_compute. Defined.

Lemma total_perm {A} (f : A → Z) l1 l2 : l1 ≡ₚ l2 → total f l1 = total f l2.
Proof.
  unfold total. induction 1 as [|x l1 l2 _ IH|x y l|l1 l2 l3 _ IH1 _ IH2]; simpl; lia.
Qed.

Lemma total_summaries items records :
  Forall2 summarises items records →
  total total_abundance records = total reads_of items
  ∧ total uniques records = total amplicons_in items
  ∧ Forall (λ s, 1 ≤ uniques s ∧ 0 ≤ singletons s ≤ uniques s) records.
Proof.
  induction 1 as [|item s items records (l & first & Hl & Hfirst & Hu & Ht & _ & _ & Hs)
                     _ (IH1 & IH2 & IH3)]; [done|].
  assert (Hr : reads_of item = reads l) by (unfold reads_of; by rewrite Hl).
  assert (Ha : amplicons_in item = Z.of_nat (length l))
    by (unfold amplicons_in; by rewrite Hl).
  change (total total_abundance (s :: records))
    with (total_abundance s + total total_abundance records).
  change (total reads_of (item :: items)) with (reads_of item + total reads_of items).
  change (total uniques (s :: records)) with (uniques s + total uniques records).
  change (total amplicons_in (item :: items))
    with (amplicons_in item + total amplicons_in items).
  split; [lia|]. split; [lia|]. constructor; [|done].
  rewrite Hu, Hs. unfold singletons_in. pose proof (length_filter (λ p : string * Z, p.2 = 1) l).
  destruct l; [done|]. rewrite length_cons in *. lia.
Qed.

(** X15.  The statistics account for every read.  There are as many records
    as emitted sub-clusters; the total abundances of the records sum to the
    reads of all the amplicons listed in the sub-clusters, and their numbers
    of amplicons to the number of amplicons listed; every record counts one
    amplicon at least, and no more amplicons with one read than
    amplicons. *)
Theorem per_cluster_stats_conserves (c : list (list (string * entry)))
    (new_stats : list stat) :
  per_cluster_stats c = Ok new_stats →
  length new_stats = length (concat c)
  ∧ total total_abundance new_stats = total reads_of (concat c)
  ∧ total uniques new_stats = total amplicons_in (concat c)
  ∧ Forall (λ s, 1 ≤ uniques s ∧ 0 ≤ singletons s ≤ uniques s) new_stats.
Proof.
  unfold per_cluster_stats. intros (records & Hrecords%stats_of_Ok & [= <-])%bind_Ok.
  assert (Hperm : stable_sort by_size_reversed (stable_sort by_label records) ≡ₚ records)
    by (by rewrite !stable_sort_perm).
  destruct (total_summaries _ _ Hrecords) as (H1 & H2 & H3).
  split; [by rewrite Hperm, (Forall2_length _ _ _ Hrecords)|].
  split; [by rewrite (total_perm _ _ _ Hperm)|].
  split; [by rewrite (total_perm _ _ _ Hperm)|]. by rewrite Hperm.
Qed.

Lemma per_cluster_stats_conserves_witness :
  length [ {| uniques := 3; total_abundance := 106; seed_label := "A";
              seed_abundance := 100; singletons := 1 |};
           {| uniques := 2; total_abundance := 80; seed_label := "B";
              seed_abundance := 40; singletons := 0 |} ]
  = length (concat [[("A", Swarm [("A", 100); ("D", 5); ("E", 1)]);
                     ("B", Swarm [("B", 40); ("C", 40)])]])
  ∧ total total_abundance
      [ {| uniques := 3; total_abundance := 106; seed_label := "A";
           seed_abundance := 100; singletons := 1 |};
        {| uniques := 2; total_abundance := 80; seed_label := "B";
           seed_abundance := 40; singletons := 0 |} ]
    = total reads_of (concat [[("A", Swarm [("A", 100); ("D", 5); ("E", 1)]);
                               ("B", Swarm [("B", 40); ("C", 40)])]])
  ∧ total uniques
      [ {| uniques := 3; total_abundance := 106; seed_label := "A";
           seed_abundance := 100; singletons := 1 |};
        {| uniques := 2; total_abundance := 80; seed_label := "B";
           seed_abundance := 40; singletons := 0 |} ]
    = total amplicons_in (concat [[("A", Swarm [("A", 100); ("D", 5); ("E", 1)]);
                                   ("B", Swarm [("B", 40); ("C", 40)])]])
  ∧ Forall (λ s, 1 ≤ uniques s ∧ 0 ≤ singletons s ≤ uniques s)
      [ {| uniques := 3; total_abundance := 106; seed_label := "A";
           seed_abundance := 100; singletons := 1 |};
        {| uniques := 2; total_abundance := 80; seed_label := "B";
           seed_abundance := 40; singletons := 0 |} ].
Proof. apply per_cluster_stats_conserves. by_compute. Defined.


(** ** The whole run *)

Lemma unpack5_plain {A} (l : list A) e : Py.unpack5 l = Raise e → plain e.
Proof. destruct l as [|a [|b [|c [|d [|x [|y l]]]]]]; simpl; by intros [= <-]. Qed.

Lemma shard_of_plain key e : shard_of key = Raise e → plain e.
Proof. by intros ->%shard_of_error. Qed.

Lemma mul_int_plain x n e : F64.mul_int x n = Raise e → plain e.
Proof.
  unfold F64.mul_int, F64.of_int. destruct (F64.round n 0); simpl; by intros [= <-].
Qed.

Lemma add_int_plain x n e : F64.add_int x n = Raise e → plain e.
Proof.
  unfold F64.add_int, F64.of_int. destruct (F64.round n 0); simpl; by intros [= <-].
Qed.

Lemma sample_line_plain st line e : sample_line st line = Raise e → plain e.
Proof.
  unfold sample_line.
  intros [H|([[[[sample cloud] mass] seed] ab] & _ & H)]%bind_Raise;
    [by apply unpack5_plain in H|].
  apply bind_Raise in H as [H|(i & _ & H)]; [by apply shard_of_plain in H|].
  apply bind_Raise in H as [H|(d & _ & H)]; [plain_step H|].
  apply bind_Raise in H as [H|(s & _ & H)]; [plain_step H|].
  by destruct (decide _).
Qed.

Lemma per_sample_stats_parse_plain file percentage e :
  per_sample_stats_parse file percentage = Raise e → plain e.
Proof.
  unfold per_sample_stats_parse.
  intros [H|(st & _ & [H|(t & _ & [=])]%bind_Raise)]%bind_Raise.
  - revert H. apply for_each_plain, sample_line_plain.
  - by apply mul_int_plain in H.
Qed.

Lemma stats_line_plain t seeds line e : stats_line t seeds line = Raise e → plain e.
Proof.
  unfold stats_line.
  intros [H|([[[[cloud mass] seed] ab] sing] & _ & H)]%bind_Raise;
    [by apply unpack5_plain in H|].
  apply bind_Raise in H as [H|(a & _ & H)]; [plain_step H|].
  destruct (F64.int_lt a t); [done|].
  apply bind_Raise in H as [H|(check & _ & H)].
  - unfold may_host_secondary_seed in H.
    apply bind_Raise in H as [H|(c & _ & H)]; [plain_step H|].
    destruct (1 <? c); [|done].
    apply bind_Raise in H as [H|(m & _ & H)]; [plain_step H|].
    apply bind_Raise in H as [H|(s & _ & H)]; [plain_step H|].
    apply bind_Raise in H as [H|(b & _ & [=])]. by apply add_int_plain in H.
  - destruct check; [|done].
    apply bind_Raise in H as [H|(s & _ & [=])]. unfold eliminate in H.
    apply bind_Raise in H as [H|(i & _ & H)]; [by apply shard_of_plain in H|].
    apply bind_Raise in H as [H|(d & _ & H)]; [plain_step H|].
    destruct (d !! seed); plain_step H.
Qed.

Lemma swarms_line_plain iter seeds_set st line e :
  swarms_line iter seeds_set st line = Raise e → plain e.
Proof.
  unfold swarms_line.
  intros [H|(seed & _ & H)]%bind_Raise; [plain_step H|].
  apply bind_Raise in H as [H|(st' & _ & H)]; [|by destruct (_ =? _)].
  destruct (decide _); [|done].
  apply bind_Raise in H as [H|(sw & _ & H)].
  { revert H. apply for_each_plain. intros ? ? ?. apply record_abundance_plain. }
  apply bind_Raise in H as [H|(gs & _ & [=])].
  revert H. apply for_each_plain. intros ? ? ?. apply record_global_seed_plain.
Qed.

Lemma struct_line_plain seeds gss st line e :
  struct_line seeds gss st line = Raise e → plain e.
Proof.
  unfold struct_line.
  intros [H|([[[[father son] diffs] cluster_id] steps] & _ & H)]%bind_Raise;
    [by apply unpack5_plain in H|].
  apply bind_Raise in H as [H|(id & _ & H)]; [plain_step H|].
  destruct (_ =? 0); [done|].
  destruct (has_a_local_seed _) as [[]|]; [|done|by injection H as <-].
  apply bind_Raise in H as [H|(i & _ & H)]; [by apply shard_of_plain in H|].
  apply bind_Raise in H as [H|(d & _ & H)]; [plain_step H|].
  by destruct (d !! son).
Qed.

Lemma add_abundance_values_plain iter ncs sw e :
  add_abundance_values iter ncs sw = Raise e → plain e.
Proof.
  induction ncs as [|sc ncs IH]; simpl; [done|].
  intros [H|(c & _ & [H|(cs & _ & [=])]%bind_Raise)]%bind_Raise; [|by apply IH].
  revert H. apply for_each_plain. intros ? ? ?. apply finalize_plain.
Qed.

Lemma cleave_plain iter input e : cleave iter input = Raise e → plain e.
Proof.
  unfold cleave.
  intros [H|([t seeds] & _ & H)]%bind_Raise; [by apply per_sample_stats_parse_plain in H|].
  apply bind_Raise in H as [H|(seeds' & _ & H)].
  { revert H. apply for_each_plain. intros ? ? ?. apply stats_line_plain. }
  apply bind_Raise in H as [H|([sw gs] & _ & H)].
  { unfold swarms_parse in H. apply bind_Raise in H as [H|(? & _ & [=])].
    revert H. apply for_each_plain. intros ? ? ?. apply swarms_line_plain. }
  apply bind_Raise in H as [H|(ncs & _ & H)].
  { unfold struct_parse in H. apply bind_Raise in H as [H|(? & _ & [=])].
    revert H. apply for_each_plain. intros ? ? ?. apply struct_line_plain. }
  by apply add_abundance_values_plain in H.
Qed.

Lemma stats_of_plain items e : stats_of items = Raise e → plain e.
Proof.
  induction items as [|[k v] items IH]; simpl; [done|].
  intros [H|(s & _ & [H|(l & _ & [=])]%bind_Raise)]%bind_Raise; [|by apply IH].
  destruct v as [?|l]; [by injection H as <-|].
  apply bind_Raise in H as [H|(first & _ & H)]; [plain_step H|].
  by destruct (tally l).
Qed.

Lemma tokens_of_strings_plain l e : tokens_of_strings l = Raise e → plain e.
Proof.
  induction l as [|t l IH]; simpl; [done|].
  intros [H|(x & _ & [H|(xs & _ & [=])]%bind_Raise)]%bind_Raise; [|by apply IH].
  destruct t as [|a [|b t]]; simpl in H; try done; by injection H as <-.
Qed.

Lemma swarm_lines_plain iter items lines e :
  swarm_lines iter items = (lines, Raise e) → plain e.
Proof.
  revert lines. induction items as [|item items IH]; intros lines; simpl; [done|].
  destruct (swarm_line iter item) as [x|e'] eqn:Hx.
  - destruct (swarm_lines iter items) as [xs r]. intros [= <- ->]. by apply (IH xs).
  - intros [= <- <-]. unfold swarm_line in Hx. destruct item.2; [|done].
    apply bind_Raise in Hx as [H|(? & _ & [=])]. by apply tokens_of_strings_plain in H.
Qed.

Lemma fasta_line_plain m st line e : fasta_line m st line = Raise e → plain e.
Proof.
  unfold fasta_line. destruct (String.prefix ">" line).
  - destruct (split_size _) as [|a [|b [|c l]]]; try by intros [= <-].
    intros [H|(i & _ & H)]%bind_Raise; [by apply shard_of_plain in H|].
    apply bind_Raise in H as [H|(n & _ & H)]; [plain_step H|].
    by destruct (n <? m).
  - destruct (current st) as [[amplicon index]|]; [|by intros [= <-]].
    intros [H|(d & _ & H)]%bind_Raise; [plain_step H|].
    destruct (d !! amplicon) as [[total sequences]|]; [|done].
    apply bind_Raise in H as [H|(? & _ & [=])]. plain_step H.
Qed.

Lemma write_representatives_outcome fasta new_stats lines e :
  write_representatives fasta new_stats = (lines, Raise e) →
  plain e ∨ e = SystemExit (-1).
Proof.
  revert lines. induction new_stats as [|t new_stats IH]; intros lines; simpl; [done|].
  destruct (_ ≫= _) as [[abundance sequences]|e'] eqn:Hlookup.
  - destruct sequences as [|sequence [|second sequences]]; try by (intros [= <- <-]; right).
    destruct (write_representatives fasta new_stats) as [ls r].
    intros [= <- ->]. by apply (IH ls).
  - intros [= <- <-]. left.
    apply bind_Raise in Hlookup as [H|(i & _ & H)]; [by apply shard_of_plain in H|].
    apply bind_Raise in H as [H|(d & _ & H)]; [plain_step H|].
    destruct (d !! _); [done|]. by injection H as <-.
Qed.

Lemma fasta_parse_outcome fasta_file new_stats :
  let '(lines, r) := fasta_parse fasta_file new_stats in
  (r = Ok () ∧ is_Some lines)
  ∨ (∃ e, r = Raise e ∧ plain e)
  ∨ (r = Raise (SystemExit (-1)) ∧ is_Some lines).
Proof.
  unfold fasta_parse. destruct (_ ≫= _) as [st|e] eqn:Hload.
  - destruct (write_representatives (fasta st) new_stats) as [lines [[]|e]] eqn:Hwrite.
    + left. by split.
    + destruct (write_representatives_outcome _ _ _ _ Hwrite) as [?| ->].
      * right. left. by exists e.
      * right. right. by split.
  - right. left. exists e. split; [done|].
    apply bind_Raise in Hload as [H|(fasta & _ & H)].
    { revert H. apply for_each_plain. intros s t e'. unfold fasta_target. intros H.
      apply bind_Raise in H as [H|(i & _ & H)]; [by apply shard_of_plain in H|].
      plain_step H. }
    apply bind_Raise in H as [H|(m & _ & H)].
    { unfold minimum in H. destruct (_ <$> _); [by injection H as <-|done]. }
    revert H. apply for_each_plain. intros ? ? ?. apply fasta_line_plain.
Qed.

(** X16.  How a run ends.  The exit status of a run is 0, 1 or 255.  It is
    0 when the three output files are written.  It is 1 when an exception
    other than [SystemExit] is left uncaught.  It is 255 after
    [sys.exit(-1)]: the statistics and the membership file are written then,
    and the file of the representatives is opened. *)
Theorem run_exit_status (iter : gset string → list string) (input : files) :
  (exit_status (outcome (main iter input)) = 0
   ∧ outcome (main iter input) = Ok ()
   ∧ is_Some (new_stats_file (main iter input))
   ∧ is_Some (new_swarms_file (main iter input))
   ∧ is_Some (new_representatives_file (main iter input)))
  ∨ (exit_status (outcome (main iter input)) = 1
     ∧ ∃ e, outcome (main iter input) = Raise e ∧ plain e)
  ∨ (exit_status (outcome (main iter input)) = 255
     ∧ outcome (main iter input) = Raise (SystemExit (-1))
     ∧ is_Some (new_stats_file (main iter input))
     ∧ is_Some (new_swarms_file (main iter input))
     ∧ is_Some (new_representatives_file (main iter input))).
Proof.
  assert (Hplain : ∀ e : exn, plain e → exit_status (@Raise unit e) = 1)
    by (by intros []).
  unfold main.
  destruct (_ ≫= _) as [[c new_stats]|e] eqn:Hc.
  - destruct (per_cluster_swarms iter c) as [swarms_lines [[]|e]] eqn:Hswarms.
    + pose proof (fasta_parse_outcome (fasta_file input) new_stats) as Hfasta.
      destruct (fasta_parse (fasta_file input) new_stats) as [lines r].
      destruct Hfasta as [[-> ?]|[(e & -> & He)|[-> ?]]]; simpl.
      * left. by repeat split.
      * right. left. split; [by apply Hplain|by exists e].
      * right. right. by repeat split.
    + right. left. simpl. apply swarm_lines_plain in Hswarms.
      split; [by apply Hplain|by exists e].
  - right. left. simpl.
    assert (plain e).
    { apply bind_Raise in Hc as [H|(c & _ & H)]; [by apply cleave_plain in H|].
      apply bind_Raise in H as [H|(s & _ & [=])].
      unfold per_cluster_stats in H. apply bind_Raise in H as [H|(? & _ & [=])].
      by apply stats_of_plain in H. }
    split; [by apply Hplain|by exists e].
Qed.


Lemma record_or_malformed line :
  (∃ id edge, edge_line id line edge)
  ∨ (length (fields line) ≠ 5%nat
     ∨ ∃ cluster_id, fields line !! 3%nat = Some cluster_id
                     ∧ is_raise (Py.int 10 cluster_id)).
Proof.
  unfold edge_line.
  destruct (fields line) as [|a [|b [|c [|d [|e [|x l]]]]]] eqn:Hf;
    try (right; left; simpl; lia).
  destruct (Py.int 10 d) as [id|err] eqn:Hid.
  - left. exists id, (a, b), c, d, e. by split.
  - right. right. exists d. split; [done|]. by exists err.
Qed.

(** X17.  With nothing to cleave the run fails.  When no candidate is left
    after the scan of the global statistics, the run ends with [ValueError],
    status 1, and writes no representatives: either on the first record of
    the merge log, before any file is written, or on the minimum of an empty
    list, after it has written an empty statistics file and an empty
    membership file. *)
Theorem run_without_candidate (iter : gset string → list string) (input : files)
    (threshold : F64.t) (seeds0 seeds : list (gmap string Z)) :
  per_sample_stats_parse (per_sample_stats_file input) PERCENTAGE = Ok (threshold, seeds0) →
  stats_parse (global_stats_file input) threshold seeds0 = Ok seeds →
  keys_of seeds = ∅ →
  exit_status (outcome (main iter input)) = 1
  ∧ (main iter input = aborted ValueError
     ∨ main iter input
       = {| new_stats_file := Some [];
            new_swarms_file := Some [];
            new_representatives_file := None;
            outcome := Raise ValueError |}).
Proof.
  intros Hsamples Hstats Hnone.
  assert (Hcases : cleave iter input = Raise ValueError ∨ cleave iter input = Ok []).
  { unfold cleave. rewrite Hsamples. simpl. rewrite Hstats. simpl.
    rewrite (swarms_parse_without_candidate iter _ _ Hnone). simpl.
    destruct (struct_file input) as [|line rest] eqn:Hfile; [by right|].
    destruct (record_or_malformed line) as [(id & edge & Hedge)|Hbad].
    - right.
      by destruct (struct_parse_without_candidate line rest seeds new_shards id edge
                     Hnone Hedge) as [_ ->].
    - left. unfold struct_parse. rewrite for_each_cons.
      by rewrite (struct_line_malformed _ _ _ _ Hbad). }
  unfold main. destruct Hcases as [-> | ->]; simpl.
  - split; [done|by left].
  - split; [done|by right].
Qed.

Lemma run_without_candidate_witness :
  exit_status
    (outcome (main elements
                {| global_stats_file := [row ["5"; "186"; "A"; "100"; "1"; "2"; "2"]];
                   per_sample_stats_file := [row ["s1"; "3"; "106"; "A"; "100"]];
                   struct_file := struct_file example;
                   swarms_file := swarms_file example;
                   fasta_file := fasta_file example |})) = 1
  ∧ (main elements
       {| global_stats_file := [row ["5"; "186"; "A"; "100"; "1"; "2"; "2"]];
          per_sample_stats_file := [row ["s1"; "3"; "106"; "A"; "100"]];
          struct_file := struct_file example;
          swarms_file := swarms_file example;
          fasta_file := fasta_file example |} = aborted ValueError
     ∨ main elements
         {| global_stats_file := [row ["5"; "186"; "A"; "100"; "1"; "2"; "2"]];
            per_sample_stats_file := [row ["s1"; "3"; "106"; "A"; "100"]];
            struct_file := struct_file example;
            swarms_file := swarms_file example;
            fasta_file := fasta_file example |}
       = {| new_stats_file := Some [];
            new_swarms_file := Some [];
            new_representatives_file := None;
            outcome := Raise ValueError |}).
Proof.
  apply (run_without_candidate elements _ (F64.Fin 3602879701896397 (-56))
           (shards_of_list [("A", 1)]) new_shards).
  - by_compute.
  - by_compute.
  - by_compute.
Defined.

(** X18.  One line per emitted sub-cluster.  When the stages up to the
    sorting succeed, the run writes the statistics file and the membership
    file, each with one line per emitted sub-cluster; the lines of the
    membership file follow the order in which the sub-clusters were emitted,
    and each lists the [amplicon;size=abundance] tokens of its sub-cluster
    in the order of the sorted list. *)
Theorem run_writes_one_line_per_subcluster (iter : gset string → list string)
    (input : files) (c : list (list (string * entry))) :
  iteration_order iter →
  cleave iter input = Ok c →
  ∃ stats_lines swarms_lines,
    new_stats_file (main iter input) = Some stats_lines
    ∧ new_swarms_file (main iter input) = Some swarms_lines
    ∧ length stats_lines = length (concat c)
    ∧ Forall2 (λ item line, ∃ l, item.2 = Swarm l ∧ line = String.concat " " (token <$> l))
        (concat c) swarms_lines.
Proof.
  intros Horder Hc.
  assert (Hitems : Forall (λ item : string * entry,
                             ∃ l first, item.2 = Swarm l ∧ head l = Some first) (concat c)).
  { pose proof Hc as Hc'. unfold cleave in Hc'.
    apply bind_Ok in Hc' as ([threshold seeds] & _ & Hc').
    apply bind_Ok in Hc' as (seeds' & _ & Hc').
    apply bind_Ok in Hc' as ([sw gs] & _ & Hc').
    apply bind_Ok in Hc' as (ncs & Hncs%struct_parse_dict_ok & Hc').
    pose proof (add_abundance_values_sorted iter sw ncs c Horder Hncs Hc') as Hall.
    apply Forall_concat. clear -Hall.
    induction Hall as [|sc e ncs c [_ He] _ IH]; constructor; [|done].
    apply Forall_forall. intros [key value] Hin.
    destruct (He key value Hin) as (l & -> & _ & _ & Hhead).
    destruct l as [|first l]; [done|]. by exists (first :: l), first. }
  assert (Hstats : ∃ records, stats_of (concat c) = Ok records
                              ∧ length records = length (concat c)).
  { clear -Hitems. induction Hitems as [|[key value] items (l & first & Hl & Hfirst) _ IH].
    - by exists [].
    - destruct IH as (records & Hrecords & Hlen). simpl in Hl. subst value.
      cbn [stats_of stat_of]. apply index_head in Hfirst. rewrite Hfirst. simpl.
      destruct (tally l) as [t o]. simpl. rewrite Hrecords. simpl.
      eexists. split; [done|]. simpl. by rewrite Hlen. }
  assert (Hswarms : ∃ lines, swarm_lines iter (concat c) = (lines, Ok ())
            ∧ Forall2 (λ item line,
                         ∃ l, item.2 = Swarm l ∧ line = String.concat " " (token <$> l))
                (concat c) lines).
  { clear -Hitems. induction Hitems as [|[key value] items (l & first & Hl & Hfirst) _ IH].
    - exists []. by split.
    - destruct IH as (lines & Hlines & Hall). simpl in Hl. subst value.
      cbn [swarm_lines]. unfold swarm_line. simpl. rewrite Hlines.
      eexists. split; [done|]. constructor; [by exists l|done]. }
  destruct Hstats as (records & Hrecords & Hlen).
  destruct Hswarms as (lines & Hlines & Hall).
  unfold main, per_cluster_stats, per_cluster_swarms.
  rewrite Hc. simpl. rewrite Hrecords. simpl. rewrite Hlines.
  destruct (fasta_parse _ _) as [representatives r]. simpl.
  eexists _, lines. split; [done|]. split; [done|]. split; [|done].
  rewrite length_fmap, (Permutation_length (stable_sort_perm by_size_reversed _)).
  by rewrite (Permutation_length (stable_sort_perm by_label _)).
Qed.

Lemma run_writes_one_line_per_subcluster_witness :
  ∃ stats_lines swarms_lines,
    new_stats_file (main elements example_followed) = Some stats_lines
    ∧ new_swarms_file (main elements example_followed) = Some swarms_lines
    ∧ length stats_lines
      = length (concat [[("A", Swarm [("A", 100); ("D", 5); ("E", 1)]);
                         ("B", Swarm [("B", 40); ("C", 40)])]])
    ∧ Forall2 (λ item line, ∃ l, item.2 = Swarm l ∧ line = String.concat " " (token <$> l))
        (concat [[("A", Swarm [("A", 100); ("D", 5); ("E", 1)]);
                  ("B", Swarm [("B", 40); ("C", 40)])]]) swarms_lines.
Proof.
  apply (run_writes_one_line_per_subcluster elements example_followed).
  - intros s. reflexivity.
  - by_compute.
Defined.


(** ** Integers as text *)

Lemma digit_of_char m :
  (m < 10)%N →
  Py.digit_value 10 (pretty_N_char m) = Some (Z.of_N m)
  ∧ Ascii.eqb (pretty_N_char m) Py.underscore = false
  ∧ Ascii.eqb (pretty_N_char m) ";" = false
  ∧ Py.isspace (pretty_N_char m) = false
  ∧ Py.int_isspace (pretty_N_char m) = false.
Proof.
  intros Hm.
  assert (m = 0 ∨ m = 1 ∨ m = 2 ∨ m = 3 ∨ m = 4 ∨ m = 5 ∨ m = 6 ∨ m = 7 ∨ m = 8 ∨ m = 9)%N
    as Hcases by lia.
  repeat (destruct Hcases as [->|Hcases]; [by vm_compute|]). subst m. by vm_compute.
Qed.

(** Reading the digits that [pretty_N_go] writes. *)
Lemma scan_digits_pretty x : ∀ s,
  ∃ d : nat,
    ((0 < x)%N → (0 < d)%nat)
    ∧ ∀ acc k,
        Py.scan_digits 10 acc k false (pretty_N_go x s)
        = Py.scan_digits 10 (acc * 10 ^ Z.of_nat d + Z.of_N x) (k + d) false s.
Proof.
  induction (N.lt_wf_0 x) as [x _ IH]. intros s.
  destruct (N.eq_dec x 0%N) as [->|Hx].
  - exists 0%nat. split; [lia|]. intros acc k. rewrite pretty_N_go_0.
    f_equal; [lia|]. by rewrite Nat.add_0_r.
  - rewrite pretty_N_go_step by lia.
    destruct (IH (x `div` 10)%N ltac:(apply N.div_lt; lia)
                (String (pretty_N_char (x `mod` 10)) s)) as (d & _ & Hd).
    exists (S d). split; [lia|]. intros acc k. rewrite Hd.
    destruct (digit_of_char (x `mod` 10)%N ltac:(apply N.mod_lt; lia))
      as (Hv & Hu & _).
    cbn [Py.scan_digits]. rewrite Hu, Hv.
    f_equal; [|lia].
    rewrite Nat2Z.inj_succ, Z.pow_succ_r by lia.
    pose proof (N.div_mod x 10%N ltac:(lia)) as Hdm.
    rewrite Hdm at 3. rewrite N2Z.inj_add, N2Z.inj_mul. simpl (Z.of_N 10). lia.
Qed.

Lemma pretty_N_go_append x : ∀ s, pretty_N_go x s = pretty_N_go x "" +:+ s.
Proof.
  induction (N.lt_wf_0 x) as [x _ IH]. intros s.
  destruct (N.eq_dec x 0%N) as [->|Hx]; [by rewrite !pretty_N_go_0|].
  rewrite (pretty_N_go_step x s), (pretty_N_go_step x "") by lia.
  rewrite (IH (x `div` 10)%N ltac:(apply N.div_lt; lia) (String _ s)).
  rewrite (IH (x `div` 10)%N ltac:(apply N.div_lt; lia) (String _ "")).
  generalize (pretty_N_go (x `div` 10)%N ""). intros p.
  induction p as [|c p IHp]; [done|]. by rewrite !append_String, IHp.
Qed.

(** The characters of a positive number: digits, and no other text but
    what follows. *)
Lemma pretty_N_go_digits x : ∀ s,
  ∃ p c, pretty_N_go x s = p +:+ s
         ∧ ((0 < x)%N → ∃ p' m, p = String c p' ∧ (m < 10)%N ∧ c = pretty_N_char m)
         ∧ unbroken p = true.
Proof.
  induction (N.lt_wf_0 x) as [x _ IH]. intros s.
  destruct (N.eq_dec x 0%N) as [->|Hx].
  - exists "", "0"%char. rewrite pretty_N_go_0. split; [done|]. split; [lia|done].
  - rewrite pretty_N_go_step by lia.
    set (last := pretty_N_char (x `mod` 10)).
    destruct (IH (x `div` 10)%N ltac:(apply N.div_lt; lia) (String last s))
      as (p & c & Hp & Hfirst & Hun).
    destruct (digit_of_char (x `mod` 10)%N ltac:(apply N.mod_lt; lia))
      as (_ & Hu & Hsemi & Hsp & _). fold last in Hu, Hsemi, Hsp.
    assert (Happ : ∀ q, (q +:+ String last "") +:+ s = q +:+ String last s).
    { induction q as [|b q IHq]; [done|]. by rewrite !append_String, IHq. }
    assert (Hunbroken : ∀ q, unbroken q = true → unbroken (q +:+ String last "") = true).
    { induction q as [|b q IHq]; intros Hq.
      - change ("" +:+ String last "") with (String last ""). simpl.
        unfold Py.underscore in Hu. by rewrite Hu, Hsemi, Hsp.
      - rewrite append_String. simpl in *. apply andb_true_iff in Hq as [-> Hq].
        by rewrite IHq. }
    destruct (N.eq_dec (x `div` 10)%N 0%N) as [Hzero|Hpos].
    + exists (String last ""), last. rewrite Hp.
      rewrite Hzero, pretty_N_go_0 in Hp.
      assert (p = "") as ->.
      { destruct p as [|b p]; [done|]. exfalso.
        apply (f_equal String.length) in Hp. rewrite append_String in Hp. simpl in Hp.
        assert (∀ q r, String.length (q +:+ r) = (String.length q + String.length r)%nat)
          as Hlen.
        { induction q as [|b' q IHq]; intros r; [done|].
          rewrite append_String. simpl. by rewrite IHq. }
        rewrite Hlen in Hp. simpl in Hp. lia. }
      split; [done|]. split.
      * intros _. exists "", (x `mod` 10)%N. split; [done|]. split; [|done].
        apply N.mod_lt. lia.
      * by apply (Hunbroken "").
    + exists (p +:+ String last ""), c. rewrite Hp, Happ. split; [done|]. split.
      * intros _. apply N.neq_0_lt_0 in Hpos.
        destruct (Hfirst Hpos) as (p' & m & -> & Hm & ->).
        exists (p' +:+ String last ""), m. by rewrite append_String.
      * by apply Hunbroken.
Qed.


Lemma skip_base_prefix_10 s : Py.skip_base_prefix 10 s = s.
Proof.
  unfold Py.skip_base_prefix.
  destruct s as [|[[] [] [] [] [] [] [] []] [|x s']]; reflexivity.
Qed.

Lemma int_of_digits x :
  (0 < x)%N → Py.int 10 (pretty_N_go x "") = Ok (Z.of_N x)
              ∧ Py.int 10 ("-" +:+ pretty_N_go x "") = Ok (- Z.of_N x).
Proof.
  intros Hx.
  destruct (pretty_N_go_digits x "") as (p & c & Hp & Hfirst & _).
  destruct (Hfirst Hx) as (p' & m & -> & Hm & ->).
  rewrite append_empty_r in Hp.
  destruct (digit_of_char m Hm) as (Hv & Hu & _ & _ & Hsp).
  destruct (scan_digits_pretty x "") as (d & Hd & Hscan).
  specialize (Hscan 0 0%nat). simpl in Hscan.
  destruct d as [|d]; [specialize (Hd Hx); lia|].
  assert (Hsign : Py.take_sign (String (pretty_N_char m) p')
                  = (false, String (pretty_N_char m) p')).
  { assert (m = 0 ∨ m = 1 ∨ m = 2 ∨ m = 3 ∨ m = 4 ∨ m = 5 ∨ m = 6 ∨ m = 7 ∨ m = 8 ∨ m = 9)%N
      as Hcases by lia.
    repeat (destruct Hcases as [->|Hcases]; [done|]). by subst m. }
  assert (Hbody : ∀ neg,
    (if Py.starts_with_underscore (Py.skip_base_prefix 10 (String (pretty_N_char m) p'))
     then Raise ValueError
     else match Py.scan_digits 10 0 0 false
                  (Py.skip_base_prefix 10 (String (pretty_N_char m) p')) with
          | Some (v, S _, rest) =>
              match Py.skip_int_space rest with
              | EmptyString => Ok (if neg : bool then - v else v)
              | _ => Raise ValueError
              end
          | _ => Raise ValueError
          end) = Ok (if neg then - Z.of_N x else Z.of_N x)).
  { intros neg. rewrite skip_base_prefix_10. cbn [Py.starts_with_underscore].
    rewrite Hu, <- Hp, Hscan. done. }
  split.
  - unfold Py.int. rewrite Hp. cbn [Py.skip_int_space]. rewrite Hsp, Hsign.
    apply (Hbody false).
  - unfold Py.int. rewrite Hp.
    change ("-" +:+ String (pretty_N_char m) p')
      with (String "-" (String (pretty_N_char m) p')).
    apply (Hbody true).
Qed.

(** [int(str(n)) == n] *)
Lemma int_str n : Py.int 10 (Py.str n) = Ok n.
Proof.
  unfold Py.str, pretty, pretty_Z. destruct n as [|p|p]; [done| |].
  - unfold pretty, pretty_positive, pretty, pretty_N. rewrite decide_False by done.
    by destruct (int_of_digits (N.pos p) ltac:(lia)) as [-> _].
  - unfold pretty, pretty_positive, pretty, pretty_N. rewrite decide_False by done.
    by destruct (int_of_digits (N.pos p) ltac:(lia)) as [_ ->].
Qed.


(** ** The membership file, written and read *)

Lemma append_assoc s1 s2 s3 : (s1 +:+ s2) +:+ s3 = s1 +:+ (s2 +:+ s3).
Proof. induction s1 as [|c s1 IH]; [done|]. by rewrite !append_String, IH. Qed.

Lemma str_digits n :
  unbroken (Py.str n) = true
  ∧ ∃ q m, Py.str n = q +:+ String (pretty_N_char m) "" ∧ (m < 10)%N.
Proof.
  assert (Hpos : ∀ p, unbroken (pretty_N_go (N.pos p) "") = true
            ∧ ∃ q m, pretty_N_go (N.pos p) "" = q +:+ String (pretty_N_char m) ""
                     ∧ (m < 10)%N).
  { intros p. split.
    - destruct (pretty_N_go_digits (N.pos p) "") as (q & c & Hq & _ & Hun).
      by rewrite Hq, append_empty_r.
    - rewrite pretty_N_go_step, pretty_N_go_append by lia.
      eexists _, _. split; [done|]. apply N.mod_lt. lia. }
  unfold Py.str, pretty, pretty_Z. destruct n as [|p|p].
  - split; [done|]. by exists "", 0%N.
  - unfold pretty, pretty_positive, pretty, pretty_N. rewrite decide_False by done.
    apply Hpos.
  - unfold pretty, pretty_positive, pretty, pretty_N. rewrite decide_False by done.
    destruct (Hpos p) as (Hun & q & m & Hq & Hm). split.
    + change ("-" +:+ pretty_N_go (N.pos p) "") with (String "-" (pretty_N_go (N.pos p) "")).
      simpl. by rewrite Hun.
    + exists ("-" +:+ q), m. by rewrite Hq, append_assoc.
Qed.

Lemma str_shape n :
  unbroken (Py.str n) = true
  ∧ ∃ q c, Py.str n = q +:+ String c "" ∧ Py.isspace c = false.
Proof.
  destruct (str_digits n) as (Hun & q & m & Hq & Hm). split; [done|].
  exists q, (pretty_N_char m). split; [done|].
  by destruct (digit_of_char m Hm) as (_ & _ & _ & ? & _).
Qed.

Lemma written_well_annotated t : unbroken t.1 = true → well_annotated (written t).
Proof.
  intros Ht. split; [done|]. split; [by right|]. split; [|by left].
  apply str_shape.
Qed.

Lemma concat_tokens l :
  String.concat " " (token <$> l) = membership (written <$> l).
Proof.
  induction l as [|t l IH]; [done|]. destruct l as [|t' l].
  - simpl. unfold token. done.
  - change (String.concat " " (token <$> t :: t' :: l))
      with (token t +:+ " " +:+ String.concat " " (token <$> t' :: l)).
    rewrite IH. unfold token.
    change (membership (written <$> t :: t' :: l))
      with (t.1 +:+ ";size=" +:+ Py.str t.2 +:+ " " +:+ membership (written <$> t' :: l)).
    by rewrite !append_assoc.
Qed.

Lemma lstrip_first c s : Py.isspace c = false → Py.lstrip (String c s) = String c s.
Proof. intros Hc. simpl. by rewrite Hc. Qed.

Lemma rstrip_last q c :
  Py.isspace c = false → Py.rstrip (q +:+ String c "") = q +:+ String c "".
Proof.
  intros Hc. induction q as [|b q IH].
  - change ("" +:+ String c "") with (String c ""). simpl. by rewrite Hc.
  - rewrite append_String. cbn [Py.rstrip]. rewrite IH.
    by destruct q.
Qed.

Lemma membership_ends tokens :
  tokens ≠ [] →
  (∀ t, t ∈ tokens → ∃ q c, abundance_text t = q +:+ String c "" ∧ Py.isspace c = false) →
  ∃ q c, membership tokens = q +:+ String c "" ∧ Py.isspace c = false.
Proof.
  induction tokens as [|t tokens IH]; [done|]. intros _ Hall.
  destruct tokens as [|t' tokens].
  - destruct (Hall t ltac:(left)) as (q & c & Hq & Hc). cbn [membership]. rewrite Hq.
    exists (amplicon_text t +:+ inner t +:+ q), c. by rewrite !append_assoc.
  - destruct IH as (q & c & Hq & Hc); [done|intros; apply Hall; by right|].
    change (membership (t :: t' :: tokens))
      with (amplicon_text t +:+ inner t +:+ abundance_text t +:+ outer t
            +:+ membership (t' :: tokens)).
    rewrite Hq.
    exists (amplicon_text t +:+ inner t +:+ abundance_text t +:+ outer t +:+ q), c.
    by rewrite !append_assoc.
Qed.

Lemma unbroken_first s :
  unbroken s = true → s ≠ "" → ∃ c s', s = String c s' ∧ Py.isspace c = false.
Proof.
  destruct s as [|c s]; [done|]. simpl. intros [Hc _]%andb_true_iff _.
  apply negb_true_iff, orb_false_iff in Hc as [_ Hc]. by exists c, s.
Qed.

(** X19.  The membership file that a run writes can be read back.  For a
    sub-cluster whose amplicons have a name without underscore, semicolon
    and white space, the line that [per_cluster_swarms] writes is split by
    [swarms_parse] into the same amplicons, in the same order, and into
    texts that [int] reads as the same abundances. *)
Theorem membership_line_round_trip (iter : gset string → list string)
    (key : string) (l : list (string * Z)) (line : string) :
  l ≠ [] →
  Forall (λ t, unbroken t.1 = true ∧ t.1 ≠ "") l →
  swarm_line iter (key, Swarm l) = Ok line →
  amplicons_of line = l.*1
  ∧ Forall2 (λ text n, Py.int 10 text = Ok n) (abundances_of line) l.*2
  ∧ zip (amplicons_of line) (abundances_of line) = (λ t, (t.1, Py.str t.2)) <$> l.
Proof.
  intros Hne Hall. unfold swarm_line. simpl. intros [= <-].
  rewrite concat_tokens.
  assert (Htokens : Forall well_annotated (written <$> l)).
  { apply Forall_fmap. eapply Forall_impl; [done|].
    intros t [Ht _]. by apply written_well_annotated. }
  assert (Hstrip : Py.strip (membership (written <$> l)) = membership (written <$> l)).
  { unfold Py.strip.
    destruct (membership_ends (written <$> l)) as (q & c & Hq & Hc).
    { by destruct l. }
    { intros t (t0 & -> & _)%list_elem_of_fmap. apply str_shape. }
    assert (∃ c0 s0, membership (written <$> l) = String c0 s0 ∧ Py.isspace c0 = false)
      as (c0 & s0 & Hs0 & Hc0).
    { destruct l as [|t l]; [done|]. apply Forall_cons in Hall as [[Hun Hname] _].
      destruct (unbroken_first _ Hun Hname) as (c0 & s0 & Ht & Hc0).
      destruct l as [|t' l].
      - cbn [fmap list_fmap membership written amplicon_text]. rewrite Ht, append_String.
        by eexists _, _.
      - change (membership (written <$> t :: t' :: l))
          with (t.1 +:+ ";size=" +:+ Py.str t.2 +:+ " " +:+ membership (written <$> t' :: l)).
        rewrite Ht, append_String. by eexists _, _. }
    rewrite Hs0, (lstrip_first _ _ Hc0), <- Hs0, Hq. by apply rstrip_last. }
  destruct (membership_line_fields_of (membership (written <$> l)) (written <$> l))
    as (Ha & Hb & Hz); [by destruct l|done|done|].
  rewrite Hz, Ha, Hb, <- !list_fmap_compose. split; [done|]. split; [|done].
  apply Forall2_fmap, Forall_Forall2_diag, Forall_forall. intros t _. apply int_str.
Qed.

Lemma membership_line_round_trip_witness :
  amplicons_of "A;size=100 D;size=5 E;size=1" = ["A"; "D"; "E"]
  ∧ Forall2 (λ text n, Py.int 10 text = Ok n)
      (abundances_of "A;size=100 D;size=5 E;size=1") [100; 5; 1]
  ∧ zip (amplicons_of "A;size=100 D;size=5 E;size=1")
        (abundances_of "A;size=100 D;size=5 E;size=1")
    = [("A", "100"); ("D", "5"); ("E", "1")].
Proof.
  apply (membership_line_round_trip elements "A" [("A", 100); ("D", 5); ("E", 1)]).
  - done.
  - repeat constructor; done.
  - reflexivity.
Defined.


(** ** [fasta_parse]: headers *)

Lemma split_str_go_skip sep n s rest :
  split_str_go sep n (String.length s) (s +:+ rest) = split_str_go sep n 0 rest.
Proof.
  induction s as [|c s IH]; [done|].
  rewrite append_String. cbn [String.length split_str_go]. apply IH.
Qed.

Lemma split_str_go_nonempty sep n k s : split_str_go sep n k s ≠ [].
Proof.
  revert k. induction s as [|c s IH]; intros k; [done|]. cbn [split_str_go].
  destruct k; [|apply IH]. destruct (String.prefix sep (String c s)); [done|].
  by destruct (split_str_go sep n 0 s).
Qed.

Lemma split_size_unbroken f rest :
  unbroken f = true →
  split_str_go size_separator 5 0 (f +:+ rest)
  = match split_str_go size_separator 5 0 rest with
    | g :: fs => (f +:+ g) :: fs
    | [] => [f]
    end.
Proof.
  induction f as [|c f IH]; intros Hf.
  - change ("" +:+ rest) with rest.
    pose proof (split_str_go_nonempty size_separator 5 0 rest) as Hne.
    by destruct (split_str_go size_separator 5 0 rest).
  - simpl in Hf. apply andb_true_iff in Hf as [Hc Hf].
    apply negb_true_iff, orb_false_iff in Hc as [[_ Hs]%orb_false_iff _].
    rewrite append_String. cbn [split_str_go].
    assert (String.prefix size_separator (String c (f +:+ rest)) = false) as ->.
    { unfold size_separator. cbn [String.prefix].
      destruct (ascii_dec ";" c) as [<-|]; [done|done]. }
    rewrite (IH Hf). by destruct (split_str_go size_separator 5 0 rest).
Qed.

Lemma split_size_header name text :
  unbroken name = true → unbroken text = true →
  split_size (name +:+ ";size=" +:+ text) = [name; text].
Proof.
  intros Hname Htext. unfold split_size.
  rewrite (split_size_unbroken name _ Hname).
  change (";size=" +:+ text) with (String ";" ("size=" +:+ text)).
  cbn [split_str_go].
  assert (String.prefix size_separator (String ";" ("size=" +:+ text)) = true) as ->.
  { unfold size_separator.
    change ("size=" +:+ text)
      with (String "s" (String "i" (String "z" (String "e" (String "=" text))))).
    cbn [String.prefix]. decide_chars. by rewrite prefix_empty. }
  rewrite (split_str_go_skip _ _ "size=" text).
  rewrite <- (append_empty_r text) at 1.
  rewrite (split_size_unbroken text "" Htext). simpl.
  by rewrite !append_empty_r.
Qed.

Lemma rstrip_chars_tail chars q c tail :
  c ∉ chars → made_of chars tail = true →
  rstrip_chars chars (q +:+ String c tail) = q +:+ String c "".
Proof.
  intros Hc Htail.
  assert (Hempty : rstrip_chars chars tail = "").
  { induction tail as [|b tail IH]; [done|]. simpl in *.
    apply andb_true_iff in Htail as [Hb Htail]. by rewrite (IH Htail), Hb. }
  induction q as [|b q IH].
  - change ("" +:+ String c tail) with (String c tail).
    cbn [rstrip_chars]. rewrite Hempty. by rewrite bool_decide_eq_false_2.
  - rewrite !append_String. cbn [rstrip_chars]. rewrite IH. by destruct q.
Qed.

Lemma made_of_weaken chars chars' s :
  chars ⊆ chars' → made_of chars s = true → made_of chars' s = true.
Proof.
  intros Hsub. induction s as [|c s IH]; [done|]. simpl.
  intros [Hc%bool_decide_eq_true Hs]%andb_true_iff.
  rewrite IH by done. rewrite bool_decide_eq_true_2; [done|]. by apply Hsub.
Qed.

(** The header of a well-formed record. *)
Lemma header_fields r :
  well_formed_record r →
  String.prefix ">" (header_of r) = true
  ∧ split_size (strip_chars [">"%char; ";"%char; newline] (header_of r))
    = [fasta_name r; Py.str (fasta_size r)].
Proof.
  intros (Hun & Hne & Hgt & _ & Htail & _). unfold header_of. split.
  { match goal with
    | |- String.prefix _ (_ +:+ ?x) = _ => change (String.prefix ">" (String ">" x) = true)
    end.
    cbn [String.prefix]. decide_chars. apply prefix_empty. }
  destruct (fasta_name r) as [|c name] eqn:Hname; [done|].
  assert (Hc : c ∉ [">"%char; ";"%char; newline]).
  { simpl in Hun, Hgt. apply andb_true_iff in Hun as [Hc _].
    apply negb_true_iff, orb_false_iff in Hc as [[_ Hs]%orb_false_iff Hsp].
    intros Hin. repeat (apply elem_of_cons in Hin as [->|Hin]).
    - cbn [String.prefix] in Hgt. destruct (ascii_dec ">" ">"); [|done].
      by rewrite prefix_empty in Hgt.
    - by vm_compute in Hs.
    - by vm_compute in Hsp.
    - by apply elem_of_nil in Hin. }
  destruct (str_digits (fasta_size r)) as (Hstr & q & m & Hq & Hm).
  set (d := pretty_N_char m) in *.
  unfold strip_chars.
  change (">" +:+ String c name +:+ ";size=" +:+ Py.str (fasta_size r) +:+ fasta_tail r)
    with (String ">" (String c (name +:+ ";size=" +:+ Py.str (fasta_size r)
                                +:+ fasta_tail r))).
  cbn [lstrip_chars]. rewrite bool_decide_eq_true_2 by (by left).
  rewrite bool_decide_eq_false_2 by done.
  assert (Hd' : d ∉ [">"%char; ";"%char; newline]).
  { unfold d. clear -Hm.
    assert (m = 0 ∨ m = 1 ∨ m = 2 ∨ m = 3 ∨ m = 4 ∨ m = 5 ∨ m = 6 ∨ m = 7 ∨ m = 8
            ∨ m = 9)%N as Hcases by lia.
    repeat (destruct Hcases as [->|Hcases];
            [intros Hin; repeat (apply elem_of_cons in Hin as [Hin|Hin]; [done|]);
             by apply elem_of_nil in Hin|]).
    subst m. intros Hin. repeat (apply elem_of_cons in Hin as [Hin|Hin]; [done|]).
    by apply elem_of_nil in Hin. }
  rewrite Hq.
  replace (String c (name +:+ ";size=" +:+ (q +:+ String d "") +:+ fasta_tail r))
    with ((String c name +:+ ";size=" +:+ q) +:+ String d (fasta_tail r)).
  2:{ by rewrite !append_String, !append_assoc, !append_String. }
  rewrite (rstrip_chars_tail _ _ d (fasta_tail r) Hd').
  2:{ apply (made_of_weaken [";"%char; newline]); [|done].
      intros x Hx. by right. }
  replace ((String c name +:+ ";size=" +:+ q) +:+ String d "")
    with (String c name +:+ ";size=" +:+ Py.str (fasta_size r)).
  2:{ rewrite Hq, !append_assoc. done. }
  rewrite <- Hq. by apply split_size_header.
Qed.


(** ** [fasta_parse]: the table of the seeds *)

Lemma shard_lookup_index {V} (sh : list (gmap string V)) key i :
  length sh = 256%nat → shard_of key = Ok i →
  ∃ j d, slot 256 i = Some j ∧ sh !! j = Some d ∧ Py.index sh i = Ok d
         ∧ shard_lookup sh key = d !! key
         ∧ ∀ d', Py.set_index sh i d' = Ok (<[j := d']> sh).
Proof.
  intros Hlen Hi. destruct (shards_index sh key i Hlen Hi) as (j & d & Hj & Hd & Hidx & Hset).
  exists j, d. repeat split; try done.
  unfold shard_lookup. rewrite Hi, Hlen, Hj. simpl. by rewrite Hd.
Qed.

Lemma fasta_target_Ok T t :
  well_sharded T → is_ok (shard_of (seed_label t)) →
  ∃ T', fasta_target T t = Ok (Next T')
        ∧ well_sharded T'
        ∧ ∀ k, shard_lookup T' k
               = if decide (k = seed_label t) then Some (total_abundance t, [])
                 else shard_lookup T k.
Proof.
  intros Hws [i Hi]. unfold fasta_target. rewrite Hi. simpl.
  destruct (shard_lookup_index T _ i (proj1 Hws) Hi) as (j & d & Hj & Hd & -> & _ & Hset).
  simpl. rewrite Hset. simpl. eexists. split; [done|]. split.
  - by apply (well_sharded_insert _ (seed_label t) i).
  - intros k. apply (shard_lookup_insert T (seed_label t) i j d _ k (proj1 Hws) Hi Hj Hd).
Qed.

Lemma fasta_target_loop new_stats : ∀ T,
  well_sharded T →
  Forall (λ t, is_ok (shard_of (seed_label t))) new_stats →
  NoDup (seed_label <$> new_stats) →
  ∃ T', for_each fasta_target T new_stats = Ok T'
        ∧ well_sharded T'
        ∧ (∀ t, t ∈ new_stats → shard_lookup T' (seed_label t) = Some (total_abundance t, []))
        ∧ (∀ k, k ∉ seed_label <$> new_stats → shard_lookup T' k = shard_lookup T k).
Proof.
  induction new_stats as [|t new_stats IH]; intros T Hws Hall Hnodup.
  - exists T. split; [done|]. split; [done|]. split; [by intros ? ?%elem_of_nil|done].
  - apply Forall_cons in Hall as [Ht Hall]. rewrite fmap_cons in Hnodup.
    apply NoDup_cons in Hnodup as [Hnew Hnodup].
    destruct (fasta_target_Ok T t Hws Ht) as (T1 & H1 & Hws1 & Hlookup1).
    destruct (IH T1 Hws1 Hall Hnodup) as (T' & Hrest & Hws' & Hin & Hout).
    exists T'. rewrite for_each_cons, H1. split; [done|]. split; [done|]. split.
    + intros t' [->|Ht']%elem_of_cons; [|by apply Hin].
      rewrite (Hout _ Hnew), Hlookup1. by rewrite decide_True.
    + intros k Hk. rewrite fmap_cons in Hk. apply not_elem_of_cons in Hk as [Hne Hk].
      rewrite (Hout _ Hk), Hlookup1. by rewrite decide_False.
Qed.

Lemma minimum_le l m x : minimum l = Ok m → x ∈ l → m ≤ x.
Proof.
  destruct l as [|y l]; [done|]. simpl. intros [= <-].
  assert (H : ∀ l a, foldl Z.min a l ≤ a ∧ ∀ x, x ∈ l → foldl Z.min a l ≤ x).
  { clear. induction l as [|b l IH]; intros a; simpl.
    - split; [lia|]. by intros ? ?%elem_of_nil.
    - destruct (IH (Z.min a b)) as [H1 H2]. split; [lia|].
      intros x [->|Hx]%elem_of_cons; [lia|by apply H2]. }
  destruct (H l y) as [H1 H2]. intros [->|Hx]%elem_of_cons; [done|by apply H2].
Qed.

(** The lines of the sequence of a record. *)
Lemma fasta_sequence_lines (m : Z) name i lines : ∀ T : list (gmap string (Z * list string)),
  well_sharded T → shard_of name = Ok i →
  Forall (λ line, String.prefix ">" line = false) lines →
  ∃ T',
    runs_through (fasta_line m) {| fasta := T; current := Some (name, i) |} lines
    = Some {| fasta := T'; current := Some (name, i) |}
    ∧ well_sharded T'
    ∧ ∀ k, shard_lookup T' k
           = if decide (k = name) then
               match shard_lookup T k with
               | Some (total, sequences) => Some (total, sequences ++ (Py.strip <$> lines))
               | None => None
               end
             else shard_lookup T k.
Proof.
  induction lines as [|line lines IH]; intros T Hws Hi Hall.
  - exists T. split; [done|]. split; [done|]. intros k.
    destruct (decide _) as [->|]; [|done].
    destruct (shard_lookup T name) as [[total sequences]|]; [|done].
    by rewrite fmap_nil, app_nil_r.
  - apply Forall_cons in Hall as [Hline Hall].
    destruct (shard_lookup_index T _ i (proj1 Hws) Hi)
      as (j & d & Hj & Hd & Hidx & Hlook & Hset).
    destruct (d !! name) as [[total sequences]|] eqn:Hname.
    + set (T1 := <[j := <[name := (total, sequences ++ [Py.strip line])]> d]> T).
      assert (Hstep : fasta_line m {| fasta := T; current := Some (name, i) |} line
                      = Ok (Next {| fasta := T1; current := Some (name, i) |})).
      { unfold fasta_line. rewrite Hline. simpl. rewrite Hidx. simpl.
        rewrite Hname, Hset. done. }
      assert (Hws1 : well_sharded T1) by (by apply (well_sharded_insert _ name i)).
      destruct (IH T1 Hws1 Hi Hall) as (T' & Hrun & Hws' & Hlookup).
      exists T'. cbn [runs_through]. rewrite Hstep. split; [done|]. split; [done|].
      intros k. rewrite Hlookup. unfold T1.
      rewrite (shard_lookup_insert _ name i j d _ k (proj1 Hws) Hi Hj Hd).
      destruct (decide (k = name)) as [->|]; [|done].
      by rewrite Hlook, fmap_cons, <- app_assoc.
    + assert (Hstep : fasta_line m {| fasta := T; current := Some (name, i) |} line
                      = Ok (Next {| fasta := T; current := Some (name, i) |})).
      { unfold fasta_line. rewrite Hline. simpl. rewrite Hidx. simpl. by rewrite Hname. }
      destruct (IH T Hws Hi Hall) as (T' & Hrun & Hws' & Hlookup).
      exists T'. cbn [runs_through]. rewrite Hstep. split; [done|]. split; [done|].
      intros k. rewrite Hlookup. destruct (decide (k = name)) as [->|]; [|done].
      by rewrite Hlook.
Qed.

(** The lines of a record. *)
Lemma fasta_record_lines (m : Z) (T : list (gmap string (Z * list string)))
    (previous : option (string * Z)) (r : fasta_record) :
  well_sharded T → well_formed_record r → m ≤ fasta_size r →
  ∃ T' i,
    runs_through (fasta_line m) {| fasta := T; current := previous |} (lines_of r)
    = Some {| fasta := T'; current := Some (fasta_name r, i) |}
    ∧ well_sharded T'
    ∧ ∀ k, shard_lookup T' k
           = if decide (k = fasta_name r) then
               match shard_lookup T k with
               | Some (total, sequences) =>
                   Some (total, sequences ++ (Py.strip <$> fasta_sequence r))
               | None => None
               end
             else shard_lookup T k.
Proof.
  intros Hws Hr Hm. pose proof Hr as (_ & _ & _ & [i Hi] & _ & Hseq).
  destruct (header_fields r Hr) as [Hprefix Hfields].
  assert (Hheader : fasta_line m {| fasta := T; current := previous |} (header_of r)
                    = Ok (Next {| fasta := T; current := Some (fasta_name r, i) |})).
  { unfold fasta_line. rewrite Hprefix, Hfields, Hi. simpl. rewrite int_str. simpl.
    by rewrite (proj2 (Z.ltb_ge _ _) Hm). }
  destruct (fasta_sequence_lines m _ i _ T Hws Hi Hseq) as (T' & Hrun & Hws' & Hlookup).
  exists T', i. unfold lines_of. cbn [runs_through]. by rewrite Hheader.
Qed.

Lemma runs_through_app {S A} (body : S → A → result (flow S)) l1 l2 : ∀ st st1,
  runs_through body st l1 = Some st1 →
  runs_through body st (l1 ++ l2) = runs_through body st1 l2.
Proof.
  induction l1 as [|x l1 IH]; intros st st1; simpl.
  - by intros [= ->].
  - destruct (body st x) as [[s|s]|e]; try done. apply IH.
Qed.

(** The table after the records of a file. *)
Lemma fasta_records_loop (m : Z) records : ∀ T previous,
  well_sharded T →
  Forall well_formed_record records →
  Forall (λ r, m ≤ fasta_size r) records →
  ∃ T' current',
    runs_through (fasta_line m) {| fasta := T; current := previous |}
      (flat_map lines_of records)
    = Some {| fasta := T'; current := current' |}
    ∧ well_sharded T'
    ∧ ∀ k, shard_lookup T' k
           = match shard_lookup T k with
             | Some (total, sequences) => Some (total, sequences ++ sequences_of records k)
             | None => None
             end.
Proof.
  induction records as [|r records IH]; intros T previous Hws Hall Hmin.
  - exists T, previous. split; [done|]. split; [done|].
    intros k. destruct (shard_lookup T k) as [[total sequences]|]; [|done].
    unfold sequences_of. by rewrite filter_nil, fmap_nil, app_nil_r.
  - apply Forall_cons in Hall as [Hr Hall]. apply Forall_cons in Hmin as [Hm Hmin].
    destruct (fasta_record_lines m T previous r Hws Hr Hm)
      as (T1 & i & Hrun & Hws1 & Hlookup1).
    destruct (IH T1 (Some (fasta_name r, i)) Hws1 Hall Hmin)
      as (T' & current' & Hrest & Hws' & Hlookup').
    exists T', current'. cbn [flat_map].
    rewrite (runs_through_app _ _ _ _ _ Hrun). split; [done|]. split; [done|].
    intros k. rewrite Hlookup', Hlookup1. unfold sequences_of. rewrite filter_cons.
    destruct (decide (k = fasta_name r)) as [->|Hne].
    + rewrite decide_True by done.
      destruct (shard_lookup T (fasta_name r)) as [[total sequences]|]; [|done].
      by rewrite fmap_cons, <- app_assoc.
    + by rewrite decide_False by done.
Qed.

Lemma runs_through_for_each {S A} (body : S → A → result (flow S)) l st st' :
  runs_through body st l = Some st' → for_each body st l = Ok st'.
Proof.
  intros H. rewrite <- (app_nil_r l). by rewrite (for_each_runs_through _ _ _ _ _ H).
Qed.


(** ** [fasta_parse]: the representatives *)

Section representatives.

Variable T : list (gmap string (Z * list string)).
Variable records : list fasta_record.
Hypothesis length_T : length T = 256%nat.

(** The entry of the table for the seed of [t]. *)
Let held (t : stat) : Prop :=
  is_ok (shard_of (seed_label t))
  ∧ shard_lookup T (seed_label t)
    = Some (total_abundance t, sequences_of records (seed_label t)).

Lemma write_representatives_one t rest :
  held t →
  write_representatives T (t :: rest)
  = match sequences_of records (seed_label t) with
    | [sequence] =>
        let '(lines, r) := write_representatives T rest in
        (representative records t ++ lines, r)
    | _ => ([], Raise (SystemExit (-1)))
    end.
Proof.
  intros [[i Hi] Ht]. cbn [write_representatives]. rewrite Hi. simpl.
  destruct (shard_lookup_index T _ i length_T Hi) as (j & d & _ & _ & -> & Hlook & _).
  simpl. rewrite <- Hlook, Ht. unfold representative.
  by destruct (sequences_of records (seed_label t)) as [|sequence [|second sequences]].
Qed.

Lemma write_representatives_all new_stats :
  Forall (λ t, held t ∧ length (sequences_of records (seed_label t)) = 1%nat) new_stats →
  write_representatives T new_stats = (flat_map (representative records) new_stats, Ok ()).
Proof.
  induction 1 as [|t new_stats [Ht Hone] _ IH]; [done|].
  rewrite (write_representatives_one t new_stats Ht), IH. cbn [flat_map].
  by destruct (sequences_of records (seed_label t)) as [|sequence [|second sequences]].
Qed.

Lemma write_representatives_exit before t after :
  Forall (λ t, held t ∧ length (sequences_of records (seed_label t)) = 1%nat) before →
  held t → length (sequences_of records (seed_label t)) ≠ 1%nat →
  write_representatives T (before ++ t :: after)
  = (flat_map (representative records) before, Raise (SystemExit (-1))).
Proof.
  intros Hbefore Ht Hlen. induction Hbefore as [|t' before [Ht' Hone] _ IH].
  - rewrite app_nil_l, (write_representatives_one t after Ht).
    by destruct (sequences_of records (seed_label t)) as [|sequence [|second sequences]].
  - rewrite <- app_comm_cons, (write_representatives_one t' _ Ht'), IH. cbn [flat_map].
    by destruct (sequences_of records (seed_label t')) as [|sequence [|second sequences]].
Qed.

End representatives.

(** The table when the sequence file is read. *)
Lemma fasta_parse_table (new_stats : list stat) (records : list fasta_record) :
  new_stats ≠ [] →
  NoDup (seed_label <$> new_stats) →
  Forall (λ t, is_ok (shard_of (seed_label t))) new_stats →
  Forall well_formed_record records →
  Forall (λ r, ∃ t, t ∈ new_stats ∧ seed_abundance t ≤ fasta_size r) records →
  ∃ T, fasta_parse (flat_map lines_of records) new_stats
       = (let '(lines, r) := write_representatives T new_stats in (Some lines, r))
       ∧ length T = 256%nat
       ∧ ∀ t, t ∈ new_stats →
           shard_lookup T (seed_label t)
           = Some (total_abundance t, sequences_of records (seed_label t)).
Proof.
  intros Hne Hlabels Hhex Hrecords Hsizes.
  destruct (fasta_target_loop new_stats new_shards new_shards_well_sharded Hhex Hlabels)
    as (T0 & Hload & Hws0 & Hin0 & _).
  assert (∃ m, minimum (seed_abundance <$> new_stats) = Ok m) as [m Hm].
  { destruct new_stats; [done|]. by eexists. }
  assert (Hmin : Forall (λ r, m ≤ fasta_size r) records).
  { eapply Forall_impl; [done|]. intros r (t & Ht & Hle). simpl in Hle.
    assert (m ≤ seed_abundance t); [|lia].
    apply (minimum_le _ _ _ Hm). apply list_elem_of_fmap. by exists t. }
  destruct (fasta_records_loop m records T0 None Hws0 Hrecords Hmin)
    as (T' & current' & Hscan%runs_through_for_each & Hws' & Hlookup).
  exists T'. split; [|split; [apply Hws'|]].
  - unfold fasta_parse. rewrite Hload. simpl. rewrite Hm. simpl. by rewrite Hscan.
  - intros t Ht. by rewrite Hlookup, (Hin0 t Ht).
Qed.

Lemma sequences_of_name records label :
  Forall well_formed_record records →
  sequences_of records label ≠ [] → is_ok (shard_of label).
Proof.
  intros Hrecords Hne.
  destruct (filter (λ r, fasta_name r = label) records) as [|r l] eqn:Hfilter.
  { unfold sequences_of in Hne. by rewrite Hfilter in Hne. }
  assert (r ∈ filter (λ r, fasta_name r = label) records) as [<- Hin]%list_elem_of_filter
    by (rewrite Hfilter; left).
  rewrite Forall_forall in Hrecords. by destruct (Hrecords r Hin) as (_ & _ & _ & ? & _).
Qed.

(** X20.  The representatives.  Take new statistics with distinct seeds,
    and a sequence file of well-formed records, each a header
    [>name;size=abundance] and the lines of a sequence, that holds one line
    of sequence for every seed and no amplicon with fewer reads than the
    least seed abundance of the statistics.  Then [fasta_parse] ends
    without an error and writes, for every record of the statistics in their
    order, the header of the seed with the total abundance of its
    sub-cluster and the sequence of the seed. *)
Theorem fasta_parse_writes_representatives (new_stats : list stat)
    (records : list fasta_record) :
  new_stats ≠ [] →
  NoDup (seed_label <$> new_stats) →
  Forall well_formed_record records →
  Forall (λ t, length (sequences_of records (seed_label t)) = 1%nat) new_stats →
  Forall (λ r, ∃ t, t ∈ new_stats ∧ seed_abundance t ≤ fasta_size r) records →
  fasta_parse (flat_map lines_of records) new_stats
  = (Some (flat_map (representative records) new_stats), Ok ()).
Proof.
  intros Hne Hlabels Hrecords Hone Hsizes.
  assert (Hhex : Forall (λ t, is_ok (shard_of (seed_label t))) new_stats).
  { eapply Forall_impl; [done|]. intros t Ht. simpl in Ht.
    apply (sequences_of_name records); [done|]. by intros Hnil; rewrite Hnil in Ht. }
  destruct (fasta_parse_table new_stats records Hne Hlabels Hhex Hrecords Hsizes)
    as (T & -> & Hlen & Hlookup).
  rewrite (write_representatives_all T records Hlen); [done|].
  apply Forall_forall. intros t Ht. rewrite Forall_forall in Hhex, Hone.
  split; [split; [by apply Hhex|by apply Hlookup]|by apply Hone].
Qed.

Lemma fasta_parse_writes_representatives_witness :
  fasta_parse
    (flat_map lines_of
       [ {| fasta_name := "A"; fasta_size := 186; fasta_tail := ";" +:+ String newline "";
            fasta_sequence := [row ["ACGT"]] |};
         {| fasta_name := "B"; fasta_size := 40; fasta_tail := String newline "";
            fasta_sequence := [row ["ACGA"]] |} ])
    [ {| uniques := 3; total_abundance := 106; seed_label := "A";
         seed_abundance := 100; singletons := 1 |};
      {| uniques := 2; total_abundance := 80; seed_label := "B";
         seed_abundance := 40; singletons := 0 |} ]
  = (Some (flat_map
             (representative
                [ {| fasta_name := "A"; fasta_size := 186;
                     fasta_tail := ";" +:+ String newline "";
                     fasta_sequence := [row ["ACGT"]] |};
                  {| fasta_name := "B"; fasta_size := 40; fasta_tail := String newline "";
                     fasta_sequence := [row ["ACGA"]] |} ])
             [ {| uniques := 3; total_abundance := 106; seed_label := "A";
                  seed_abundance := 100; singletons := 1 |};
               {| uniques := 2; total_abundance := 80; seed_label := "B";
                  seed_abundance := 40; singletons := 0 |} ]),
     Ok ()).
Proof.
  apply fasta_parse_writes_representatives.
  - done.
  - by_compute.
  - repeat (apply Forall_cons; split;
            [repeat split; try reflexivity; try done;
             [eexists; vm_compute; reflexivity|by repeat constructor]|]).
    apply Forall_nil_2.
  - by repeat constructor.
  - apply Forall_cons. split.
    + eexists. split; [left|simpl; lia].
    + apply Forall_cons. split; [|apply Forall_nil_2].
      eexists. split; [right; left|simpl; lia].
Defined.

(** X21.  A seed without exactly one line of sequence ends the run.  With
    the statistics and the sequence file as above, but for a seed for which
    the file holds no line of sequence, or several, a sequence written on
    two lines for instance, [fasta_parse] writes the representatives of the
    seeds before it and stops with [sys.exit(-1)]: the exit status is
    255. *)
Theorem fasta_parse_exits_on_other_sequences (before after : list stat) (t : stat)
    (records : list fasta_record) :
  NoDup (seed_label <$> before ++ t :: after) →
  Forall (λ t, is_ok (shard_of (seed_label t))) (before ++ t :: after) →
  Forall well_formed_record records →
  Forall (λ t, length (sequences_of records (seed_label t)) = 1%nat) before →
  length (sequences_of records (seed_label t)) ≠ 1%nat →
  Forall (λ r, ∃ t', t' ∈ before ++ t :: after ∧ seed_abundance t' ≤ fasta_size r)
    records →
  fasta_parse (flat_map lines_of records) (before ++ t :: after)
  = (Some (flat_map (representative records) before), Raise (SystemExit (-1)))
  ∧ exit_status (fasta_parse (flat_map lines_of records) (before ++ t :: after)).2 = 255.
Proof.
  intros Hlabels Hhex Hrecords Hone Hother Hsizes.
  destruct (fasta_parse_table (before ++ t :: after) records ltac:(by destruct before)
              Hlabels Hhex Hrecords Hsizes) as (T & -> & Hlen & Hlookup).
  rewrite (write_representatives_exit T records Hlen); [done| | |done].
  - apply Forall_forall. intros t' Ht'. rewrite Forall_forall in Hhex, Hone.
    assert (t' ∈ before ++ t :: after) by (apply elem_of_app; by left).
    split; [split; [by apply Hhex|by apply Hlookup]|by apply Hone].
  - rewrite Forall_forall in Hhex.
    assert (t ∈ before ++ t :: after) by (apply elem_of_app; right; left).
    split; [by apply Hhex|by apply Hlookup].
Qed.

Lemma fasta_parse_exits_on_other_sequences_witness :
  fasta_parse
    (flat_map lines_of
       [ {| fasta_name := "A"; fasta_size := 186; fasta_tail := String newline "";
            fasta_sequence := [row ["ACGT"]] |};
         {| fasta_name := "B"; fasta_size := 40; fasta_tail := String newline "";
            fasta_sequence := [row ["AC"]; row ["GA"]] |} ])
    ([ {| uniques := 3; total_abundance := 106; seed_label := "A";
          seed_abundance := 100; singletons := 1 |} ]
     ++ {| uniques := 2; total_abundance := 80; seed_label := "B";
           seed_abundance := 40; singletons := 0 |} :: [])
  = (Some (flat_map
             (representative
                [ {| fasta_name := "A"; fasta_size := 186; fasta_tail := String newline "";
                     fasta_sequence := [row ["ACGT"]] |};
                  {| fasta_name := "B"; fasta_size := 40; fasta_tail := String newline "";
                     fasta_sequence := [row ["AC"]; row ["GA"]] |} ])
             [ {| uniques := 3; total_abundance := 106; seed_label := "A";
                  seed_abundance := 100; singletons := 1 |} ]),
     Raise (SystemExit (-1)))
  ∧ exit_status
      (fasta_parse
         (flat_map lines_of
            [ {| fasta_name := "A"; fasta_size := 186; fasta_tail := String newline "";
                 fasta_sequence := [row ["ACGT"]] |};
              {| fasta_name := "B"; fasta_size := 40; fasta_tail := String newline "";
                 fasta_sequence := [row ["AC"]; row ["GA"]] |} ])
         ([ {| uniques := 3; total_abundance := 106; seed_label := "A";
               seed_abundance := 100; singletons := 1 |} ]
          ++ {| uniques := 2; total_abundance := 80; seed_label := "B";
                seed_abundance := 40; singletons := 0 |} :: [])).2 = 255.
Proof.
  apply fasta_parse_exits_on_other_sequences.
  - by_compute.
  - repeat (apply Forall_cons; split; [eexists; vm_compute; reflexivity|]).
    apply Forall_nil_2.
  - repeat (apply Forall_cons; split;
            [repeat split; try reflexivity; try done;
             [eexists; vm_compute; reflexivity|by repeat constructor]|]).
    apply Forall_nil_2.
  - by repeat constructor.
  - vm_compute. lia.
  - apply Forall_cons. split.
    + eexists. split; [left|simpl; lia].
    + apply Forall_cons. split; [|apply Forall_nil_2].
      eexists. split; [right; left|simpl; lia].
Defined.

(** ** Identifiers whose prefix is no hexadecimal number, at every shard *)

Lemma fasta_target_total (T : list (gmap string (Z * list string))) (t : stat) :
  length T = 256%nat →
  fasta_target T t = Raise ValueError
  ∨ ∃ T', fasta_target T t = Ok (Next T') ∧ length T' = 256%nat.
Proof.
  intros Hlen. unfold fasta_target.
  destruct (shard_of (seed_label t)) as [i|e] eqn:Hi; simpl.
  2:{ left. by apply shard_of_error in Hi as ->. }
  destruct (shards_index _ _ _ Hlen Hi) as (j & m & Hj & Hm & -> & Hset). simpl.
  rewrite Hset. simpl. right. eexists. split; [done|]. by rewrite length_insert.
Qed.

Lemma fasta_target_loop_aborts new_stats : ∀ T : list (gmap string (Z * list string)),
  length T = 256%nat →
  (∃ t, t ∈ new_stats ∧ is_raise (shard_of (seed_label t))) →
  for_each fasta_target T new_stats = Raise ValueError.
Proof.
  induction new_stats as [|t new_stats IH]; intros T Hlen (bad & Hin & Hbad).
  - by apply elem_of_nil in Hin.
  - rewrite for_each_cons. apply elem_of_cons in Hin as [->|Hin].
    + destruct Hbad as [e He]. unfold fasta_target. rewrite He. simpl.
      by apply shard_of_error in He as ->.
    + destruct (fasta_target_total T t Hlen) as [->|(T' & -> & Hlen')]; [done|].
      apply IH; [done|]. by exists bad.
Qed.

Lemma add_abundance_values_members iter sw (ncs : list (list (string * gset string))) :
  iteration_order iter →
  ∀ result, add_abundance_values iter ncs sw = Ok result →
  ∀ super_cluster entry a,
    super_cluster ∈ ncs → entry ∈ super_cluster → a ∈ entry.2 →
    is_Some (shard_lookup sw a).
Proof.
  intros Horder. induction ncs as [|sc ncs IH]; intros result Hrun super_cluster entry a Hsc.
  - by apply elem_of_nil in Hsc.
  - cbn [add_abundance_values] in Hrun.
    apply bind_Ok in Hrun as (c & Hc & (cs & Hcs & _)%bind_Ok).
    apply elem_of_cons in Hsc as [->|Hsc].
    + by apply (finalize_loop_members iter sw Horder _ _ _ Hc).
    + by apply (IH cs Hcs).
Qed.

(** C9, as the code has it.  The script computes the shard of an identifier
    at nine places.  At each of them an identifier whose prefix [int]
    rejects, the empty one among them, raises [ValueError], and the function
    ends with it: as the seed of a record of the per-sample statistics,
    where the run stops before it writes a file; as the seed of a record of
    the global statistics that the scan reads and that passes the size test;
    as an amplicon with an abundance on a line of the membership file that
    the scan reads and that names a candidate, and as a candidate of such a
    line; as the son of an edge that the scan reads in a flagged cluster
    while a candidate is still to be found; as a member of an emitted
    sub-cluster, where the function ends with this exception or with the one
    that an earlier member raised; as the seed of a record of the new
    statistics, when the table of the sequences is filled and when the
    representatives are written; as the amplicon of a header that the scan
    of the sequence file reads. *)
Theorem unparsable_prefix_aborts (id : string) :
  is_raise (shard_of id) →
  (* per_sample_stats_parse *)
  (∀ file percentage line,
     line ∈ file → seed_of line = Some id →
     per_sample_stats_parse file percentage = Raise ValueError
     ∧ ∀ iter input, per_sample_stats_file input = file →
                     main iter input = aborted ValueError)
  (* stats_parse *)
  ∧ (∀ threshold seeds seeds1 before after line cloud mass seed_abundance singletons
       rest a,
       runs_through (stats_line threshold) seeds before = Some seeds1 →
       fields line = cloud :: mass :: id :: seed_abundance :: singletons :: rest →
       Py.int 10 seed_abundance = Ok a →
       F64.int_lt a threshold = false →
       may_host_secondary_seed threshold cloud mass singletons = Ok true →
       stats_line threshold seeds1 line = Raise ValueError
       ∧ stats_parse (before ++ line :: after) threshold seeds = Raise ValueError)
  (* swarms_parse, the amplicons of a line *)
  ∧ (∀ iter seeds st before after line abundance,
       runs_through (swarms_line iter (keys_of seeds)) (swarms_init seeds) before
         = Some st →
       (id, abundance) ∈ zip (amplicons_of line) (abundances_of line) →
       keys_of seeds ∩ list_to_set (amplicons_of line) ≠ ∅ →
       swarms_line iter (keys_of seeds) st line = Raise ValueError
       ∧ swarms_parse iter (before ++ line :: after) seeds = Raise ValueError)
  (* swarms_parse, the candidates of a line *)
  ∧ (∀ seed global_seeds, record_global_seed seed global_seeds id = Raise ValueError)
  (* struct_parse *)
  ∧ (∀ seeds global_seeds st before after line father cluster,
       runs_through (struct_line seeds (values_of global_seeds)) (struct_init seeds)
         before = Some st →
       edge_line cluster line (father, id) →
       number_of_seeds st ≠ 0 →
       has_a_local_seed
         (if decide (cluster ≠ previous_cluster_id st)
          then start_cluster (values_of global_seeds) st father cluster else st)
         = Some true →
       struct_line seeds (values_of global_seeds) st line = Raise ValueError
       ∧ struct_parse (before ++ line :: after) seeds global_seeds = Raise ValueError)
  (* add_abundance_values *)
  ∧ ((∀ swarms, abundance_of swarms id = Raise ValueError)
     ∧ ∀ iter new_clusters swarms super_cluster entry,
         iteration_order iter →
         super_cluster ∈ new_clusters → entry ∈ super_cluster → id ∈ entry.2 →
         ∃ e, add_abundance_values iter new_clusters swarms = Raise e
              ∧ plain e
              ∧ exit_status (add_abundance_values iter new_clusters swarms) = 1)
  (* fasta_parse, the table of the sequences *)
  ∧ (∀ fasta_file new_stats t,
       t ∈ new_stats → seed_label t = id →
       fasta_parse fasta_file new_stats = (None, Raise ValueError))
  (* fasta_parse, the headers *)
  ∧ (∀ new_stats table min_abundance st before after line abundance,
       for_each fasta_target new_shards new_stats = Ok table →
       minimum (seed_abundance <$> new_stats) = Ok min_abundance →
       runs_through (fasta_line min_abundance) {| fasta := table; current := None |}
         before = Some st →
       String.prefix ">" line = true →
       split_size (strip_chars [">"%char; ";"%char; newline] line) = [id; abundance] →
       fasta_line min_abundance st line = Raise ValueError
       ∧ fasta_parse (before ++ line :: after) new_stats = (None, Raise ValueError))
  (* fasta_parse, the representatives *)
  ∧ (∀ fasta t rest,
       seed_label t = id →
       write_representatives fasta (t :: rest) = ([], Raise ValueError)).
Proof.
  intros Hbad. pose proof Hbad as [e0 He0].
  pose proof (shard_of_error _ _ He0) as ->.
  split; [|split; [|split; [|split; [|split; [|split; [|split; [|split]]]]]]].
  - intros file percentage line Hin Hseed.
    assert (Hrejected : ∃ line, line ∈ file ∧ rejected line).
    { exists line. split; [done|]. right. by exists id. }
    split; [by apply rejected_record_aborts|].
    intros iter input <-. by apply rejected_record_aborts_run.
  - intros threshold seeds seeds1 before after line cloud mass seed_abundance singletons
      rest a Hbefore Hf Ha Hlt Hsize.
    assert (Hline : stats_line threshold seeds1 line = Raise ValueError).
    { rewrite (stats_line_long _ _ _ _ _ _ _ _ _ Hf), Ha. simpl. rewrite Hlt, Hsize. simpl.
      unfold eliminate. by rewrite He0. }
    split; [done|]. unfold stats_parse.
    by rewrite (for_each_runs_through _ _ _ _ _ Hbefore), for_each_cons, Hline.
  - intros iter seeds st before after line abundance Hbefore Hin Hcommon.
    assert (Hlen : length (swarms st) = 256%nat).
    { assert (length (swarms st) = 256%nat ∧ length (global_seeds st) = 256%nat)
        as [? _]; [|done].
      revert Hbefore.
      apply (runs_through_invariant (swarms_line iter (keys_of seeds))
               (λ st, length (swarms st) = 256%nat ∧ length (global_seeds st) = 256%nat));
        [|by split].
      intros s x f [Hsw Hgs] Hx.
      by destruct (swarms_line_keeps _ _ _ _ _ Hsw Hgs Hx) as (? & ? & _). }
    assert (Hline : swarms_line iter (keys_of seeds) st line = Raise ValueError).
    { unfold swarms_line. fold (amplicons_of line) (abundances_of line).
      destruct (amplicons_of line) as [|first amplicons] eqn:Hev.
      { by apply elem_of_nil in Hin. }
      simpl. rewrite decide_True by done. simpl.
      rewrite (record_abundance_loop _ _ Hlen); [done|].
      exists (id, abundance). by split. }
    split; [done|]. unfold swarms_parse. fold (swarms_init seeds).
    by rewrite (for_each_runs_through _ _ _ _ _ Hbefore), for_each_cons, Hline.
  - intros seed gs. unfold record_global_seed. by rewrite He0.
  - intros seeds gs st before after line father cluster Hbefore Hline Hn Hflag.
    assert (Hraise : struct_line seeds (values_of gs) st line = Raise ValueError).
    { destruct Hline as (diffs & cluster_id & steps & Hf & Hid). simpl in Hf.
      unfold struct_line. fold (fields line). rewrite Hf. simpl. rewrite Hid. simpl.
      set (st1 := if decide (cluster ≠ previous_cluster_id st) then _ else st) in *.
      assert (number_of_seeds st1 =? 0 = false) as ->.
      { apply Z.eqb_neq. unfold st1. by destruct (decide _). }
      by rewrite Hflag, He0. }
    split; [done|]. unfold struct_parse.
    by rewrite (for_each_runs_through _ _ _ _ _ Hbefore), for_each_cons, Hraise.
  - split.
    { intros sw. unfold abundance_of. by rewrite He0. }
    intros iter ncs sw sc entry Horder Hsc Hentry Hid.
    destruct (add_abundance_values iter ncs sw) as [result|e] eqn:Hrun.
    + destruct (add_abundance_values_members iter sw ncs Horder result Hrun sc entry id)
        as [n Hn]; [done|done|done|].
      unfold shard_lookup in Hn. by rewrite He0 in Hn.
    + exists e. split; [done|].
      pose proof (add_abundance_values_plain _ _ _ _ Hrun) as Hplain.
      split; [done|]. by destruct e.
  - intros lines new_stats t Hin Hlabel. unfold fasta_parse.
    rewrite (fasta_target_loop_aborts new_stats new_shards); [done|done|].
    exists t. split; [done|]. rewrite Hlabel. by exists ValueError.
  - intros new_stats table m st before after line abundance Hload Hmin Hbefore
      Hheader Hsplit.
    assert (Hline : fasta_line m st line = Raise ValueError).
    { unfold fasta_line. by rewrite Hheader, Hsplit, He0. }
    split; [done|]. unfold fasta_parse. rewrite Hload. simpl. rewrite Hmin. simpl.
    by rewrite (for_each_runs_through _ _ _ _ _ Hbefore), for_each_cons, Hline.
  - intros T t rest Hlabel. cbn [write_representatives]. by rewrite Hlabel, He0.
Qed.

Lemma unparsable_prefix_aborts_witness :
    (∀ file percentage line,
     line ∈ file → seed_of line = Some "zz" →
     per_sample_stats_parse file percentage = Raise ValueError
     ∧ ∀ iter input, per_sample_stats_file input = file →
                     main iter input = aborted ValueError)
    ∧ (∀ threshold seeds seeds1 before after line cloud mass seed_abundance singletons
       rest a,
       runs_through (stats_line threshold) seeds before = Some seeds1 →
       fields line = cloud :: mass :: "zz" :: seed_abundance :: singletons :: rest →
       Py.int 10 seed_abundance = Ok a →
       F64.int_lt a threshold = false →
       may_host_secondary_seed threshold cloud mass singletons = Ok true →
       stats_line threshold seeds1 line = Raise ValueError
       ∧ stats_parse (before ++ line :: after) threshold seeds = Raise ValueError)
    ∧ (∀ iter seeds st before after line abundance,
       runs_through (swarms_line iter (keys_of seeds)) (swarms_init seeds) before
         = Some st →
       ("zz", abundance) ∈ zip (amplicons_of line) (abundances_of line) →
       keys_of seeds ∩ list_to_set (amplicons_of line) ≠ ∅ →
       swarms_line iter (keys_of seeds) st line = Raise ValueError
       ∧ swarms_parse iter (before ++ line :: after) seeds = Raise ValueError)
    ∧ (∀ seed global_seeds, record_global_seed seed global_seeds "zz" = Raise ValueError)
    ∧ (∀ seeds global_seeds st before after line father cluster,
       runs_through (struct_line seeds (values_of global_seeds)) (struct_init seeds)
         before = Some st →
       edge_line cluster line (father, "zz") →
       number_of_seeds st ≠ 0 →
       has_a_local_seed
         (if decide (cluster ≠ previous_cluster_id st)
          then start_cluster (values_of global_seeds) st father cluster else st)
         = Some true →
       struct_line seeds (values_of global_seeds) st line = Raise ValueError
       ∧ struct_parse (before ++ line :: after) seeds global_seeds = Raise ValueError)
    ∧ ((∀ swarms, abundance_of swarms "zz" = Raise ValueError)
     ∧ ∀ iter new_clusters swarms super_cluster entry,
         iteration_order iter →
         super_cluster ∈ new_clusters → entry ∈ super_cluster → "zz" ∈ entry.2 →
         ∃ e, add_abundance_values iter new_clusters swarms = Raise e
              ∧ plain e
              ∧ exit_status (add_abundance_values iter new_clusters swarms) = 1)
    ∧ (∀ fasta_file new_stats t,
       t ∈ new_stats → seed_label t = "zz" →
       fasta_parse fasta_file new_stats = (None, Raise ValueError))
    ∧ (∀ new_stats table min_abundance st before after line abundance,
       for_each fasta_target new_shards new_stats = Ok table →
       minimum (seed_abundance <$> new_stats) = Ok min_abundance →
       runs_through (fasta_line min_abundance) {| fasta := table; current := None |}
         before = Some st →
       String.prefix ">" line = true →
       split_size (strip_chars [">"%char; ";"%char; newline] line) = ["zz"; abundance] →
       fasta_line min_abundance st line = Raise ValueError
       ∧ fasta_parse (before ++ line :: after) new_stats = (None, Raise ValueError))
    ∧ (∀ fasta t rest,
       seed_label t = "zz" →
       write_representatives fasta (t :: rest) = ([], Raise ValueError)).
Proof.
  apply (unparsable_prefix_aborts "zz").
  exists ValueError. vm_compute. reflexivity.
Defined.

(** C9, as it is stated, fails on [example_followed]: the prefix of zz and
    of yy is no hexadecimal number, the run reads both from the global
    statistics, from the membership file and from the merge log, and it
    ends without an error. *)
Lemma unparsable_prefix_is_read :
  shard_of "zz" = Raise ValueError
  ∧ shard_of "yy" = Raise ValueError
  ∧ global_stats_file example_followed !! 2%nat
    = Some (row ["2"; "2"; "zz"; "1"; "2"; "1"; "1"])
  ∧ swarms_file example_followed !! 1%nat = Some (row ["zz_1 yy_1"])
  ∧ struct_file example_followed !! 4%nat = Some (row ["zz"; "yy"; "1"; "2"; "1"])
  ∧ outcome (main elements example_followed) = Ok ()
  ∧ exit_status (outcome (main elements example_followed)) = 0.
Proof. repeat split; by_compute. Qed.

(** * The embedding on sample values *)

(** ** [int] and [split] *)

Example int_hex_ab : Py.int 16 "ab" = Ok 171.
Proof. reflexivity. Qed.
Example int_hex_sign : Py.int 16 "-f" = Ok (-15).
Proof. reflexivity. Qed.
Example int_hex_space : Py.int 16 " a" = Ok 10.
Proof. reflexivity. Qed.
Example int_hex_0x : Py.int 16 "0x" = Raise ValueError.
Proof. reflexivity. Qed.
Example int_hex_0x_1 : Py.int 16 "0X_1" = Ok 1.
Proof. reflexivity. Qed.
Example int_hex_zz : Py.int 16 "zz" = Raise ValueError.
Proof. reflexivity. Qed.
Example int_empty : Py.int 16 "" = Raise ValueError.
Proof. reflexivity. Qed.
Example int_dec_us : Py.int 10 "1_0" = Ok 10.
Proof. reflexivity. Qed.
Example int_dec_trailing_us : Py.int 10 "1_" = Raise ValueError.
Proof. reflexivity. Qed.
Example int_dec_spaces : Py.int 10 "  -7  " = Ok (-7).
Proof. reflexivity. Qed.
Example int_dec_sign_space : Py.int 10 "- 1" = Raise ValueError.
Proof. reflexivity. Qed.
Example int_dec_0x : Py.int 10 "0x1" = Raise ValueError.
Proof. reflexivity. Qed.
Example int_hex_0b1 : Py.int 16 "0b1" = Ok 177.
Proof. reflexivity. Qed.
Example split_empty : Py.split Py.tab "" = [""].
Proof. reflexivity. Qed.
Example strip_line :
  Py.split Py.tab (Py.strip (" s1" ++ String Py.tab ("2" ++ String Py.tab (String "010" ""))))
  = ["s1"; "2"].
Proof. reflexivity. Qed.

(** ** The floats, against the Standard Library's binary64 *)

Example five_percent_is_binary64 :
  F64.to_spec F64.five_percent
  = SpecFloat.S754_finite false 7205759403792794 (-57).
Proof. vm_compute. reflexivity. Qed.

Example product_agrees_with_binary64 :
  Forall (λ n,
    F64.to_spec (F64.mul F64.five_percent (F64.Fin n 0))
    = SpecFloat.SFmul 53 1024 (F64.to_spec F64.five_percent) (F64.to_spec (F64.Fin n 0)))
    [1; 2; 3; 7; 19; 20; 21; 100; 12345; 2 ^ 53 - 1].
Proof. repeat (constructor; [vm_compute; reflexivity|]). constructor. Qed.

Example sum_agrees_with_binary64 :
  Forall (λ '(n, s),
    F64.to_spec (F64.add (F64.mul (F64.Fin 2 0) (F64.mul F64.five_percent (F64.Fin n 0)))
                   (F64.Fin s 0))
    = SpecFloat.SFadd 53 1024
        (SpecFloat.SFmul 53 1024 (F64.to_spec (F64.Fin 2 0))
           (SpecFloat.SFmul 53 1024 (F64.to_spec F64.five_percent)
              (F64.to_spec (F64.Fin n 0))))
        (F64.to_spec (F64.Fin s 0)))
    [(1, 0); (7, 3); (20, 1); (100, 2 ^ 52); (2 ^ 53 - 1, 12345)].
Proof. repeat (constructor; [vm_compute; reflexivity|]). constructor. Qed.
